(** * Tw2GeometryRes: a shallow embedding of the geometry resource

    The definitions below follow [Tw2GeometryRes] (the geometry resource of
    ccpwgl2) method by method.  JavaScript numbers that hold indices, counts
    and byte values are integers ([Z] or [nat]); a value stored in a
    [Float32Array] is the rational that the cell holds after rounding.
    Objects that the resource mutates are threaded explicitly. *)

From Stdlib Require Import ZArith QArith Qabs Lia.
From Stdlib.Strings Require Import Byte.
From stdpp Require Import base list strings pretty.

Set Default Proof Using "Type".
Open Scope Z_scope.

(** ** Errors *)

(** Input layout of one effect pass, as far as the resource looks at it:
    [passInput.elements.length]. *)
Record PassInput := { pi_elements : nat; pi_id : nat }.

(** The [Tw2Error] subclasses raised by the resource, with the data object
    handed to their constructor, and the native [TypeError] of a property
    read on [undefined]. *)
Inductive exception :=
| TypeError
| ErrResourceFormatUnsupported (format : option string)
| ErrGeometryFileType (path : string) (key : string) (value : Z)
| ErrGeometryMeshAreaMissing (path : string) (areaIndex : Z)
| ErrGeometryMeshBoneNameInvalid (path mesh bone model : string)
| ErrGeometryMeshEffectBinding (path : string) (pass : nat)
    (passInput : PassInput) (meshStride : Z).

(** ** Computations over a mutable state that may throw *)

Inductive outcome (S A : Type) :=
| Returned (a : A) (s : S)
| Thrown (e : exception) (s : S)
| OutOfData.
Arguments Returned {S A} a s.
Arguments Thrown {S A} e s.
Arguments OutOfData {S A}.

Definition M (S A : Type) := S -> outcome S A.

Definition ret {S A} (a : A) : M S A := fun s => Returned a s.
Definition throw {S A} (e : exception) : M S A := fun s => Thrown e s.
Definition bind {S A B} (m : M S A) (k : A -> M S B) : M S B :=
  fun s => match m s with
           | Returned a s' => k a s'
           | Thrown e s' => Thrown e s'
           | OutOfData => OutOfData
           end.

Notation "'let*' x ':=' m 'in' k" := (bind m (fun x => k))
  (at level 10, x name, m at level 100, k at level 200).
Notation "'exec' m 'in' k" := (bind m (fun _ => k))
  (at level 10, m at level 100, k at level 200).

(** [for (let i = 0; i < n; ++i) acc = body(i, acc)] *)
Fixpoint for_from {S X} (i n : nat) (body : nat -> X -> M S X) (x : X) : M S X :=
  match n with
  | O => ret x
  | Datatypes.S n' => let* x' := body i x in for_from (Datatypes.S i) n' body x'
  end.
Definition for_upto {S X} (n : nat) (body : nat -> X -> M S X) (x : X) : M S X :=
  for_from 0 n body x.

(** ** Tw2BinaryReader *)

Module Tw2BinaryReader.

(** Modelled from the spec: the class Tw2BinaryReader is not among the
    sources.  The spec names its reads by width and signedness (8, 16 and
    32-bit signed and unsigned integers, 16 and 32-bit floats) over a byte
    stream with a cursor; multi-byte values are taken little-endian and signed
    values in two's complement.  A read past the end of the data is outside
    the spec: it is [None] here, and a decoder that meets it stops with
    [OutOfData]. *)
Record t := mk { data : list byte; cursor : nat }.

Definition u8 (b : byte) : Z := Z.of_N (Byte.to_N b).

Definition next (r : t) : option (Z * t) :=
  match data r !! cursor r with
  | Some b => Some (u8 b, mk (data r) (S (cursor r)))
  | None => None
  end.

(** [k] bytes from the cursor, least significant first. *)
Fixpoint unsigned (k : nat) (r : t) : option (Z * t) :=
  match k with
  | O => Some (0, r)
  | S k' => match next r with
            | Some (b, r') =>
                match unsigned k' r' with
                | Some (v, r'') => Some (b + 256 * v, r'')
                | None => None
                end
            | None => None
            end
  end.

Definition signed (k : nat) (r : t) : option (Z * t) :=
  match unsigned k r with
  | Some (v, r') =>
      let half := 2 ^ (8 * Z.of_nat k - 1) in
      Some (if half <=? v then v - 2 * half else v, r')
  | None => None
  end.

Definition ReadUInt8 := unsigned 1.
Definition ReadInt8 := signed 1.
Definition ReadUInt16 := unsigned 2.
Definition ReadInt16 := signed 2.
Definition ReadUInt32 := unsigned 4.
Definition ReadInt32 := signed 4.
(** The float reads return the bit pattern they consumed. *)
Definition ReadFloat16 := unsigned 2.
Definition ReadFloat32 := unsigned 4.

End Tw2BinaryReader.

(** ** Vertex declarations *)

Module Tw2VertexElement.
Record t := mk {
  usage : Z;
  usageIndex : Z;
  fileType : Z;
  type : Z;
  elements : Z;
  offset : Z
}.
End Tw2VertexElement.

Module Tw2VertexDeclaration.
(** Only the fields the resource writes; the layout hash that [RebuildHash]
    derives from [elements] is not kept. *)
Record t := mk { elements : list Tw2VertexElement.t; stride : Z }.
End Tw2VertexDeclaration.

(** [device.gl.FLOAT] *)
Definition gl_FLOAT : Z := 0x1406.

(** A JavaScript number in a float position (a vector component, a cell of a
    [Float32Array]): a rational, an infinity, NaN, or the float whose bit
    pattern a [ReadFloat16] / [ReadFloat32] returned. *)
Inductive number :=
| Num (q : Q)
| Infinity (negative : bool)
| NaN
| Half (bits : Z)
| Single (bits : Z).

(** ** Floating point

    A number is kept as the rational it is.  Where the code rounds (the
    quotient of a division, a value stored into a [Float32Array]) the value
    is rounded here as well: to nearest, ties to even, in binary64 resp.
    binary32.  The sign of a zero is not kept. *)

Module Float.

(** [2 ^ k] *)
Definition pow2 (k : Z) : Q :=
  if 0 <=? k then inject_Z (2 ^ k) else 1 # Z.to_pos (2 ^ (- k)).

(** The [e] with [2 ^ e <= q < 2 ^ (e + 1)], for [0 < q]. *)
Definition exponent (q : Q) : Z :=
  let k := Z.log2 (Qnum q) - Z.log2 (Z.pos (Qden q)) in
  if Qle_bool (pow2 k) q then k else k - 1.

(** The integer nearest to [q], for [0 <= q]; of two, the even one. *)
Definition nearest_even (q : Q) : Z :=
  let floor := Qnum q / Z.pos (Qden q) in
  match 2 * (Qnum q mod Z.pos (Qden q)) ?= Z.pos (Qden q) with
  | Lt => floor
  | Eq => if Z.even floor then floor else floor + 1
  | Gt => floor + 1
  end.

(** Rounding to [prec] bits with the last place at [2 ^ emin] or above;
    what rounds to [2 ^ emax] or beyond is infinite. *)
Definition round (prec emin emax : Z) (q : Q) : number :=
  let a := Qabs q in
  let ulp := pow2 (Z.max (exponent a - prec + 1) emin) in
  let v := (inject_Z (nearest_even (a / ulp)) * ulp)%Q in
  if Qle_bool (pow2 emax) v then Infinity (Qnum q <? 0)
  else Num (Qred (if Qnum q <? 0 then - v else v)).

Definition binary64 : Q -> number := round 53 (-1074) 1024.
Definition binary32 : Q -> number := round 24 (-149) 128.

(** [Math.fround]: what a store into a [Float32Array] keeps of a number.  A
    half or single float is kept as it is. *)
Definition fround (x : number) : number :=
  match x with
  | Num q => binary32 q
  | _ => x
  end.

(** [a / b] on two integers. *)
Definition divide (a b : Z) : number :=
  if b =? 0 then
    if a =? 0 then NaN else Infinity (a <? 0)
  else binary64 (a * Z.sgn b # Z.to_pos (Z.abs b)).

End Float.

(** [a[i]] for an integer [i]: [None] is [undefined]. *)
Definition get {A} (l : list A) (i : Z) : option A :=
  if i <? 0 then None else l !! Z.to_nat i.

(** [a[i] = x] on an array filled from index 0 upwards. *)
Definition array_set {A} (l : list A) (i : nat) (x : A) : list A :=
  if bool_decide (i < length l)%nat then <[i := x]> l else l ++ [x].

Module VertexBuffer.

(** State of [ReadVertexBuffer]: the reader and the declaration it fills. *)
Record state := mk {
  reader : Tw2BinaryReader.t;
  declaration : Tw2VertexDeclaration.t
}.

Definition read {A} (f : Tw2BinaryReader.t -> option (A * Tw2BinaryReader.t))
  : M state A :=
  fun s => match f (reader s) with
           | Some (a, r') => Returned a (mk r' (declaration s))
           | None => OutOfData
           end.

Definition set_element (declIx : nat) (element : Tw2VertexElement.t) : M state unit :=
  fun s =>
    let d := declaration s in
    Returned tt (mk (reader s)
      (Tw2VertexDeclaration.mk
         (array_set (Tw2VertexDeclaration.elements d) declIx element)
         (Tw2VertexDeclaration.stride d))).

Definition set_stride (stride : Z) : M state unit :=
  fun s =>
    Returned tt (mk (reader s)
      (Tw2VertexDeclaration.mk
         (Tw2VertexDeclaration.elements (declaration s)) stride)).

Definition get_element (declIx : nat) : M state Tw2VertexElement.t :=
  fun s =>
    match Tw2VertexDeclaration.elements (declaration s) !! declIx with
    | Some el => Returned el s
    | None => Thrown TypeError s
    end.

(** The first loop: one element per declaration entry. *)
Definition read_element (declIx : nat) (vertexSize : Z) : M state Z :=
  let* usage := read Tw2BinaryReader.ReadUInt8 in
  let* usageIndex := read Tw2BinaryReader.ReadUInt8 in
  let* fileType := read Tw2BinaryReader.ReadUInt8 in
  let element :=
    Tw2VertexElement.mk usage usageIndex fileType gl_FLOAT
      (Z.shiftr fileType 5 + 1) (vertexSize * 4) in
  exec set_element declIx element in
  ret (vertexSize + Tw2VertexElement.elements element).

(** The buffer under construction with the write position [index]. *)
Definition cells : Type := list number * nat.

(** [buffer[index++] = v] *)
Definition put (v : number) (c : cells) : cells :=
  (<[c.2 := v]> c.1, S c.2).

(** [for (let i = 0; i < n; ++i) buffer[index++] = conv(read())] *)
Definition fill (n : Z) (f : Tw2BinaryReader.t -> option (Z * Tw2BinaryReader.t))
    (conv : Z -> number) (c : cells) : M state cells :=
  for_upto (Z.to_nat n) (fun _ c => let* v := read f in ret (put (conv v) c)) c.

(** What the cell keeps of an integer [v], and of [v / d]. *)
Definition raw (v : Z) : number := Float.fround (Num (inject_Z v)).
Definition over (d : positive) (v : Z) : number := Float.fround (Float.divide v (Z.pos d)).

(** The body of the [switch (el.fileType & 0xf)]. *)
Definition decode_element (path : string) (el : Tw2VertexElement.t) (c : cells)
  : M state cells :=
  let fileType := Tw2VertexElement.fileType el in
  let n := Tw2VertexElement.elements el in
  let flagged := negb (Z.land fileType 0x10 =? 0) in
  match Z.land fileType 0xf with
  | 0 => if flagged then fill n Tw2BinaryReader.ReadInt8 (over 127) c
         else fill n Tw2BinaryReader.ReadInt8 raw c
  | 1 => if flagged then fill n Tw2BinaryReader.ReadInt8 (over 32767) c
         else fill n Tw2BinaryReader.ReadInt16 raw c
  | 2 => fill n Tw2BinaryReader.ReadInt32 raw c
  | 3 => fill n Tw2BinaryReader.ReadFloat16 Half c
  | 4 => fill n Tw2BinaryReader.ReadFloat32 Single c
  | 8 => if flagged then fill n Tw2BinaryReader.ReadUInt8 (over 255) c
         else fill n Tw2BinaryReader.ReadUInt8 raw c
  | 9 => if flagged then fill n Tw2BinaryReader.ReadUInt8 (over 65535) c
         else fill n Tw2BinaryReader.ReadUInt16 raw c
  | 10 => fill n Tw2BinaryReader.ReadUInt32 raw c
  | _ => throw (ErrGeometryFileType path "fileType" (Z.land fileType 0xf))
  end.

Definition decode_vertex (path : string) (declCount : nat) (c : cells) : M state cells :=
  for_upto declCount
    (fun declIx c => let* el := get_element declIx in decode_element path el c) c.

(** [ReadVertexBuffer(reader, declaration, path)]: [None] is the [null]
    returned for an empty vertex list. *)
Definition ReadVertexBuffer (path : string) : M state (option (list number)) :=
  let* declCount := read Tw2BinaryReader.ReadUInt8 in
  let* vertexSize := for_upto (Z.to_nat declCount) read_element 0 in
  exec set_stride (vertexSize * 4) in
  let* vertexCount := read Tw2BinaryReader.ReadUInt32 in
  if vertexCount =? 0 then ret None
  else
    let buffer := replicate (Z.to_nat (vertexSize * vertexCount)) (Num 0) in
    let* filled := for_upto (Z.to_nat vertexCount)
      (fun _ c => decode_vertex path (Z.to_nat declCount) c) (buffer, 0%nat) in
    ret (Some filled.1).

End VertexBuffer.

(** ** Geometry data *)

Definition vec3 : Type := number * number * number.
Definition vec3_zero : vec3 := (Num 0, Num 0, Num 0).
(** A box as the pair [(min, max)]. *)
Definition bounds : Type := vec3 * vec3.

(** Not among the sources: [box3.bounds] of the math module.  The resource
    uses three of its functions, each writing its [out] arguments from its
    inputs: [empty(min, max)], [union(outMin, outMax, aMin, aMax, bMin, bMax)]
    and [toPositionRadius(min, max, outPosition)], which returns the radius. *)
Class Box3 := {
  bounds_empty : bounds;
  bounds_union : bounds -> bounds -> bounds;
  bounds_toPositionRadius : bounds -> vec3 * number
}.

Module Tw2GeometryMeshArea.
Record t := mk { name : string; start : Z; count : Z }.
End Tw2GeometryMeshArea.

Module Tw2GeometryMesh.
(** The fields of a mesh that the resource reads or writes.  [buffer] and
    [indexes] are WebGL buffer handles, [None] once deleted. *)
Record t := mk {
  name : string;
  declaration : Tw2VertexDeclaration.t;
  areas : list Tw2GeometryMeshArea.t;
  buffer : option nat;
  bufferLength : Z;
  indexes : option nat;
  indexType : Z;
  boneBindings : list string;
  minBounds : vec3;
  maxBounds : vec3;
  _boundsDirty : bool;
  bufferData : list number;
  indexData : list Z
}.
End Tw2GeometryMesh.

Module Tw2GeometryBone.
Record t := mk { name : string; boundingBox : option bounds }.
End Tw2GeometryBone.

Module Tw2GeometryMeshBinding.
(** [bones] refers to bones of the model's skeleton by position: the binding
    and the skeleton share the bone objects. *)
Record t := mk { mesh : option Tw2GeometryMesh.t; bones : list nat }.
End Tw2GeometryMeshBinding.

Module Tw2GeometryModel.
Record t := mk {
  name : string;
  skeleton : option (list Tw2GeometryBone.t);
  meshBindings : list Tw2GeometryMeshBinding.t
}.

(** [new Tw2GeometryModel()] *)
Definition new : t := mk "" None [].

Fixpoint find_from (b : nat) (bones : list Tw2GeometryBone.t) (name : string)
  : option nat :=
  match bones with
  | [] => None
  | bone :: rest =>
      if bool_decide (Tw2GeometryBone.name bone = name) then Some b
      else find_from (S b) rest name
  end.

(** Modelled from the spec: Tw2GeometryModel is not among the sources; the
    spec gives [FindBoneByName(name) -> Bone|null].  The bone returned is the
    first bone of the skeleton with that name, as its position. *)
Definition FindBoneByName (name : string) (model : t) : option nat :=
  match skeleton model with
  | Some bones => find_from 0 bones name
  | None => None
  end.

(** [bone.boundingBox = box] on the bone at position [b]. *)
Definition set_boundingBox (b : nat) (box : option bounds) (model : t) : t :=
  mk (name model)
     (alter (fun bone => Tw2GeometryBone.mk (Tw2GeometryBone.name bone) box) b
        <$> skeleton model)
     (meshBindings model).

(** [model.meshBindings.push(binding)] *)
Definition push_binding (binding : Tw2GeometryMeshBinding.t) (model : t) : t :=
  mk (name model) (skeleton model) (meshBindings model ++ [binding]).
End Tw2GeometryModel.

Module Tw2GeometryAnimation.
Record t := mk { name : string; duration : number }.
End Tw2GeometryAnimation.

(** A hit reported by a ray intersection, with the three tags that
    [Tw2GeometryRes.Intersect] puts on it. *)
Module Intersection.
Record t := mk {
  distance : Q;
  geometryResource : option string;
  meshIndex : option Z;
  mesh : option string
}.
End Intersection.

(** Not among the sources: the class Tw2GeometryMesh.  Its methods are
    parameters: the constructor, [Clear()], [RebuildBounds(force)], [Intersect(ray, intersects,
    worldTransform, cache)] (returning the accumulator, the cache and its
    hits), [RecalculateAreaBounds(bufferData, indexData)],
    [ClearSystemMirrorIfNotRequired()] and [FindBoneBoundsByName(name)]. *)
Class MeshMethods (Ray Mat4 Cache : Type) := {
  mesh_new : Tw2GeometryMesh.t;
  mesh_Clear : Tw2GeometryMesh.t -> Tw2GeometryMesh.t;
  mesh_RebuildBounds : bool -> Tw2GeometryMesh.t -> Tw2GeometryMesh.t;
  mesh_Intersect : Ray -> list Intersection.t -> Mat4 -> Cache -> Tw2GeometryMesh.t ->
                   list Intersection.t * Cache * list Intersection.t;
  mesh_RecalculateAreaBounds : list number -> list Z -> Tw2GeometryMesh.t -> Tw2GeometryMesh.t;
  mesh_ClearSystemMirrorIfNotRequired : Tw2GeometryMesh.t -> Tw2GeometryMesh.t;
  mesh_FindBoneBoundsByName : string -> Tw2GeometryMesh.t -> option bounds
}.

(** Modelled from the spec: Tw2Resource is not among the sources; the spec
    lists the states of the lifecycle, and a resource is good when ready. *)
Inductive ResourceState := Empty | Loading | Preparing | Ready | Unloaded | Failed.

Module Tw2GeometryRes.
Record t := mk {
  path : string;
  state : ResourceState;
  meshes : list Tw2GeometryMesh.t;
  minBounds : vec3;
  maxBounds : vec3;
  boundsSpherePosition : vec3;
  boundsSphereRadius : number;
  models : list Tw2GeometryModel.t;
  animations : list Tw2GeometryAnimation.t;
  _isCustom : bool;
  _requiresSystemMirror : bool;
  _extension : option string;
  _boundsDirty : bool;
  _custom : bool
}.

(** The field values of a freshly constructed resource. *)
Definition new (path : string) : t :=
  mk path Empty [] vec3_zero vec3_zero vec3_zero (Num 0) [] [] false false None true false.

Definition with_meshes (ms : list Tw2GeometryMesh.t) (r : t) : t :=
  mk (path r) (state r) ms (minBounds r) (maxBounds r) (boundsSpherePosition r)
     (boundsSphereRadius r) (models r) (animations r) (_isCustom r)
     (_requiresSystemMirror r) (_extension r) (_boundsDirty r) (_custom r).
Definition with_models (ms : list Tw2GeometryModel.t) (r : t) : t :=
  mk (path r) (state r) (meshes r) (minBounds r) (maxBounds r) (boundsSpherePosition r)
     (boundsSphereRadius r) ms (animations r) (_isCustom r)
     (_requiresSystemMirror r) (_extension r) (_boundsDirty r) (_custom r).
Definition with_animations (ans : list Tw2GeometryAnimation.t) (r : t) : t :=
  mk (path r) (state r) (meshes r) (minBounds r) (maxBounds r) (boundsSpherePosition r)
     (boundsSphereRadius r) (models r) ans (_isCustom r)
     (_requiresSystemMirror r) (_extension r) (_boundsDirty r) (_custom r).
Definition with_bounds (b : bounds) (pos : vec3) (radius : number) (r : t) : t :=
  mk (path r) (state r) (meshes r) b.1 b.2 pos radius (models r) (animations r)
     (_isCustom r) (_requiresSystemMirror r) (_extension r) (_boundsDirty r) (_custom r).
Definition with_boundsDirty (d : bool) (r : t) : t :=
  mk (path r) (state r) (meshes r) (minBounds r) (maxBounds r) (boundsSpherePosition r)
     (boundsSphereRadius r) (models r) (animations r) (_isCustom r)
     (_requiresSystemMirror r) (_extension r) d (_custom r).
Definition with_custom (c : bool) (r : t) : t :=
  mk (path r) (state r) (meshes r) (minBounds r) (maxBounds r) (boundsSpherePosition r)
     (boundsSphereRadius r) (models r) (animations r) (_isCustom r)
     (_requiresSystemMirror r) (_extension r) (_boundsDirty r) c.
Definition with_state (st : ResourceState) (r : t) : t :=
  mk (path r) st (meshes r) (minBounds r) (maxBounds r) (boundsSpherePosition r)
     (boundsSphereRadius r) (models r) (animations r) (_isCustom r)
     (_requiresSystemMirror r) (_extension r) (_boundsDirty r) (_custom r).

(** Modelled from the spec: [IsGood()] of Tw2Resource, true in the ready
    state. *)
Definition IsGood (r : t) : bool :=
  match state r with Ready => true | _ => false end.

(** Modelled from the spec: [OnPrepared()] of Tw2Resource, the transition
    to the ready state. *)
Definition OnPrepared (r : t) : t := with_state Ready r.

Section Bounds.
Context `{Box3} {Ray Mat4 Cache : Type} `{!MeshMethods Ray Mat4 Cache}.

(** The first loop of [RebuildBounds]: is some mesh dirty? *)
Fixpoint any_dirty (ms : list Tw2GeometryMesh.t) : bool :=
  match ms with
  | [] => false
  | m :: rest => if Tw2GeometryMesh._boundsDirty m then true else any_dirty rest
  end.

(** The second loop: each mesh rebuilds its bounds, which are then united
    into [(min, max)]. *)
Fixpoint rebuild_meshes (force : bool) (ms : list Tw2GeometryMesh.t) (box : bounds)
  : list Tw2GeometryMesh.t * bounds :=
  match ms with
  | [] => ([], box)
  | m :: rest =>
      let mesh := mesh_RebuildBounds force m in
      let box' := bounds_union box
                    (Tw2GeometryMesh.minBounds mesh, Tw2GeometryMesh.maxBounds mesh) in
      let '(rest', out) := rebuild_meshes force rest box' in
      (mesh :: rest', out)
  end.

(** The block guarded by [this._boundsDirty || force]. *)
Definition recompute (force : bool) (r : t) : t :=
  let '(ms, box) := rebuild_meshes force (meshes r) bounds_empty in
  let '(position, radius) := bounds_toPositionRadius box in
  with_boundsDirty false (with_bounds box position radius (with_meshes ms r)).

Definition RebuildBounds (force : bool) (r : t) : t :=
  let r1 :=
    if negb (_boundsDirty r) && negb force then
      if any_dirty (meshes r) then with_boundsDirty true r else r
    else r in
  if _boundsDirty r1 || force then recompute force r1 else r1.

(** [Clear()]: the resource afterwards, and the meshes it let go of, each
    after its own [Clear()]. *)
Definition Clear (r : t) : t * list Tw2GeometryMesh.t :=
  let released := mesh_Clear <$> meshes r in
  (with_bounds (vec3_zero, vec3_zero) vec3_zero (Num 0)
     (with_animations [] (with_models [] (with_meshes [] r))),
   released).

Definition ClearSystemMirrorIfNotRequired (r : t) : t :=
  if negb (_requiresSystemMirror r) && negb (_isCustom r) then
    with_meshes (mesh_ClearSystemMirrorIfNotRequired <$> meshes r) r
  else r.

End Bounds.

(** *** Devices, effects and the calls made on them *)

Definition gl_ARRAY_BUFFER : Z := 0x8892.
Definition gl_ELEMENT_ARRAY_BUFFER : Z := 0x8893.
Definition gl_STATIC_DRAW : Z := 0x88E4.
Definition gl_UNSIGNED_SHORT : Z := 0x1403.
Definition gl_UNSIGNED_INT : Z := 0x1405.
Definition gl_TRIANGLES : Z := 4.
Definition gl_LINES : Z := 1.

(** What the resource asks of its collaborators, in the order asked. *)
Inductive event :=
| KeepAlive
| gl_createBuffer (handle : nat)
| gl_bindBuffer (target : Z) (buffer : option nat)
| gl_bufferData (target : Z) (size : nat) (usage : Z)
| ApplyPass (technique : string) (pass : nat)
| SetDeclaration (passInput : PassInput) (stride : Z)
| SetPartialDeclaration (passInput : PassInput) (stride : Z) (instanced : bool)
| ApplyShadowState
| gl_drawElements (mode count type offset : Z)
| gl_drawElementsInstanced (mode count type offset instanceCount : Z)
| ResetInstanceDivisors (resetData : nat)
| OnError (e : exception).

Record Device := mkDevice { log : list event; created : nat }.

Definition emit (e : event) : M Device unit :=
  fun d => Returned tt (mkDevice (log d ++ [e]) (created d)).

(** [gl.createBuffer()] *)
Definition createBuffer : M Device nat :=
  fun d => Returned (created d)
             (mkDevice (log d ++ [gl_createBuffer (created d)]) (S (created d))).

(** Not among the sources: Tw2Effect.  [GetPassCount(technique)] and
    [GetPassInput(technique, pass)] are fields; [ApplyPass] is logged. *)
Record Tw2Effect := {
  defaultTechnique : string;
  GetPassCount : string -> nat;
  GetPassInput : string -> nat -> PassInput
}.

(** Not among the sources: the methods of Tw2VertexDeclaration that bind a
    declaration to the inputs of a pass.  [SetDeclaration] answers whether the
    inputs could be bound; [SetPartialDeclaration] answers the divisor data to
    reset. *)
Class DeclarationMethods := {
  decl_SetDeclaration : Tw2VertexDeclaration.t -> PassInput -> Z -> bool;
  decl_SetPartialDeclaration : Tw2VertexDeclaration.t -> PassInput -> Z -> nat
}.

(** *** Loading *)

Module MeshDescriptor.
(** One entry of the array built by a by-mesh reader; [name] is [None] when
    the entry has none. *)
Record t := mk {
  bufferData : list number;
  indexData : list Z;
  BYTES_PER_ELEMENT : Z;
  declaration : Tw2VertexDeclaration.t;
  areas : list Tw2GeometryMeshArea.t;
  name : option string
}.
End MeshDescriptor.

(** What [Prepare] works on: the resource and the device. *)
Record World := mkWorld { res : t; device : Device }.

Definition on_res (f : t -> t) : M World unit :=
  fun w => Returned tt (mkWorld (f (res w)) (device w)).

Definition on_device {A} (m : M Device A) : M World A :=
  fun w => match m (device w) with
           | Returned a d => Returned a (mkWorld (res w) d)
           | Thrown e d => Thrown e (mkWorld (res w) d)
           | OutOfData => OutOfData
           end.

Definition get_res : M World t := fun w => Returned (res w) w.

(** Not among the sources: the geometry readers.  A reader either builds
    mesh descriptors ([byMesh], [construct]) or fills the resource itself
    ([Prepare(data, res, options)]). *)
Record Reader (Data Options : Type) := {
  byMesh : bool;
  construct : Data -> list MeshDescriptor.t;
  reader_Prepare : Data -> Options -> M World unit
}.
Arguments byMesh {Data Options} _.
Arguments construct {Data Options} _ _.
Arguments reader_Prepare {Data Options} _ _ _.

(** The table [readers], keyed by extension, and the switch
    [resMan.IsSystemMirrorEnabled()]. *)
Class Environment (Data Options : Type) := {
  readers : string -> option (Reader Data Options);
  IsSystemMirrorEnabled : bool
}.

Section Lifecycle.
Context `{Box3} {Ray Mat4 Cache : Type} `{!MeshMethods Ray Mat4 Cache}.
Context {Data Options : Type} `{!Environment Data Options}.

(** The body of the loop of [PrepareFromMeshes] for entry [i]. *)
Definition prepare_mesh (i : nat) (d : MeshDescriptor.t) : M World unit :=
  let* r := get_res in
  let name := default (path r +:+ "_model_" +:+ pretty i) (MeshDescriptor.name d) in
  let* buffer := on_device createBuffer in
  exec on_device (emit (gl_bindBuffer gl_ARRAY_BUFFER (Some buffer))) in
  exec on_device (emit (gl_bufferData gl_ARRAY_BUFFER
                     (length (MeshDescriptor.bufferData d)) gl_STATIC_DRAW)) in
  let* indexes := on_device createBuffer in
  let indexType :=
    if MeshDescriptor.BYTES_PER_ELEMENT d =? 2 then gl_UNSIGNED_SHORT
    else gl_UNSIGNED_INT in
  exec on_device (emit (gl_bindBuffer gl_ELEMENT_ARRAY_BUFFER (Some indexes))) in
  exec on_device (emit (gl_bufferData gl_ELEMENT_ARRAY_BUFFER
                     (length (MeshDescriptor.indexData d)) gl_STATIC_DRAW)) in
  let mesh :=
    Tw2GeometryMesh.mk name (MeshDescriptor.declaration d)
      (Tw2GeometryMesh.areas mesh_new ++
         ((fun a => Tw2GeometryMeshArea.mk (Tw2GeometryMeshArea.name a)
                      (Tw2GeometryMeshArea.start a) (Tw2GeometryMeshArea.count a))
            <$> MeshDescriptor.areas d))
      (Some buffer) (Z.of_nat (length (MeshDescriptor.bufferData d)))
      (Some indexes) indexType
      (Tw2GeometryMesh.boneBindings mesh_new)
      (Tw2GeometryMesh.minBounds mesh_new) (Tw2GeometryMesh.maxBounds mesh_new)
      (Tw2GeometryMesh._boundsDirty mesh_new)
      (Tw2GeometryMesh.bufferData mesh_new) (Tw2GeometryMesh.indexData mesh_new) in
  let mesh := mesh_RecalculateAreaBounds
                (MeshDescriptor.bufferData d) (MeshDescriptor.indexData d) mesh in
  let mesh :=
    Tw2GeometryMesh.mk (Tw2GeometryMesh.name mesh) (Tw2GeometryMesh.declaration mesh)
      (Tw2GeometryMesh.areas mesh) (Tw2GeometryMesh.buffer mesh)
      (Tw2GeometryMesh.bufferLength mesh) (Tw2GeometryMesh.indexes mesh)
      (Tw2GeometryMesh.indexType mesh) (Tw2GeometryMesh.boneBindings mesh)
      (Tw2GeometryMesh.minBounds mesh) (Tw2GeometryMesh.maxBounds mesh)
      (Tw2GeometryMesh._boundsDirty mesh)
      (MeshDescriptor.bufferData d) (MeshDescriptor.indexData d) in
  on_res (fun r => with_models (array_set (models r) i Tw2GeometryModel.new)
                     (with_meshes (array_set (meshes r) i mesh) r)).

Fixpoint prepare_from (i : nat) (ds : list MeshDescriptor.t) : M World unit :=
  match ds with
  | [] => ret tt
  | d :: rest => exec prepare_mesh i d in prepare_from (S i) rest
  end.

Definition PrepareFromMeshes (ds : list MeshDescriptor.t) : M World unit :=
  prepare_from 0 ds.

(** [this.Clear()] inside a method of the resource; the meshes let go of
    are no longer reachable from it. *)
Definition do_Clear : M World unit := on_res (fun r => (Clear r).1).

(** [readers[this._extension]]: a property read with the key [null] is a
    read of the key ["null"]. *)
Definition reader_for (r : t) : option (Reader Data Options) :=
  readers (default "null" (_extension r)).

Definition Prepare (data : Data) (options : Options) : M World unit :=
  exec do_Clear in
  let* r := get_res in
  match reader_for r with
  | None => throw (ErrResourceFormatUnsupported (_extension r))
  | Some Reader =>
      exec (if byMesh Reader then PrepareFromMeshes (construct Reader data)
       else reader_Prepare Reader data options) in
      exec on_res (RebuildBounds false) in
      exec on_res (with_custom false) in
      exec (if negb IsSystemMirrorEnabled then on_res ClearSystemMirrorIfNotRequired
       else ret tt) in
      on_res OnPrepared
  end.

End Lifecycle.
(** *** Ray intersection *)

(** Not among the sources: Tw2RayCaster.  The resource calls
    [IntersectBounds(min, max, worldTransform)] and hands [_sortFunction] to
    [Array.prototype.sort]. *)
Class RayMethods (Ray Mat4 : Type) := {
  ray_IntersectBounds : Ray -> vec3 -> vec3 -> Mat4 -> bool;
  ray_sortFunction : Ray -> Intersection.t -> Intersection.t -> Z
}.

(** [Array.prototype.sort(compare)] as a stable insertion sort. *)
Fixpoint sort_insert {A} (compare : A -> A -> Z) (x : A) (l : list A) : list A :=
  match l with
  | [] => [x]
  | y :: rest => if 0 <? compare y x then x :: y :: rest
                 else y :: sort_insert compare x rest
  end.
Fixpoint sort {A} (compare : A -> A -> Z) (l : list A) : list A :=
  match l with
  | [] => []
  | x :: rest => sort_insert compare x (sort compare rest)
  end.

Section Intersect.
Context `{Box3} {Ray Mat4 Cache : Type} `{!MeshMethods Ray Mat4 Cache}.
Context `{!RayMethods Ray Mat4}.

(** The body of the [forEach]: the three tags set on a hit. *)
Definition tag (r : t) (meshIndex : Z) (mesh : Tw2GeometryMesh.t)
    (intersect : Intersection.t) : Intersection.t :=
  Intersection.mk (Intersection.distance intersect)
    (Some (path r)) (Some meshIndex) (Some (Tw2GeometryMesh.name mesh)).

(** [Intersect(ray, intersects, worldTransform, cache, meshIndex = 0)]: the
    resource, the accumulator and the cache afterwards, and the array
    returned. *)
Definition Intersect (ray : Ray) (intersects : list Intersection.t)
    (worldTransform : Mat4) (cache : Cache) (meshIndex : option Z) (r : t)
  : t * list Intersection.t * Cache * list Intersection.t :=
  let meshIndex := default 0 meshIndex in
  let r := RebuildBounds false r in
  if negb (ray_IntersectBounds ray (minBounds r) (maxBounds r) worldTransform)
  then (r, intersects, cache, [])
  else
    match get (meshes r) meshIndex with
    | Some mesh =>
        let '(intersects', cache', hits) :=
          mesh_Intersect ray intersects worldTransform cache mesh in
        (r, intersects', cache',
         sort (ray_sortFunction ray) (tag r meshIndex mesh <$> hits))
    | None => (r, intersects, cache, sort (ray_sortFunction ray) [])
    end.

End Intersect.

(** *** Binding a mesh to a model *)

Section Bind.
Context {Ray Mat4 Cache : Type} `{!MeshMethods Ray Mat4 Cache}.

(** The loop of [BindMeshToModel] over [binding.mesh.boneBindings], from
    the names still to do and the bones pushed so far. *)
Fixpoint bind_bones (res_path : string) (mesh : Tw2GeometryMesh.t)
    (names : list string) (bones : list nat) : M Tw2GeometryModel.t (list nat) :=
  match names with
  | [] => ret bones
  | name :: rest =>
      fun model =>
        match Tw2GeometryModel.FindBoneByName name model with
        | None =>
            Thrown (ErrGeometryMeshBoneNameInvalid res_path
                      (Tw2GeometryMesh.name mesh) name (Tw2GeometryModel.name model))
                   model
        | Some bone =>
            bind_bones res_path mesh rest (bones ++ [bone])
              (Tw2GeometryModel.set_boundingBox bone
                 (mesh_FindBoneBoundsByName name mesh) model)
        end
  end.

Definition push (binding : Tw2GeometryMeshBinding.t) : M Tw2GeometryModel.t unit :=
  fun model => Returned tt (Tw2GeometryModel.push_binding binding model).

(** [static BindMeshToModel(mesh, model, res)], on the model. *)
Definition BindMeshToModel (mesh : Tw2GeometryMesh.t) (r : t)
  : M Tw2GeometryModel.t unit :=
  let* bones := bind_bones (path r) mesh (Tw2GeometryMesh.boneBindings mesh) [] in
  push (Tw2GeometryMeshBinding.mk (Some mesh) bones).

End Bind.

(** *** Rendering *)

(** How the inner [while] of the area loop ends: with the run to draw and
    the last area folded into it, or at a missing area. *)
Inductive run :=
| Run (i areaStart areaCount : Z)
| Missing (areaIndex : Z).

(** The inner [while (i + 1 < count)]; [n] bounds the iterations left,
    [count - (i + 1)] of them at most. *)
Fixpoint merge (areas : list Tw2GeometryMeshArea.t) (start count : Z)
    (n : nat) (i areaStart areaCount : Z) : run :=
  match n with
  | O => Run i areaStart areaCount
  | S n' =>
      if i + 1 <? count then
        match get areas (i + 1 + start) with
        | None => Missing (i + 1 + start)
        | Some area =>
            if negb (Tw2GeometryMeshArea.start area =? areaStart + areaCount * 2)
            then Run i areaStart areaCount
            else merge areas start count n' (i + 1) areaStart
                   (areaCount + Tw2GeometryMeshArea.count area)
        end
      else Run i areaStart areaCount
  end.

(** The loop [for (let i = 0; i < count; ++i)] over the areas, from [i];
    the three render methods have the same loop and differ in the draw call.
    [false] is the [return false] after a missing area; [n] bounds the
    iterations left, [count - i] of them at most. *)
Fixpoint walk (draw : Z -> Z -> event) (res_path : string)
    (areas : list Tw2GeometryMeshArea.t) (start count : Z) (n : nat) (i : Z)
  : M Device bool :=
  match n with
  | O => ret true
  | S n' =>
      if i <? count then
        if i + start <? Z.of_nat (length areas) then
          match get areas (i + start) with
          | None => throw TypeError
          | Some area =>
              match merge areas start count (Z.to_nat (count - (i + 1))) i
                      (Tw2GeometryMeshArea.start area)
                      (Tw2GeometryMeshArea.count area) with
              | Missing areaIndex =>
                  exec emit (OnError (ErrGeometryMeshAreaMissing res_path areaIndex)) in
                  ret false
              | Run i' areaStart areaCount =>
                  exec emit (draw areaCount areaStart) in
                  walk draw res_path areas start count n' (i' + 1)
              end
          end
        else walk draw res_path areas start count n' (i + 1)
      else ret true
  end.

Definition walk_areas (draw : Z -> Z -> event) (res_path : string)
    (areas : list Tw2GeometryMeshArea.t) (start count : Z) : M Device bool :=
  walk draw res_path areas start count (Z.to_nat count) 0.

Section Render.
Context `{DeclarationMethods}.

(** The pass loop of [RenderAreas] and [RenderLines], from [pass], with
    [n] passes to go. *)
Fixpoint direct_passes (mode : Z) (r : t) (mesh : Tw2GeometryMesh.t)
    (effect : Tw2Effect) (technique : string) (start count : Z)
    (n pass : nat) : M Device bool :=
  match n with
  | O => ret true
  | S n' =>
      exec emit (ApplyPass technique pass) in
      let passInput := GetPassInput effect technique pass in
      let stride := Tw2VertexDeclaration.stride (Tw2GeometryMesh.declaration mesh) in
      exec emit (SetDeclaration passInput stride) in
      if negb (decl_SetDeclaration (Tw2GeometryMesh.declaration mesh) passInput stride)
      then
        exec emit (OnError (ErrGeometryMeshEffectBinding (path r) pass passInput stride)) in
        ret false
      else
        exec emit ApplyShadowState in
        let* completed := walk_areas
          (fun areaCount areaStart =>
             gl_drawElements mode areaCount (Tw2GeometryMesh.indexType mesh) areaStart)
          (path r) (Tw2GeometryMesh.areas mesh) start count in
        if completed then direct_passes mode r mesh effect technique start count n' (S pass)
        else ret false
  end.

(** [RenderAreas(meshIx, start, count, effect, technique)]; [technique] is
    [None] when the caller leaves it out. *)
Definition RenderAreas (meshIx start count : Z) (effect : Tw2Effect)
    (technique : option string) (r : t) : M Device bool :=
  let technique := default (defaultTechnique effect) technique in
  exec emit KeepAlive in
  let passCount := GetPassCount effect technique in
  if bool_decide (passCount = 0%nat) || negb (IsGood r)
     || (Z.of_nat (length (meshes r)) <=? meshIx)
  then ret false
  else
    match from_option Some (get (meshes r) 0) (get (meshes r) meshIx) with
    | None => throw TypeError
    | Some mesh =>
        exec emit (gl_bindBuffer gl_ARRAY_BUFFER (Tw2GeometryMesh.buffer mesh)) in
        exec emit (gl_bindBuffer gl_ELEMENT_ARRAY_BUFFER (Tw2GeometryMesh.indexes mesh)) in
        direct_passes gl_TRIANGLES r mesh effect technique start count passCount 0
    end.

Definition RenderLines (meshIx start count : Z) (effect : Tw2Effect)
    (technique : option string) (r : t) : M Device bool :=
  let technique := default (defaultTechnique effect) technique in
  exec emit KeepAlive in
  let passCount := GetPassCount effect technique in
  if bool_decide (passCount = 0%nat) || negb (IsGood r)
     || (Z.of_nat (length (meshes r)) <=? meshIx)
  then ret false
  else
    match get (meshes r) meshIx with
    | None => throw TypeError
    | Some mesh =>
        exec emit (gl_bindBuffer gl_ARRAY_BUFFER (Tw2GeometryMesh.buffer mesh)) in
        exec emit (gl_bindBuffer gl_ELEMENT_ARRAY_BUFFER (Tw2GeometryMesh.indexes mesh)) in
        direct_passes gl_LINES r mesh effect technique start count passCount 0
    end.

(** The pass loop of [RenderAreasInstanced]. *)
Fixpoint instanced_passes (r : t) (mesh : Tw2GeometryMesh.t)
    (effect : Tw2Effect) (technique : string) (start count : Z)
    (instanceVB : option nat) (instanceDecl : Tw2VertexDeclaration.t)
    (instanceStride instanceCount : Z) (n pass : nat) : M Device bool :=
  match n with
  | O => ret true
  | S n' =>
      exec emit (ApplyPass technique pass) in
      let passInput := GetPassInput effect technique pass in
      if bool_decide (pi_elements passInput = 0%nat) then
        instanced_passes r mesh effect technique start count
          instanceVB instanceDecl instanceStride instanceCount n' (S pass)
      else
        let stride := Tw2VertexDeclaration.stride (Tw2GeometryMesh.declaration mesh) in
        exec emit (gl_bindBuffer gl_ARRAY_BUFFER (Tw2GeometryMesh.buffer mesh)) in
        exec emit (SetPartialDeclaration passInput stride false) in
        exec emit (gl_bindBuffer gl_ARRAY_BUFFER instanceVB) in
        exec emit (SetPartialDeclaration passInput instanceStride true) in
        let resetData := decl_SetPartialDeclaration instanceDecl passInput instanceStride in
        exec emit ApplyShadowState in
        let* completed := walk_areas
          (fun areaCount areaStart =>
             gl_drawElementsInstanced gl_TRIANGLES areaCount
               (Tw2GeometryMesh.indexType mesh) areaStart instanceCount)
          (path r) (Tw2GeometryMesh.areas mesh) start count in
        if completed then
          exec emit (ResetInstanceDivisors resetData) in
          instanced_passes r mesh effect technique start count
            instanceVB instanceDecl instanceStride instanceCount n' (S pass)
        else ret false
  end.

Definition RenderAreasInstanced (meshIx start count : Z) (effect : Tw2Effect)
    (technique : option string) (instanceVB : option nat)
    (instanceDecl : Tw2VertexDeclaration.t) (instanceStride instanceCount : Z)
    (r : t) : M Device bool :=
  let technique := default (defaultTechnique effect) technique in
  exec emit KeepAlive in
  let passCount := GetPassCount effect technique in
  if bool_decide (passCount = 0%nat) || negb (IsGood r)
     || (Z.of_nat (length (meshes r)) <=? meshIx)
  then ret false
  else
    match get (meshes r) meshIx with
    | None => throw TypeError
    | Some mesh =>
        exec emit (gl_bindBuffer gl_ELEMENT_ARRAY_BUFFER (Tw2GeometryMesh.indexes mesh)) in
        instanced_passes r mesh effect technique start count
          instanceVB instanceDecl instanceStride instanceCount passCount 0
    end.

End Render.
(** *** Instance data *)

(** [GetInstanceBuffer(meshIndex)]: the outer [None] is [undefined], the
    inner one a buffer that is [null]. *)
Definition GetInstanceBuffer (meshIndex : Z) : M t (option (option nat)) :=
  fun r =>
    if meshIndex <? Z.of_nat (length (meshes r)) then
      match get (meshes r) meshIndex with
      | Some mesh => Returned (Some (Tw2GeometryMesh.buffer mesh)) r
      | None => Thrown TypeError r
      end
    else Returned None r.

Definition GetInstanceDeclaration (meshIndex : Z) : M t Tw2VertexDeclaration.t :=
  fun r =>
    match get (meshes r) meshIndex with
    | Some mesh => Returned (Tw2GeometryMesh.declaration mesh) r
    | None => Thrown TypeError r
    end.

Definition GetInstanceStride (meshIndex : Z) : M t Z :=
  fun r =>
    match get (meshes r) meshIndex with
    | Some mesh =>
        Returned (Tw2VertexDeclaration.stride (Tw2GeometryMesh.declaration mesh)) r
    | None => Thrown TypeError r
    end.

Definition GetInstanceCount (meshIndex : Z) : M t number :=
  fun r =>
    match get (meshes r) meshIndex with
    | Some mesh =>
        Returned
          (Float.divide (Tw2GeometryMesh.bufferLength mesh * 4)
             (Tw2VertexDeclaration.stride (Tw2GeometryMesh.declaration mesh))) r
    | None => Thrown TypeError r
    end.

(** *** Unloading *)

(** The body of the loop of [Unload]: the mesh afterwards and the handles
    given to [gl.deleteBuffer], in the order given. *)
Definition unload_mesh (mesh : Tw2GeometryMesh.t) : Tw2GeometryMesh.t * list nat :=
  let deleted :=
    match Tw2GeometryMesh.buffer mesh with Some h => [h] | None => [] end
    ++ match Tw2GeometryMesh.indexes mesh with Some h => [h] | None => [] end in
  (Tw2GeometryMesh.mk (Tw2GeometryMesh.name mesh) (Tw2GeometryMesh.declaration mesh)
     (Tw2GeometryMesh.areas mesh) None (Tw2GeometryMesh.bufferLength mesh) None
     (Tw2GeometryMesh.indexType mesh) (Tw2GeometryMesh.boneBindings mesh)
     (Tw2GeometryMesh.minBounds mesh) (Tw2GeometryMesh.maxBounds mesh)
     (Tw2GeometryMesh._boundsDirty mesh)
     (Tw2GeometryMesh.bufferData mesh) (Tw2GeometryMesh.indexData mesh),
   deleted).

Fixpoint unload_meshes (ms : list Tw2GeometryMesh.t)
  : list Tw2GeometryMesh.t * list nat :=
  match ms with
  | [] => ([], [])
  | m :: rest =>
      let '(m', deleted) := unload_mesh m in
      let '(rest', deleted') := unload_meshes rest in
      (m' :: rest', deleted ++ deleted')
  end.

(** Modelled from the spec: [OnUnloaded(eventLog)] of Tw2Resource, the
    transition to the unloaded state. *)
Definition OnUnloaded (r : t) : t := with_state Unloaded r.

(** [Unload(eventLog)]: the resource afterwards, the handles deleted, and
    the value returned. *)
Definition Unload (r : t) : t * list nat * bool :=
  let '(ms, deleted) := unload_meshes (meshes r) in
  (OnUnloaded (with_meshes ms r), deleted, true).

(** *** Choosing a reader *)

Definition with_extension (e : option string) (r : t) : t :=
  mk (path r) (state r) (meshes r) (minBounds r) (maxBounds r) (boundsSpherePosition r)
     (boundsSphereRadius r) (models r) (animations r) (_isCustom r)
     (_requiresSystemMirror r) e (_boundsDirty r) (_custom r).

(** [String.prototype.toLowerCase], and whether a JSON document has a
    [factory]. *)
Class Language (Data : Type) := {
  toLowerCase : string -> string;
  json_factory : Data -> bool
}.

Section Loading.
Context `{Box3} {Ray Mat4 Cache : Type} `{!MeshMethods Ray Mat4 Cache}.
Context {Data Options : Type} `{!Environment Data Options} `{!Language Data}.

(** [DoCustomLoad(url, extension)].  The field [_requestResponseType], set
    beside [_extension] and read by the loader alone, is not kept. *)
Definition DoCustomLoad (url extension : string) : M t unit :=
  fun r =>
    let r := with_extension None r in
    match readers (toLowerCase extension) with
    | None => Thrown (ErrResourceFormatUnsupported (Some extension)) r
    | Some reader => Returned tt (with_extension (Some extension) r)
    end.


End Loading.

(** *** Index buffers and curves *)

Definition read {A} (f : Tw2BinaryReader.t -> option (A * Tw2BinaryReader.t))
  : M Tw2BinaryReader.t A :=
  fun r => match f r with
           | Some (a, r') => Returned a r'
           | None => OutOfData
           end.

(** [for (let i = 0; i < n; ++i) array[i] = conv(read())] on a typed array
    of [n] zeros. *)
Definition read_array {A} (zero : A) (n : Z)
    (f : Tw2BinaryReader.t -> option (Z * Tw2BinaryReader.t)) (conv : Z -> A)
  : M Tw2BinaryReader.t (list A) :=
  for_upto (Z.to_nat n)
    (fun i array => let* v := read f in ret (<[i := conv v]> array))
    (replicate (Z.to_nat n) zero).

Inductive IndexArray :=
| Uint16Array (indexes : list Z)
| Uint32Array (indexes : list Z).

(** [static ReadIndexBuffer(reader)]; a typed array keeps a value modulo
    the range of its elements. *)
Definition ReadIndexBuffer : M Tw2BinaryReader.t IndexArray :=
  let* ibType := read Tw2BinaryReader.ReadUInt8 in
  let* indexCount := read Tw2BinaryReader.ReadUInt32 in
  if ibType =? 0 then
    let* indexes := read_array 0 indexCount Tw2BinaryReader.ReadUInt16
                      (fun v => v mod 2 ^ 16) in
    ret (Uint16Array indexes)
  else
    let* indexes := read_array 0 indexCount Tw2BinaryReader.ReadUInt32
                      (fun v => v mod 2 ^ 32) in
    ret (Uint32Array indexes).

Module Tw2GeometryCurve.
Record t := mk {
  dimension : Z;
  degree : Z;
  knots : list number;
  controls : list number
}.
End Tw2GeometryCurve.

(** [static ReadCurve(reader)]: [None] is the [null] of an absent curve. *)
Definition ReadCurve : M Tw2BinaryReader.t (option Tw2GeometryCurve.t) :=
  let* type := read Tw2BinaryReader.ReadUInt8 in
  if type =? 0 then ret None
  else
    let* dimension := read Tw2BinaryReader.ReadUInt8 in
    let* degree := read Tw2BinaryReader.ReadUInt8 in
    let* knotCount := read Tw2BinaryReader.ReadUInt32 in
    let* knots := read_array (Num 0) knotCount Tw2BinaryReader.ReadFloat32 Single in
    let* controlCount := read Tw2BinaryReader.ReadUInt32 in
    let* controls := read_array (Num 0) controlCount Tw2BinaryReader.ReadFloat32 Single in
    ret (Some (Tw2GeometryCurve.mk dimension degree knots controls)).

End Tw2GeometryRes.

(** ** Instances for the examples

    Small collaborators against which the statements below are evaluated on
    concrete inputs. *)

Module Examples.

Definition number_min (a b : number) : number :=
  match a, b with
  | Num x, Num y => if Qle_bool x y then a else b
  | Infinity true, _ | _, Infinity true => Infinity true
  | Infinity false, c | c, Infinity false => c
  | _, _ => NaN
  end.

Definition number_max (a b : number) : number :=
  match a, b with
  | Num x, Num y => if Qle_bool x y then b else a
  | Infinity false, _ | _, Infinity false => Infinity false
  | Infinity true, c | c, Infinity true => c
  | _, _ => NaN
  end.

Definition vec3_map2 (f : number -> number -> number) (a b : vec3) : vec3 :=
  (f a.1.1 b.1.1, f a.1.2 b.1.2, f a.2 b.2).

Definition middle (a b : number) : number :=
  match a, b with
  | Num x, Num y => Num ((x + y) / 2)
  | _, _ => Num 0
  end.

Definition half_extent (a b : number) : number :=
  match a, b with
  | Num x, Num y => Num ((y - x) / 2)
  | _, _ => Num 0
  end.

(** Boxes united componentwise, from an empty box of infinities; the sphere
    is centred in the middle of the box, with the largest half extent for a
    radius. *)
#[global] Instance box3 : Box3 := {|
  bounds_empty :=
    ((Infinity false, Infinity false, Infinity false),
     (Infinity true, Infinity true, Infinity true));
  bounds_union a b := (vec3_map2 number_min a.1 b.1, vec3_map2 number_max a.2 b.2);
  bounds_toPositionRadius b :=
    let e := vec3_map2 half_extent b.1 b.2 in
    (vec3_map2 middle b.1 b.2, number_max e.1.1 (number_max e.1.2 e.2))
|}.

Definition with_dirty (d : bool) (m : Tw2GeometryMesh.t) : Tw2GeometryMesh.t :=
  Tw2GeometryMesh.mk (Tw2GeometryMesh.name m) (Tw2GeometryMesh.declaration m)
    (Tw2GeometryMesh.areas m) (Tw2GeometryMesh.buffer m)
    (Tw2GeometryMesh.bufferLength m) (Tw2GeometryMesh.indexes m)
    (Tw2GeometryMesh.indexType m) (Tw2GeometryMesh.boneBindings m)
    (Tw2GeometryMesh.minBounds m) (Tw2GeometryMesh.maxBounds m) d
    (Tw2GeometryMesh.bufferData m) (Tw2GeometryMesh.indexData m).

Definition empty_mesh : Tw2GeometryMesh.t :=
  Tw2GeometryMesh.mk "" (Tw2VertexDeclaration.mk [] 0) [] None 0 None 0 []
    vec3_zero vec3_zero true [] [].

(** Meshes that keep their bounds as given and only track the dirty flag;
    rays, transforms and caches carry nothing. *)
#[global] Instance meshes : MeshMethods unit unit unit := {|
  mesh_new := empty_mesh;
  mesh_Clear m := empty_mesh;
  mesh_RebuildBounds force m := with_dirty false m;
  mesh_Intersect ray intersects worldTransform cache m := (intersects, cache, []);
  mesh_RecalculateAreaBounds bufferData indexData m := m;
  mesh_ClearSystemMirrorIfNotRequired m := m;
  mesh_FindBoneBoundsByName name m := None
|}.

(** A ray that meets every box and orders hits by distance. *)
#[global] Instance rays : Tw2GeometryRes.RayMethods unit unit := {|
  Tw2GeometryRes.ray_IntersectBounds ray min max worldTransform := true;
  Tw2GeometryRes.ray_sortFunction ray a b :=
    match (Intersection.distance a ?= Intersection.distance b)%Q with
    | Lt => -1
    | Eq => 0
    | Gt => 1
    end
|}.

(** Declarations that bind to every pass. *)
#[global] Instance declarations : Tw2GeometryRes.DeclarationMethods := {|
  Tw2GeometryRes.decl_SetDeclaration d passInput stride := true;
  Tw2GeometryRes.decl_SetPartialDeclaration d passInput stride := 0%nat
|}.

(** An effect with [passes] passes, each with one input element. *)
Definition effect (passes : nat) : Tw2GeometryRes.Tw2Effect := {|
  Tw2GeometryRes.defaultTechnique := "Main";
  Tw2GeometryRes.GetPassCount technique := passes;
  Tw2GeometryRes.GetPassInput technique pass := {| pi_elements := 1; pi_id := pass |}
|}.

(** An effect with one pass that takes no input element. *)
Definition effect_without_input : Tw2GeometryRes.Tw2Effect := {|
  Tw2GeometryRes.defaultTechnique := "Main";
  Tw2GeometryRes.GetPassCount technique := 1%nat;
  Tw2GeometryRes.GetPassInput technique pass := {| pi_elements := 0; pi_id := pass |}
|}.

(** Declarations that bind to no pass. *)
Definition unbound : Tw2GeometryRes.DeclarationMethods := {|
  Tw2GeometryRes.decl_SetDeclaration d passInput stride := false;
  Tw2GeometryRes.decl_SetPartialDeclaration d passInput stride := 0%nat
|}.

Definition area (start count : Z) : Tw2GeometryMeshArea.t :=
  Tw2GeometryMeshArea.mk "" start count.

(** The mesh of the area-merge example, with index type [ty]. *)
Definition mesh4 (ty : Z) : Tw2GeometryMesh.t :=
  Tw2GeometryMesh.mk "hull" (Tw2VertexDeclaration.mk [] 32)
    [area 0 10; area 20 5; area 30 8; area 100 4]
    (Some 0%nat) 0 (Some 1%nat) ty [] vec3_zero vec3_zero false [] [].

(** A ready resource holding the meshes [ms]. *)
Definition ready (ms : list Tw2GeometryMesh.t) : Tw2GeometryRes.t :=
  Tw2GeometryRes.with_state Ready
    (Tw2GeometryRes.with_meshes ms (Tw2GeometryRes.new "res:/model.gr2")).

Definition device0 : Tw2GeometryRes.Device := Tw2GeometryRes.mkDevice [] 0.

(** A mesh bound to the bones [names], and a model with two bones. *)
Definition skinned (names : list string) : Tw2GeometryMesh.t :=
  Tw2GeometryMesh.mk "body" (Tw2VertexDeclaration.mk [] 32) []
    (Some 0%nat) 0 (Some 1%nat) Tw2GeometryRes.gl_UNSIGNED_SHORT names vec3_zero vec3_zero false [] [].

Definition biped : Tw2GeometryModel.t :=
  Tw2GeometryModel.mk "biped"
    (Some [Tw2GeometryBone.mk "root" None; Tw2GeometryBone.mk "arm" None]) [].

End Examples.

(** ** What the bounds of a resource should be *)

Section Reflect.
Context `{Box3}.

Definition box_of (m : Tw2GeometryMesh.t) : bounds :=
  (Tw2GeometryMesh.minBounds m, Tw2GeometryMesh.maxBounds m).

(** The boxes of the meshes united into the empty box, first mesh first. *)
Definition union_all (ms : list Tw2GeometryMesh.t) : bounds :=
  fold_left (fun box m => bounds_union box (box_of m)) ms bounds_empty.

(** The four bounds fields are those of the meshes the resource holds. *)
Definition reflects_meshes (r : Tw2GeometryRes.t) : Prop :=
  (Tw2GeometryRes.minBounds r, Tw2GeometryRes.maxBounds r)
    = union_all (Tw2GeometryRes.meshes r)
  ∧ (Tw2GeometryRes.boundsSpherePosition r, Tw2GeometryRes.boundsSphereRadius r)
    = bounds_toPositionRadius (union_all (Tw2GeometryRes.meshes r)).

End Reflect.

(** ** What a vertex block is and what its decoding should give *)

Module Layout.

(** The bytes not yet read. *)
Definition remaining (r : Tw2BinaryReader.t) : list byte :=
  drop (Tw2BinaryReader.cursor r) (Tw2BinaryReader.data r).

(** The state of the decoder [k] bytes further on. *)
Definition advance (k : nat) (st : VertexBuffer.state) : VertexBuffer.state :=
  VertexBuffer.mk
    (Tw2BinaryReader.mk (Tw2BinaryReader.data (VertexBuffer.reader st))
       (Tw2BinaryReader.cursor (VertexBuffer.reader st) + k))
    (VertexBuffer.declaration st).

(** The part of [ReadVertexBuffer] after the vertex count has been read. *)
Definition vertices (path : string) (declCount vertexSize vertexCount : Z)
  : M VertexBuffer.state (option (list number)) :=
  if vertexCount =? 0 then ret None
  else
    let buffer := replicate (Z.to_nat (vertexSize * vertexCount)) (Num 0) in
    let* filled := for_upto (Z.to_nat vertexCount)
      (fun _ c => VertexBuffer.decode_vertex path (Z.to_nat declCount) c)
      (buffer, 0%nat) in
    ret (Some filled.1).

(** The value of a little-endian byte string. *)
Fixpoint le (bs : list byte) : Z :=
  match bs with
  | [] => 0
  | b :: rest => Tw2BinaryReader.u8 b + 256 * le rest
  end.

(** An entry of the declaration as stored: usage, usage index, encoding. *)
Definition entry : Type := byte * byte * byte.

Definition encoding (e : entry) : Z := Tw2BinaryReader.u8 e.2.

Definition header (entries : list entry) : list byte :=
  entries ≫= (fun e => [e.1.1; e.1.2; e.2]).

Definition kind (fileType : Z) : Z := Z.land fileType 0xf.
Definition flagged (fileType : Z) : bool := negb (Z.land fileType 0x10 =? 0).

(** The encodings with a case in the [switch]. *)
Definition supported (fileType : Z) : Prop :=
  kind fileType ∈ [0; 1; 2; 3; 4; 8; 9; 10].

(** [(fileType >> 5) + 1] scalars per element. *)
Definition components (fileType : Z) : nat := Z.to_nat (Z.shiftr fileType 5 + 1).

(** The bytes one scalar of an element takes in the stream. *)
Definition width (fileType : Z) : nat :=
  match kind fileType with
  | 0 | 8 => 1
  | 1 | 9 => if flagged fileType then 1 else 2
  | 3 => 2
  | 2 | 4 | 10 => 4
  | _ => 0
  end.

(** An element as the first loop builds it. *)
Definition built (el : Tw2VertexElement.t) : Prop :=
  Tw2VertexElement.elements el
  = Z.of_nat (components (Tw2VertexElement.fileType el)).

Definition row_size (fileTypes : list Z) : nat :=
  sum_list (components <$> fileTypes).
Definition row_bytes (fileTypes : list Z) : nat :=
  sum_list ((fun ft => components ft * width ft)%nat <$> fileTypes).

(** The elements that the first loop builds from the entries, the first at
    offset [4 * vertexSize]. *)
Fixpoint parsed (vertexSize : Z) (entries : list entry) : list Tw2VertexElement.t :=
  match entries with
  | [] => []
  | e :: rest =>
      let n := Z.shiftr (encoding e) 5 + 1 in
      Tw2VertexElement.mk (Tw2BinaryReader.u8 e.1.1) (Tw2BinaryReader.u8 e.1.2)
        (encoding e) gl_FLOAT n (vertexSize * 4)
      :: parsed (vertexSize + n) rest
  end.

Definition between (lo hi : Q) (v : number) : Prop :=
  match v with
  | Num q => (lo <= q)%Q ∧ (q <= hi)%Q
  | _ => False
  end.

(** The interval the spec gives to a normalized scalar: [-1, 1] for the
    signed kinds 0 and 1, [0, 1] for the unsigned kinds 8 and 9. *)
Definition stated_range (fileType : Z) (v : number) : Prop :=
  if flagged fileType then
    match kind fileType with
    | 0 | 1 => between (-1) 1 v
    | 8 | 9 => between 0 1 v
    | _ => True
    end
  else True.

(** The interval it does lie in: kind 0 reaches down to -128/127. *)
Definition range (fileType : Z) (v : number) : Prop :=
  if flagged fileType then
    match kind fileType with
    | 0 => between (-128 # 127) 1 v
    | 1 => between (-1) 1 v
    | 8 | 9 => between 0 1 v
    | _ => True
    end
  else True.

(** A vertex is, element after element, [components] scalars each of which
    satisfies [ok] for the encoding of its element; a buffer is [n] vertices
    one after the other. *)
Definition vertex_of (ok : Z -> number -> Prop) (fileTypes : list Z)
    (cells : list number) : Prop :=
  ∃ chunks, cells = concat chunks
    ∧ Forall2 (fun ft chunk => length chunk = components ft ∧ Forall (ok ft) chunk)
        fileTypes chunks.

Definition buffer_of (ok : Z -> number -> Prop) (fileTypes : list Z) (n : nat)
    (buffer : list number) : Prop :=
  ∃ rows, buffer = concat rows ∧ length rows = n
    ∧ Forall (vertex_of ok fileTypes) rows.

(** A read of [w] bytes that returns the value [val] of them. *)
Definition reads_as (w : nat) (f : Tw2BinaryReader.t -> option (Z * Tw2BinaryReader.t))
    (val : list byte -> Z) : Prop :=
  ∀ r bs rest, length bs = w -> remaining r = bs ++ rest ->
    f r = Some (val bs, Tw2BinaryReader.mk (Tw2BinaryReader.data r)
                          (Tw2BinaryReader.cursor r + w)).

(** The value of a little-endian byte string in two's complement. *)
Definition sle (bs : list byte) : Z :=
  let half := 2 ^ (8 * Z.of_nat (length bs) - 1) in
  if half <=? le bs then le bs - 2 * half else le bs.

(** What a cell should hold for the bytes [bs] of one scalar of an element
    with the encoding [fileType]: the integer or float they encode; for a
    normalized element the integer over 127 (kind 0), 255 (kind 8), 32767
    (kind 1) or 65535 (kind 9), the last two on one byte; each rounded to
    binary32, the quotients after their rounding to binary64. *)
Definition scalar (fileType : Z) (bs : list byte) : number :=
  let stored v := Float.fround (Num (inject_Z v)) in
  let normalized d v := Float.fround (Float.divide v d) in
  match kind fileType with
  | 0 => if flagged fileType then normalized 127 (sle bs) else stored (sle bs)
  | 1 => if flagged fileType then normalized 32767 (sle bs) else stored (sle bs)
  | 2 => stored (sle bs)
  | 3 => Half (le bs)
  | 4 => Single (le bs)
  | 8 => if flagged fileType then normalized 255 (le bs) else stored (le bs)
  | 9 => if flagged fileType then normalized 65535 (le bs) else stored (le bs)
  | 10 => stored (le bs)
  | _ => NaN
  end.

(** The first [n] pieces of [w] bytes of [bs]. *)
Fixpoint pieces (w n : nat) (bs : list byte) : list (list byte) :=
  match n with
  | O => []
  | S n' => take w bs :: pieces w n' (drop w bs)
  end.

(** The cells of one element, of one vertex and of [n] vertices, from the
    bytes that encode them. *)
Definition element_of (fileType : Z) (bs : list byte) : list number :=
  scalar fileType <$> pieces (width fileType) (components fileType) bs.

Fixpoint row_of (fileTypes : list Z) (bs : list byte) : list number :=
  match fileTypes with
  | [] => []
  | ft :: rest =>
      let size := (components ft * width ft)%nat in
      element_of ft (take size bs) ++ row_of rest (drop size bs)
  end.

Fixpoint rows_of (fileTypes : list Z) (n : nat) (bs : list byte) : list number :=
  match n with
  | O => []
  | S n' =>
      row_of fileTypes (take (row_bytes fileTypes) bs)
      ++ rows_of fileTypes n' (drop (row_bytes fileTypes) bs)
  end.

End Layout.

(** ** What a render request should draw *)

Module Expected.

(** The runs of a list of areas: an area that starts where the run would go
    on, two bytes an index, joins the run that goes before; [(count, start)]
    of each run. *)
Fixpoint runs_from (areaStart areaCount : Z) (l : list Tw2GeometryMeshArea.t)
  : list (Z * Z) :=
  match l with
  | [] => [(areaCount, areaStart)]
  | area :: rest =>
      if Tw2GeometryMeshArea.start area =? areaStart + areaCount * 2
      then runs_from areaStart (areaCount + Tw2GeometryMeshArea.count area) rest
      else (areaCount, areaStart)
           :: runs_from (Tw2GeometryMeshArea.start area)
                (Tw2GeometryMeshArea.count area) rest
  end.

Definition runs (l : list Tw2GeometryMeshArea.t) : list (Z * Z) :=
  match l with
  | [] => []
  | area :: rest =>
      runs_from (Tw2GeometryMeshArea.start area) (Tw2GeometryMeshArea.count area) rest
  end.

(** The areas [start], ..., [start + count - 1] of a mesh, as far as they
    exist. *)
Definition requested (areas : list Tw2GeometryMeshArea.t) (start count : Z)
  : list Tw2GeometryMeshArea.t :=
  take (Z.to_nat count) (drop (Z.to_nat start) areas).

(** A request is fit when it asks for areas that all exist or for none. *)
Definition fit (areas : list Tw2GeometryMeshArea.t) (start count : Z) : Prop :=
  0 <= start
  ∧ (0 <= count ∧ start + count <= Z.of_nat (length areas)
     ∨ Z.of_nat (length areas) <= start ∨ count <= 0).

(** What one pass of [RenderAreas] or [RenderLines] asks of the device when
    the declaration binds and the areas [l] are drawn. *)
Definition direct_pass (mode : Z) (mesh : Tw2GeometryMesh.t)
    (effect : Tw2GeometryRes.Tw2Effect) (technique : string)
    (l : list Tw2GeometryMeshArea.t) (pass : nat) : list Tw2GeometryRes.event :=
  [Tw2GeometryRes.ApplyPass technique pass;
   Tw2GeometryRes.SetDeclaration (Tw2GeometryRes.GetPassInput effect technique pass)
     (Tw2VertexDeclaration.stride (Tw2GeometryMesh.declaration mesh));
   Tw2GeometryRes.ApplyShadowState]
  ++ ((fun run => Tw2GeometryRes.gl_drawElements mode run.1
                    (Tw2GeometryMesh.indexType mesh) run.2) <$> runs l).

(** The same for a pass whose declaration does not bind. *)
Definition unbound_pass (res_path : string) (mesh : Tw2GeometryMesh.t)
    (effect : Tw2GeometryRes.Tw2Effect) (technique : string) (pass : nat)
  : list Tw2GeometryRes.event :=
  let passInput := Tw2GeometryRes.GetPassInput effect technique pass in
  let stride := Tw2VertexDeclaration.stride (Tw2GeometryMesh.declaration mesh) in
  [Tw2GeometryRes.ApplyPass technique pass;
   Tw2GeometryRes.SetDeclaration passInput stride;
   Tw2GeometryRes.OnError (ErrGeometryMeshEffectBinding res_path pass passInput stride)].


(** Whether the declaration of the mesh binds to the inputs of a pass. *)
Definition binds `{Tw2GeometryRes.DeclarationMethods} (mesh : Tw2GeometryMesh.t)
    (effect : Tw2GeometryRes.Tw2Effect) (technique : string) (pass : nat) : Prop :=
  Tw2GeometryRes.decl_SetDeclaration (Tw2GeometryMesh.declaration mesh)
    (Tw2GeometryRes.GetPassInput effect technique pass)
    (Tw2VertexDeclaration.stride (Tw2GeometryMesh.declaration mesh)) = true.

(** The names of [names] up to the first that the model has no bone for. *)
Fixpoint resolved_prefix (model : Tw2GeometryModel.t) (names : list string)
  : list string :=
  match names with
  | [] => []
  | name :: rest =>
      match Tw2GeometryModel.FindBoneByName name model with
      | Some _ => name :: resolved_prefix model rest
      | None => []
      end
  end.

(** Bone [i] of a skeleton after the bones of the names [bound] were given
    the boxes that the mesh holds for them: the first bone of each such name
    has the box of its name, the others are as they were. *)
Definition bound_bone `{MeshMethods Ray Mat4 Cache} (mesh : Tw2GeometryMesh.t)
    (bound : list string) (bones : list Tw2GeometryBone.t)
    (i : nat) (bone : Tw2GeometryBone.t) : Tw2GeometryBone.t :=
  if bool_decide (Tw2GeometryBone.name bone ∈ bound
                  ∧ Tw2GeometryModel.find_from 0 bones (Tw2GeometryBone.name bone)
                    = Some i)
  then Tw2GeometryBone.mk (Tw2GeometryBone.name bone)
         (mesh_FindBoneBoundsByName (Tw2GeometryBone.name bone) mesh)
  else bone.


(** The device after the events [evs]. *)
Definition after (d : Tw2GeometryRes.Device) (evs : list Tw2GeometryRes.event)
  : Tw2GeometryRes.Device :=
  Tw2GeometryRes.mkDevice (Tw2GeometryRes.log d ++ evs) (Tw2GeometryRes.created d).

End Expected.

(** ** More instances for the examples *)

Module MoreExamples.

(** Declarations that bind to the first pass alone. *)
Definition first_pass_only : Tw2GeometryRes.DeclarationMethods := {|
  Tw2GeometryRes.decl_SetDeclaration d passInput stride :=
    bool_decide (pi_id passInput = 0%nat);
  Tw2GeometryRes.decl_SetPartialDeclaration d passInput stride := 0%nat
|}.


(** A mesh that is hit twice by every ray. *)
Definition hit_twice : MeshMethods unit unit unit := {|
  mesh_new := Examples.empty_mesh;
  mesh_Clear m := Examples.empty_mesh;
  mesh_RebuildBounds force m := Examples.with_dirty false m;
  mesh_Intersect ray intersects worldTransform cache m :=
    (intersects, cache,
     [Intersection.mk 5 None None None; Intersection.mk 2 None None None]);
  mesh_RecalculateAreaBounds bufferData indexData m := m;
  mesh_ClearSystemMirrorIfNotRequired m := m;
  mesh_FindBoneBoundsByName name m := None
|}.

End MoreExamples.

(** ** What unloading should release *)

(** The buffers a mesh holds, in the order [Unload] looks at them. *)
Definition handles (mesh : Tw2GeometryMesh.t) : list nat :=
  match Tw2GeometryMesh.buffer mesh with Some h => [h] | None => [] end
  ++ match Tw2GeometryMesh.indexes mesh with Some h => [h] | None => [] end.

(** ** What loading should ask of the device *)

Module Uploads.




End Uploads.

(** ** Readers for the examples *)

Module Readers.

Definition lower_ascii (c : Ascii.ascii) : Ascii.ascii :=
  let n := Ascii.nat_of_ascii c in
  if Nat.leb 65 n && Nat.leb n 90 then Ascii.ascii_of_nat (n + 32) else c.

Fixpoint lower (s : string) : string :=
  match s with
  | EmptyString => EmptyString
  | String c rest => String (lower_ascii c) (lower rest)
  end.

Definition triangle : Tw2GeometryRes.MeshDescriptor.t :=
  Tw2GeometryRes.MeshDescriptor.mk
    [Num 0; Num 0; Num 0; Num 1; Num 0; Num 0; Num 0; Num 1; Num 0] [0; 1; 2] 2
    (Tw2VertexDeclaration.mk [] 12) [Tw2GeometryMeshArea.mk "all" 0 3] None.

(** A by-mesh reader that builds two triangles from any data. *)
Definition obj_reader : Tw2GeometryRes.Reader unit unit := {|
  Tw2GeometryRes.byMesh := true;
  Tw2GeometryRes.construct data := [triangle; triangle];
  Tw2GeometryRes.reader_Prepare data options := ret tt
|}.

(** A table with the one key [obj]; no system mirror. *)
#[global] Instance environment : Tw2GeometryRes.Environment unit unit := {|
  Tw2GeometryRes.readers extension :=
    if String.eqb extension "obj" then Some obj_reader else None;
  Tw2GeometryRes.IsSystemMirrorEnabled := false
|}.

#[global] Instance language : Tw2GeometryRes.Language unit := {|
  Tw2GeometryRes.toLowerCase := lower;
  Tw2GeometryRes.json_factory data := false
|}.

End Readers.

(** ** What an index block and a curve block are *)

Module Blocks.

(** The bytes of a block of [w]-byte words, one word after the other. *)
Definition words (w : nat) (chunks : list (list byte)) : Prop :=
  Forall (fun chunk => length chunk = w) chunks.

(** A count of four bytes that announces [n] words. *)
Definition announces (count : list byte) (n : nat) : Prop :=
  length count = 4%nat ∧ Layout.le count = Z.of_nat n.

(** The reader [k] bytes further on. *)
Definition skip (k : nat) (r : Tw2BinaryReader.t) : Tw2BinaryReader.t :=
  Tw2BinaryReader.mk (Tw2BinaryReader.data r) (Tw2BinaryReader.cursor r + k).

(** An index block, and one for the examples: two 16-bit indexes. *)
Definition index_block (ibType : byte) (count : list byte) (chunks : list (list byte))
  : list byte :=
  ibType :: count ++ concat chunks.

Definition two_indexes : Tw2BinaryReader.t :=
  Tw2BinaryReader.mk
    (index_block x00 [x02; x00; x00; x00] [[x01; x00]; [x00; x01]] ++ [xff]) 0.

(** A curve block after its type byte, and one for the examples. *)
Definition curve_block (dimension degree : byte) (knotCount : list byte)
    (knots : list (list byte)) (controlCount : list byte) (controls : list (list byte))
  : list byte :=
  dimension :: degree :: knotCount ++ concat knots ++ controlCount ++ concat controls.

Definition one_knot : Tw2BinaryReader.t :=
  Tw2BinaryReader.mk
    (x07 :: curve_block x03 x02 [x01; x00; x00; x00] [[x00; x00; x80; x3f]]
              [x00; x00; x00; x00] []) 0.

End Blocks.

(** * Properties *)

Import Tw2GeometryRes.

Lemma bind_Returned {S A B} (m : M S A) (k : A -> M S B) s a s' :
  m s = Returned a s' -> bind m k s = k a s'.
Proof. unfold bind. by intros ->. Qed.

Lemma bind_Thrown {S A B} (m : M S A) (k : A -> M S B) s e s' :
  m s = Thrown e s' -> bind m k s = Thrown e s'.
Proof. unfold bind. by intros ->. Qed.

(** ** Bounds and the dirty flag *)

Section BoundsFacts.
Context `{Box3} {Ray Mat4 Cache : Type} `{!MeshMethods Ray Mat4 Cache}.

Lemma rebuild_meshes_fst force ms box :
  (rebuild_meshes force ms box).1 = mesh_RebuildBounds force <$> ms.
Proof.
  revert box. induction ms as [|m ms IH]; intros box; simpl; [done|].
  specialize (IH (bounds_union box
    (Tw2GeometryMesh.minBounds (mesh_RebuildBounds force m),
     Tw2GeometryMesh.maxBounds (mesh_RebuildBounds force m)))).
  destruct (rebuild_meshes force ms _) as [rest out]. simpl in *. by rewrite IH.
Qed.

Lemma recompute_meshes force r :
  meshes (recompute force r) = mesh_RebuildBounds force <$> meshes r.
Proof.
  unfold recompute. pose proof (rebuild_meshes_fst force (meshes r) bounds_empty) as E.
  destruct (rebuild_meshes force (meshes r) bounds_empty) as [ms box].
  destruct (bounds_toPositionRadius box) as [position radius]. done.
Qed.

Lemma RebuildBounds_cases force r :
  RebuildBounds force r = r ∨
  RebuildBounds force r = recompute force r ∨
  RebuildBounds force r = recompute force (with_boundsDirty true r).
Proof.
  unfold RebuildBounds.
  destruct (_boundsDirty r) eqn:D, force; simpl; rewrite ?D; simpl; auto.
  destruct (any_dirty (meshes r)); simpl; rewrite ?D; auto.
Qed.

Lemma RebuildBounds_meshes_length force r :
  length (meshes (RebuildBounds force r)) = length (meshes r).
Proof.
  destruct (RebuildBounds_cases force r) as [-> | [-> | ->]]; [done| |];
    by rewrite recompute_meshes, length_fmap.
Qed.

Lemma rebuild_meshes_snd force ms box :
  (rebuild_meshes force ms box).2
  = fold_left (fun box m => bounds_union box (box_of m))
      (mesh_RebuildBounds force <$> ms) box.
Proof.
  revert box. induction ms as [|m ms IH]; intros box; simpl; [done|].
  specialize (IH (bounds_union box
    (Tw2GeometryMesh.minBounds (mesh_RebuildBounds force m),
     Tw2GeometryMesh.maxBounds (mesh_RebuildBounds force m)))).
  destruct (rebuild_meshes force ms _) as [rest out]. simpl in *. by rewrite IH.
Qed.

Lemma recompute_eq force r :
  let ms := mesh_RebuildBounds force <$> meshes r in
  let box := union_all ms in
  recompute force r
  = with_boundsDirty false
      (with_bounds box (bounds_toPositionRadius box).1 (bounds_toPositionRadius box).2
         (with_meshes ms r)).
Proof.
  intros ms box. unfold recompute.
  pose proof (rebuild_meshes_fst force (meshes r) bounds_empty) as E1.
  pose proof (rebuild_meshes_snd force (meshes r) bounds_empty) as E2.
  destruct (rebuild_meshes force (meshes r) bounds_empty) as [ms' box'].
  simpl in E1, E2. subst ms' box' box ms. unfold union_all.
  by destruct (bounds_toPositionRadius _).
Qed.

Lemma recompute_reflects force r : reflects_meshes (recompute force r).
Proof.
  rewrite recompute_eq. unfold reflects_meshes. simpl.
  split; [by destruct (union_all _) | by destruct (bounds_toPositionRadius _)].
Qed.

Lemma recompute_clean force r : _boundsDirty (recompute force r) = false.
Proof. by rewrite recompute_eq. Qed.

Lemma recompute_with_boundsDirty force d r :
  recompute force (with_boundsDirty d r) = recompute force r.
Proof. by rewrite !recompute_eq. Qed.

(** [RebuildBounds] in one test. *)
Lemma RebuildBounds_unfold force r :
  RebuildBounds force r
  = if force || _boundsDirty r || any_dirty (meshes r) then recompute force r else r.
Proof.
  unfold RebuildBounds.
  destruct force, (_boundsDirty r) eqn:D; simpl; rewrite ?D; simpl; try done.
  destruct (any_dirty (meshes r)); simpl; rewrite ?D; simpl; [|done].
  apply recompute_with_boundsDirty.
Qed.

Lemma any_dirty_elem ms :
  any_dirty ms = true ↔ ∃ m, m ∈ ms ∧ Tw2GeometryMesh._boundsDirty m = true.
Proof.
  induction ms as [|m ms IH]; simpl.
  - split; [done|]. intros (m & Hm & _). by apply elem_of_nil in Hm.
  - destruct (Tw2GeometryMesh._boundsDirty m) eqn:D.
    + split; [|done]. intros _. exists m. split; [left|done].
    + rewrite IH. split.
      * intros (m' & Hm & Hd). exists m'. split; [by right|done].
      * intros (m' & Hm & Hd). apply elem_of_cons in Hm as [->|Hm]; [congruence|].
        by exists m'.
Qed.

Lemma union_all_boxes ms ms' :
  box_of <$> ms = box_of <$> ms' → union_all ms = union_all ms'.
Proof.
  unfold union_all. generalize bounds_empty.
  revert ms'. induction ms as [|m ms IH]; intros [|m' ms'] box E; simpl in *;
    try done.
  apply (f_equal head) in E as E1. apply (f_equal tail) in E as E2.
  simpl in E1, E2. assert (Hb : box_of m = box_of m') by congruence.
  rewrite Hb. by apply IH.
Qed.

End BoundsFacts.

(** C6.  [RebuildBounds] is idempotent: after a first call, a second call
    with nothing changed in between leaves [minBounds], [maxBounds],
    [boundsSpherePosition] and [boundsSphereRadius] as they are, and the
    resource's flag is false after each of the two calls.  The mesh's own
    [RebuildBounds] is a parameter, taken to give the same mesh bounds when
    repeated. *)
Theorem RebuildBounds_idempotent
    `{Box3} {Ray Mat4 Cache : Type} `{!MeshMethods Ray Mat4 Cache}
    (force : bool) (r : t) :
  (∀ f m, box_of (mesh_RebuildBounds f (mesh_RebuildBounds f m))
          = box_of (mesh_RebuildBounds f m)) ->
  let r1 := RebuildBounds force r in
  let r2 := RebuildBounds force r1 in
  minBounds r2 = minBounds r1 ∧ maxBounds r2 = maxBounds r1
  ∧ boundsSpherePosition r2 = boundsSpherePosition r1
  ∧ boundsSphereRadius r2 = boundsSphereRadius r1
  ∧ _boundsDirty r1 = false ∧ _boundsDirty r2 = false.
Proof.
  intros Hstable r1 r2.
  assert (C1 : _boundsDirty r1 = false).
  { subst r1. rewrite RebuildBounds_unfold.
    destruct force, (_boundsDirty r) eqn:D; simpl; rewrite ?recompute_clean; try done.
    destruct (any_dirty (meshes r)); [apply recompute_clean | done]. }
  assert (E : r2 = r1 ∨ (r2 = recompute force r1 ∧ r1 = recompute force r)).
  { subst r2. rewrite (RebuildBounds_unfold force r1), C1.
    destruct (force || false || any_dirty (meshes r1)) eqn:T; [|by left].
    right. split; [done|]. subst r1. rewrite RebuildBounds_unfold in T |- *.
    destruct (force || _boundsDirty r || any_dirty (meshes r)) eqn:T'; [done|].
    apply orb_false_elim in T' as [T' A].
    apply orb_false_elim in T' as [-> _]. by rewrite A in T. }
  destruct E as [-> | [E2 E1]]; [done|].
  pose proof (recompute_reflects force r1) as [B2 S2].
  pose proof (recompute_reflects force r) as [B1 S1].
  rewrite <- E2 in B2, S2. rewrite <- E1 in B1, S1.
  assert (U : union_all (meshes r2) = union_all (meshes r1)).
  { apply union_all_boxes. rewrite E2, recompute_meshes, E1, recompute_meshes.
    rewrite <- !list_fmap_compose. apply list_fmap_ext. intros _ m _. apply Hstable. }
  rewrite U in B2, S2. rewrite <- B1 in B2. rewrite <- S1 in S2.
  injection B2 as -> ->. injection S2 as -> ->.
  rewrite E2 at 1. by rewrite recompute_clean.
Qed.

Lemma RebuildBounds_idempotent_witness :
  let r1 := RebuildBounds true (Examples.ready [Examples.mesh4 gl_UNSIGNED_SHORT]) in
  let r2 := RebuildBounds true r1 in
  minBounds r2 = minBounds r1 ∧ maxBounds r2 = maxBounds r1
  ∧ boundsSpherePosition r2 = boundsSpherePosition r1
  ∧ boundsSphereRadius r2 = boundsSphereRadius r1
  ∧ _boundsDirty r1 = false ∧ _boundsDirty r2 = false.
Proof.
  apply (RebuildBounds_idempotent true
           (Examples.ready [Examples.mesh4 gl_UNSIGNED_SHORT])).
  intros f m. reflexivity.
Defined.

(** ** Ray intersection *)

Lemma get_ge {A} (l : list A) (i : Z) : Z.of_nat (length l) <= i -> get l i = None.
Proof.
  intros Hi. unfold get. destruct (Z.ltb_spec i 0); [done|].
  apply lookup_ge_None_2. lia.
Qed.

(** C9.  When [meshIndex] is at least the number of meshes, [Intersect]
    returns the empty array (and raises nothing: the embedding of [Intersect]
    is a total function with no error case), whether or not the ray meets the
    bounding box of the resource. *)
Theorem Intersect_meshIndex_out_of_range
    `{Box3} {Ray Mat4 Cache : Type} `{!MeshMethods Ray Mat4 Cache}
    `{!RayMethods Ray Mat4}
    (ray : Ray) (intersects : list Intersection.t) (worldTransform : Mat4)
    (cache : Cache) (meshIndex : Z) (r : t) :
  Z.of_nat (length (meshes r)) <= meshIndex ->
  (Intersect ray intersects worldTransform cache (Some meshIndex) r).2 = [].
Proof.
  intros Hix. unfold Intersect. simpl.
  destruct (negb _); [done|].
  rewrite get_ge; [done|]. by rewrite RebuildBounds_meshes_length.
Qed.

Lemma Intersect_meshIndex_out_of_range_witness :
  Z.of_nat (length (meshes (Examples.ready [Examples.mesh4 gl_UNSIGNED_SHORT]))) <= 1
  ∧ (let r := RebuildBounds false (Examples.ready [Examples.mesh4 gl_UNSIGNED_SHORT]) in
     ray_IntersectBounds tt (minBounds r) (maxBounds r) tt = true)
  ∧ (Intersect tt [] tt tt (Some 1)
       (Examples.ready [Examples.mesh4 gl_UNSIGNED_SHORT])).2 = [].
Proof.
  split; [simpl; lia|]. split; [reflexivity|].
  apply Intersect_meshIndex_out_of_range. simpl; lia.
Defined.

(** C3, as stated, fails on [Clear]: a resource whose flag is false holds a
    mesh; [Clear] empties the mesh list and the flag is still false. *)
Lemma Clear_does_not_set_dirty :
  let r := RebuildBounds false (Examples.ready [Examples.mesh4 gl_UNSIGNED_SHORT]) in
  _boundsDirty r = false ∧ meshes r ≠ [] ∧ meshes (Clear r).1 = []
  ∧ _boundsDirty (Clear r).1 ≠ true.
Proof. vm_compute. repeat split; discriminate. Qed.

(** C3, amended.  A [RebuildBounds] that recomputes (forced, or the
    resource's flag set, or the flag of some owned mesh set) leaves the flag
    false and the four bounds fields equal to the union of the boxes of the
    rebuilt meshes and its sphere; [Clear] leaves the resource's flag as it
    was; and when the resource's flag is false and the flag of any one owned
    mesh is set, the next [RebuildBounds] recomputes. *)
Theorem dirty_flag_pulled_up
    `{Box3} {Ray Mat4 Cache : Type} `{!MeshMethods Ray Mat4 Cache}
    (force : bool) (r : t) :
  (force = true ∨ _boundsDirty r = true
   ∨ (∃ m, m ∈ meshes r ∧ Tw2GeometryMesh._boundsDirty m = true) ->
   let r' := RebuildBounds force r in
   _boundsDirty r' = false ∧ reflects_meshes r'
   ∧ meshes r' = mesh_RebuildBounds force <$> meshes r)
  ∧ _boundsDirty (Clear r).1 = _boundsDirty r
  ∧ (_boundsDirty r = false ->
     (∃ m, m ∈ meshes r ∧ Tw2GeometryMesh._boundsDirty m = true) ->
     RebuildBounds false r = recompute false r).
Proof.
  split; [|split].
  - intros Hc r'. subst r'. rewrite RebuildBounds_unfold.
    assert (force || _boundsDirty r || any_dirty (meshes r) = true) as ->.
    { destruct Hc as [-> | [-> | Hm]]; [done | by rewrite orb_true_r |].
      apply any_dirty_elem in Hm as ->. by rewrite orb_true_r. }
    split; [apply recompute_clean|]. split; [apply recompute_reflects|].
    apply recompute_meshes.
  - done.
  - intros Hd Hm. rewrite RebuildBounds_unfold, Hd.
    apply any_dirty_elem in Hm as ->. done.
Qed.

Lemma dirty_flag_pulled_up_witness :
  let r := Tw2GeometryRes.with_boundsDirty false
             (Examples.ready [Examples.with_dirty true (Examples.mesh4 gl_UNSIGNED_SHORT)]) in
  _boundsDirty r = false
  ∧ (∃ m, m ∈ meshes r ∧ Tw2GeometryMesh._boundsDirty m = true)
  ∧ (let r' := RebuildBounds false r in
     _boundsDirty r' = false ∧ reflects_meshes r'
     ∧ meshes r' = mesh_RebuildBounds false <$> meshes r)
  ∧ RebuildBounds false r = recompute false r.
Proof.
  intros r.
  assert (Hm : ∃ m, m ∈ meshes r ∧ Tw2GeometryMesh._boundsDirty m = true).
  { exists (Examples.with_dirty true (Examples.mesh4 gl_UNSIGNED_SHORT)).
    split; [left | reflexivity]. }
  split; [reflexivity|]. split; [exact Hm|].
  destruct (dirty_flag_pulled_up false r) as (H1 & _ & H3).
  split; [apply H1; right; right; exact Hm | apply H3; [reflexivity | exact Hm]].
Defined.

(** ** Clear and Prepare *)

Section ClearFacts.
Context `{Box3} {Ray Mat4 Cache : Type} `{!MeshMethods Ray Mat4 Cache}.

Lemma Clear_with_geometry ms mds ans r :
  (Clear (with_meshes ms (with_models mds (with_animations ans r)))).1 = (Clear r).1.
Proof. done. Qed.

Lemma Clear_Clear r : Clear (Clear r).1 = ((Clear r).1, []).
Proof. done. Qed.

End ClearFacts.

(** C8.  After [Clear] the resource holds no meshes, models or animations
    and its bounds are zero; a second [Clear] changes nothing (and has no mesh
    to release); [Prepare] clears first, so that preparing a resource is
    preparing the cleared resource, and what it leaves does not depend on the
    meshes, models and animations held before. *)
Theorem Clear_resets_and_Prepare_clears_first
    `{Box3} {Ray Mat4 Cache : Type} `{!MeshMethods Ray Mat4 Cache}
    {Data Options : Type} `{!Environment Data Options}
    (r : t) (data : Data) (options : Options) (d : Device)
    (ms : list Tw2GeometryMesh.t) (mds : list Tw2GeometryModel.t)
    (ans : list Tw2GeometryAnimation.t) :
  let r' := (Clear r).1 in
  (meshes r' = [] ∧ models r' = [] ∧ animations r' = []
   ∧ minBounds r' = (Num 0, Num 0, Num 0) ∧ maxBounds r' = (Num 0, Num 0, Num 0)
   ∧ boundsSpherePosition r' = (Num 0, Num 0, Num 0)
   ∧ boundsSphereRadius r' = Num 0)
  ∧ Clear r' = (r', [])
  ∧ Prepare data options (mkWorld r d) = Prepare data options (mkWorld r' d)
  ∧ Prepare data options
      (mkWorld (with_meshes ms (with_models mds (with_animations ans r))) d)
    = Prepare data options (mkWorld r d).
Proof.
  intros r'. split; [done|]. split; [apply Clear_Clear|].
  split; unfold Prepare, bind, do_Clear, on_res; simpl; reflexivity.
Qed.

(** ** Binding a mesh to a model *)

Section BindFacts.
Context {Ray Mat4 Cache : Type} `{!MeshMethods Ray Mat4 Cache}.

Lemma find_from_alter (f : Tw2GeometryBone.t -> Tw2GeometryBone.t) i b bones name :
  (∀ bone, Tw2GeometryBone.name (f bone) = Tw2GeometryBone.name bone) ->
  Tw2GeometryModel.find_from b (alter f i bones) name
  = Tw2GeometryModel.find_from b bones name.
Proof.
  intros Hf. revert i b. induction bones as [|bone bones IH]; intros i b; [done|].
  destruct i as [|i]; simpl.
  - by rewrite Hf.
  - change (list_alter f i bones) with (alter f i bones). by rewrite IH.
Qed.

Lemma FindBoneByName_set_boundingBox b box model name :
  Tw2GeometryModel.FindBoneByName name (Tw2GeometryModel.set_boundingBox b box model)
  = Tw2GeometryModel.FindBoneByName name model.
Proof.
  unfold Tw2GeometryModel.FindBoneByName, Tw2GeometryModel.set_boundingBox. simpl.
  destruct (Tw2GeometryModel.skeleton model) as [bones|]; simpl; [|done].
  by apply find_from_alter.
Qed.

(** With every name resolved, the loop pushes the bones found, in order, and
    touches neither the name nor the bindings of the model. *)
Lemma bind_bones_resolved res_path mesh names bones model :
  (∀ name, name ∈ names -> is_Some (Tw2GeometryModel.FindBoneByName name model)) ->
  ∃ model' found,
    bind_bones res_path mesh names bones model = Returned (bones ++ found) model'
    ∧ Forall2 (fun name b => Tw2GeometryModel.FindBoneByName name model = Some b)
        names found
    ∧ Tw2GeometryModel.meshBindings model' = Tw2GeometryModel.meshBindings model.
Proof.
  revert bones model. induction names as [|name names IH]; intros bones model Hall.
  - exists model, []. simpl. by rewrite app_nil_r.
  - simpl. destruct (Hall name) as [b Hb]; [left|]. rewrite Hb.
    destruct (IH (bones ++ [b])
                (Tw2GeometryModel.set_boundingBox b
                   (mesh_FindBoneBoundsByName name mesh) model))
      as (model' & found & E & F & B).
    { intros n Hn. rewrite FindBoneByName_set_boundingBox. apply Hall. by right. }
    exists model', (b :: found). rewrite E, <- app_assoc. split; [done|].
    split; [|done]. constructor; [done|].
    eapply Forall2_impl; [exact F|]. intros n b'. simpl.
    by rewrite FindBoneByName_set_boundingBox.
Qed.

(** With some name unresolved, the loop throws at the first such name. *)
Lemma bind_bones_unresolved res_path mesh names bones model :
  (∃ name, name ∈ names ∧ Tw2GeometryModel.FindBoneByName name model = None) ->
  ∃ name model',
    bind_bones res_path mesh names bones model
    = Thrown (ErrGeometryMeshBoneNameInvalid res_path (Tw2GeometryMesh.name mesh)
                name (Tw2GeometryModel.name model)) model'
    ∧ name ∈ names ∧ Tw2GeometryModel.FindBoneByName name model = None
    ∧ Tw2GeometryModel.meshBindings model' = Tw2GeometryModel.meshBindings model.
Proof.
  revert bones model. induction names as [|name names IH]; intros bones model Hex.
  - destruct Hex as (n & Hn & _). by apply elem_of_nil in Hn.
  - simpl. destruct (Tw2GeometryModel.FindBoneByName name model) as [b|] eqn:Hb.
    + destruct (IH (bones ++ [b])
                  (Tw2GeometryModel.set_boundingBox b
                     (mesh_FindBoneBoundsByName name mesh) model))
        as (n & model' & E & Hn & Hnone & B).
      { destruct Hex as (n & Hn & Hnone).
        apply elem_of_cons in Hn as [-> | Hn]; [congruence|].
        exists n. by rewrite FindBoneByName_set_boundingBox. }
      exists n, model'. rewrite E. simpl.
      rewrite FindBoneByName_set_boundingBox in Hnone.
      split; [done|]. split; [by right|]. done.
    + exists name, model. split; [done|]. split; [left|]. done.
Qed.

End BindFacts.

(** C7.  If some name of [mesh.boneBindings] has no bone in the model,
    [BindMeshToModel] throws [ErrGeometryMeshBoneNameInvalid] with the path of
    the resource, the name of the mesh, such a bone name and the name of the
    model, and the model's [meshBindings] are as before; if every name has a
    bone, one binding holding the mesh and the bones found, in the order of
    [boneBindings], is appended. *)
Theorem BindMeshToModel_spec
    {Ray Mat4 Cache : Type} `{!MeshMethods Ray Mat4 Cache}
    (mesh : Tw2GeometryMesh.t) (model : Tw2GeometryModel.t) (r : t) :
  ((∃ name, name ∈ Tw2GeometryMesh.boneBindings mesh
            ∧ Tw2GeometryModel.FindBoneByName name model = None) ->
   ∃ name model',
     BindMeshToModel mesh r model
     = Thrown (ErrGeometryMeshBoneNameInvalid (path r) (Tw2GeometryMesh.name mesh)
                 name (Tw2GeometryModel.name model)) model'
     ∧ name ∈ Tw2GeometryMesh.boneBindings mesh
     ∧ Tw2GeometryModel.FindBoneByName name model = None
     ∧ Tw2GeometryModel.meshBindings model' = Tw2GeometryModel.meshBindings model)
  ∧ ((∀ name, name ∈ Tw2GeometryMesh.boneBindings mesh ->
              is_Some (Tw2GeometryModel.FindBoneByName name model)) ->
     ∃ model' bones,
       BindMeshToModel mesh r model = Returned tt model'
       ∧ Forall2 (fun name b => Tw2GeometryModel.FindBoneByName name model = Some b)
           (Tw2GeometryMesh.boneBindings mesh) bones
       ∧ Tw2GeometryModel.meshBindings model'
         = Tw2GeometryModel.meshBindings model
             ++ [Tw2GeometryMeshBinding.mk (Some mesh) bones]).
Proof.
  split.
  - intros Hex.
    destruct (bind_bones_unresolved (path r) mesh _ [] model Hex)
      as (name & model' & E & Hn & Hnone & B).
    exists name, model'. unfold BindMeshToModel, bind. by rewrite E.
  - intros Hall.
    destruct (bind_bones_resolved (path r) mesh _ [] model Hall)
      as (model' & found & E & F & B).
    exists (Tw2GeometryModel.push_binding
              (Tw2GeometryMeshBinding.mk (Some mesh) found) model'), found.
    unfold BindMeshToModel, bind. rewrite E. simpl. by rewrite B.
Qed.

Lemma BindMeshToModel_spec_witness :
  (∃ name model',
     BindMeshToModel (Examples.skinned ["arm"; "tail"; "root"])
       (Examples.ready []) Examples.biped
     = Thrown (ErrGeometryMeshBoneNameInvalid "res:/model.gr2" "body" name "biped") model'
     ∧ name ∈ ["arm"; "tail"; "root"]
     ∧ Tw2GeometryModel.FindBoneByName name Examples.biped = None
     ∧ Tw2GeometryModel.meshBindings model' = [])
  ∧ (∃ model' bones,
       BindMeshToModel (Examples.skinned ["arm"; "root"])
         (Examples.ready []) Examples.biped = Returned tt model'
       ∧ Forall2 (fun name b => Tw2GeometryModel.FindBoneByName name Examples.biped = Some b)
           ["arm"; "root"] bones
       ∧ Tw2GeometryModel.meshBindings model'
         = [] ++ [Tw2GeometryMeshBinding.mk
                    (Some (Examples.skinned ["arm"; "root"])) bones]).
Proof.
  split.
  - apply (BindMeshToModel_spec (Examples.skinned ["arm"; "tail"; "root"])
             Examples.biped (Examples.ready [])).
    exists "tail". split; [right; left | reflexivity].
  - apply (BindMeshToModel_spec (Examples.skinned ["arm"; "root"])
             Examples.biped (Examples.ready [])).
    intros name Hn. apply elem_of_cons in Hn as [-> | Hn]; [by eexists|].
    apply elem_of_cons in Hn as [-> | Hn]; [by eexists|].
    by apply elem_of_nil in Hn.
Defined.

(** ** Rendering *)

Section RenderFacts.
Context `{DeclarationMethods}.

Lemma get_Some {A} (l : list A) (i : Z) :
  0 <= i < Z.of_nat (length l) -> ∃ x, get l i = Some x.
Proof.
  intros Hi. unfold get. destruct (Z.ltb_spec i 0); [lia|].
  apply lookup_lt_is_Some_2. lia.
Qed.

Lemma get_lt {A} (l : list A) (i : Z) (x : A) :
  get l i = Some x -> 0 <= i < Z.of_nat (length l).
Proof.
  unfold get. destruct (Z.ltb_spec i 0); [done|].
  intros Hx. apply lookup_lt_Some in Hx. lia.
Qed.

(** One turn of the inner [while]: the next area is folded into the run
    exactly when it starts at [areaStart + areaCount * 2]. *)
Lemma merge_step areas start count n i areaStart areaCount area :
  i + 1 < count -> get areas (i + 1 + start) = Some area ->
  merge areas start count (S n) i areaStart areaCount
  = if Tw2GeometryMeshArea.start area =? areaStart + areaCount * 2
    then merge areas start count n (i + 1) areaStart
           (areaCount + Tw2GeometryMeshArea.count area)
    else Run i areaStart areaCount.
Proof.
  intros Hi Ha. simpl. destruct (Z.ltb_spec (i + 1) count); [|lia].
  rewrite Ha. by destruct (_ =? _).
Qed.

End RenderFacts.

(** C4, as stated, fails for [RenderAreas]: with one mesh, a mesh index of 1
    returns false after the keep-alive alone; nothing of mesh 0 is bound or
    drawn, unlike the request for mesh 0. *)
Lemma RenderAreas_does_not_fall_back :
  let r := Examples.ready [Examples.mesh4 gl_UNSIGNED_SHORT] in
  IsGood r = true ∧ GetPassCount (Examples.effect 1) "Main" ≠ 0%nat
  ∧ Z.of_nat (length (meshes r)) <= 1
  ∧ RenderAreas 1 0 1 (Examples.effect 1) None r Examples.device0
    = Returned false (mkDevice [KeepAlive] 0)
  ∧ RenderAreas 1 0 1 (Examples.effect 1) None r Examples.device0
    ≠ RenderAreas 0 0 1 (Examples.effect 1) None r Examples.device0.
Proof. vm_compute. repeat split; (discriminate || lia || done). Qed.

(** C4, amended.  When [meshIx] is at least the number of meshes, both
    [RenderAreas] and [RenderAreasInstanced] return false after the keep-alive,
    with nothing bound and nothing drawn. *)
Theorem render_mesh_index_out_of_range `{DeclarationMethods}
    (meshIx start count : Z) (effect : Tw2Effect) (technique : option string)
    (instanceVB : option nat) (instanceDecl : Tw2VertexDeclaration.t)
    (instanceStride instanceCount : Z) (r : t) (d : Device) :
  Z.of_nat (length (meshes r)) <= meshIx ->
  RenderAreas meshIx start count effect technique r d
  = Returned false (mkDevice (log d ++ [KeepAlive]) (created d))
  ∧ RenderAreasInstanced meshIx start count effect technique
      instanceVB instanceDecl instanceStride instanceCount r d
    = Returned false (mkDevice (log d ++ [KeepAlive]) (created d)).
Proof.
  intros Hix. unfold RenderAreas, RenderAreasInstanced, bind, emit. simpl.
  destruct (Z.leb_spec (Z.of_nat (length (meshes r))) meshIx); [|lia].
  by rewrite !orb_true_r.
Qed.

Lemma render_mesh_index_out_of_range_witness :
  let r := Examples.ready [Examples.mesh4 gl_UNSIGNED_SHORT] in
  Z.of_nat (length (meshes r)) <= 1
  ∧ RenderAreas 1 0 1 (Examples.effect 1) None r Examples.device0
    = Returned false (mkDevice ([] ++ [KeepAlive]) 0)
  ∧ RenderAreasInstanced 1 0 1 (Examples.effect 1) None None
      (Tw2VertexDeclaration.mk [] 0) 16 7 r Examples.device0
    = Returned false (mkDevice ([] ++ [KeepAlive]) 0).
Proof.
  intros r. split; [simpl; lia|].
  apply (render_mesh_index_out_of_range 1 0 1 (Examples.effect 1) None None
           (Tw2VertexDeclaration.mk [] 0) 16 7 r Examples.device0).
  simpl; lia.
Defined.

(** C2.  On a mesh with the areas (0,10), (20,5), (30,8), (100,4), whatever
    its index type [ty], a [RenderAreas] request for the first three areas
    makes, in its one pass, the single draw call of 23 indices from offset 0;
    a request for all four makes that call and a second one of 4 indices from
    offset 100.  In general the inner loop folds the next area into the run
    exactly when its start is [areaStart + areaCount * 2]; the index type of
    the mesh plays no part in it. *)
Theorem area_merge (ty : Z) (d : Device) :
  let r := Examples.ready [Examples.mesh4 ty] in
  let setup := [KeepAlive; gl_bindBuffer gl_ARRAY_BUFFER (Some 0%nat);
                gl_bindBuffer gl_ELEMENT_ARRAY_BUFFER (Some 1%nat);
                ApplyPass "Main" 0;
                SetDeclaration {| pi_elements := 1; pi_id := 0 |} 32;
                ApplyShadowState] in
  RenderAreas 0 0 3 (Examples.effect 1) None r d
  = Returned true
      (mkDevice (log d ++ setup ++ [gl_drawElements gl_TRIANGLES 23 ty 0]) (created d))
  ∧ RenderAreas 0 0 4 (Examples.effect 1) None r d
    = Returned true
        (mkDevice (log d ++ setup ++ [gl_drawElements gl_TRIANGLES 23 ty 0;
                                      gl_drawElements gl_TRIANGLES 4 ty 100])
           (created d))
  ∧ ∀ areas start count n i areaStart areaCount area,
      i + 1 < count -> get areas (i + 1 + start) = Some area ->
      merge areas start count (S n) i areaStart areaCount
      = if Tw2GeometryMeshArea.start area =? areaStart + areaCount * 2
        then merge areas start count n (i + 1) areaStart
               (areaCount + Tw2GeometryMeshArea.count area)
        else Run i areaStart areaCount.
Proof.
  intros r setup. destruct d as [l c]. split; [|split].
  - cbv -[app]. by rewrite <- !app_assoc.
  - cbv -[app]. by rewrite <- !app_assoc.
  - intros. by apply merge_step.
Qed.

(** *** A request that runs past the last area *)

Section MissingArea.
Context `{DeclarationMethods}.

Lemma bind_emit {A} (e : event) (k : unit -> M Device A) (d : Device) :
  bind (emit e) k d = k tt (mkDevice (log d ++ [e]) (created d)).
Proof. done. Qed.

(** From an area that exists, in a request that ends past the last area,
    the inner loop stops at the first index past the end, or before an area
    that exists and does not continue the run. *)
Lemma merge_past_end areas start count n i areaStart areaCount :
  let len := Z.of_nat (length areas) in
  0 <= i + start < len -> len < start + count ->
  (Z.to_nat (count - (i + 1)) <= n)%nat ->
  merge areas start count n i areaStart areaCount = Missing len
  ∨ ∃ i' areaStart' areaCount',
      merge areas start count n i areaStart areaCount = Run i' areaStart' areaCount'
      ∧ i <= i' ∧ 0 <= i' + 1 + start < len.
Proof.
  intros len. revert i areaStart areaCount.
  induction n as [|n IH]; intros i areaStart areaCount Hi Hc Hn; [lia|].
  simpl. destruct (Z.ltb_spec (i + 1) count); [|lia].
  destruct (Z.lt_ge_cases (i + 1 + start) len) as [Hin | Hout].
  - destruct (get_Some areas (i + 1 + start)) as [area ->]; [lia|].
    destruct (negb _).
    + right. exists i, areaStart, areaCount. split; [done|]. lia.
    + destruct (IH (i + 1) areaStart (areaCount + Tw2GeometryMeshArea.count area))
        as [-> | (i' & s' & c' & -> & Hle & Hlt)]; [lia | lia | lia | by left |].
      right. exists i', s', c'. split; [done|]. lia.
  - rewrite get_ge; [|lia]. left. f_equal. lia.
Qed.

(** Such a request ends with the report of the area missing at the first
    index past the end, and [false]. *)
Lemma walk_past_end draw res_path areas start count n i d :
  let len := Z.of_nat (length areas) in
  0 <= i + start < len -> len < start + count ->
  (Z.to_nat (count - i) <= n)%nat ->
  ∃ evs,
    walk draw res_path areas start count n i d
    = Returned false
        (mkDevice (log d ++ evs ++ [OnError (ErrGeometryMeshAreaMissing res_path len)])
           (created d)).
Proof.
  intros len. revert i d.
  induction n as [|n IH]; intros i d Hi Hc Hn; [lia|].
  simpl. destruct (Z.ltb_spec i count); [|lia].
  destruct (Z.ltb_spec (i + start) (Z.of_nat (length areas))); [|lia].
  destruct (get_Some areas (i + start)) as [area ->]; [lia|].
  destruct (merge_past_end areas start count (Z.to_nat (count - (i + 1))) i
              (Tw2GeometryMeshArea.start area) (Tw2GeometryMeshArea.count area))
    as [-> | (i' & s' & c' & -> & Hle & Hlt)]; [lia | lia | lia | |].
  - exists []. by rewrite bind_emit.
  - rewrite bind_emit.
    destruct (IH (i' + 1) (mkDevice (log d ++ [draw c' s']) (created d)))
      as [evs ->]; [lia | lia | lia |].
    exists (draw c' s' :: evs). simpl. by rewrite <- app_assoc.
Qed.

Lemma walk_areas_past_end draw res_path areas start count d :
  let len := Z.of_nat (length areas) in
  0 <= start < len -> len < start + count ->
  ∃ evs,
    walk_areas draw res_path areas start count d
    = Returned false
        (mkDevice (log d ++ evs ++ [OnError (ErrGeometryMeshAreaMissing res_path len)])
           (created d)).
Proof. intros len Hs Hc. apply walk_past_end; lia. Qed.

Lemma direct_passes_past_end mode r mesh effect technique start count n d :
  let len := Z.of_nat (length (Tw2GeometryMesh.areas mesh)) in
  0 <= start < len -> len < start + count ->
  decl_SetDeclaration (Tw2GeometryMesh.declaration mesh)
    (GetPassInput effect technique 0)
    (Tw2VertexDeclaration.stride (Tw2GeometryMesh.declaration mesh)) = true ->
  ∃ evs,
    direct_passes mode r mesh effect technique start count (S n) 0 d
    = Returned false
        (mkDevice (log d ++ evs ++ [OnError (ErrGeometryMeshAreaMissing (path r) len)])
           (created d)).
Proof.
  intros len Hs Hc Hb. simpl. rewrite !bind_emit, Hb. simpl. rewrite bind_emit.
  unfold bind at 1.
  edestruct walk_areas_past_end as [evs ->]; [exact Hs | exact Hc |].
  simpl. eexists (_ :: _ :: _ :: evs). by rewrite <- !app_assoc.
Qed.

Lemma instanced_passes_past_end r mesh effect technique start count
    instanceVB instanceDecl instanceStride instanceCount n pass k d :
  let len := Z.of_nat (length (Tw2GeometryMesh.areas mesh)) in
  0 <= start < len -> len < start + count ->
  (k < n)%nat -> pi_elements (GetPassInput effect technique (pass + k)) ≠ 0%nat ->
  ∃ evs,
    instanced_passes r mesh effect technique start count
      instanceVB instanceDecl instanceStride instanceCount n pass d
    = Returned false
        (mkDevice (log d ++ evs ++ [OnError (ErrGeometryMeshAreaMissing (path r) len)])
           (created d)).
Proof.
  intros len Hs Hc. revert pass k d.
  induction n as [|n IH]; intros pass k d Hk Hne; [lia|].
  simpl. rewrite bind_emit. case_bool_decide as He.
  - destruct k as [|k]; [by rewrite Nat.add_0_r in Hne|].
    destruct (IH (S pass) k (mkDevice (log d ++ [ApplyPass technique pass]) (created d)))
      as [evs ->]; [lia | by rewrite Nat.add_succ_comm |].
    exists (ApplyPass technique pass :: evs). simpl. by rewrite <- app_assoc.
  - rewrite !bind_emit. unfold bind at 1.
    edestruct walk_areas_past_end as [evs ->]; [exact Hs | exact Hc |].
    simpl. eexists (_ :: _ :: _ :: _ :: _ :: _ :: evs). by rewrite <- !app_assoc.
Qed.

End MissingArea.

(** C10, as stated, fails when the pass never reaches the area loop: with
    one area and a request for two, [RenderAreasInstanced] under a pass that
    takes no input returns true and reports nothing, and [RenderAreas] under a
    declaration that does not bind reports the binding error instead. *)
Lemma missing_area_not_always_reported :
  let mesh := Tw2GeometryMesh.mk "hull" (Tw2VertexDeclaration.mk [] 32)
                [Examples.area 0 10] (Some 0%nat) 0 (Some 1%nat) gl_UNSIGNED_SHORT []
                vec3_zero vec3_zero false [] [] in
  let r := Examples.ready [mesh] in
  IsGood r = true
  ∧ GetPassCount Examples.effect_without_input "Main" ≠ 0%nat
  ∧ 0 <= 0 < Z.of_nat (length (Tw2GeometryMesh.areas mesh))
  ∧ Z.of_nat (length (Tw2GeometryMesh.areas mesh)) < 0 + 2
  ∧ RenderAreasInstanced 0 0 2 Examples.effect_without_input None None
      (Tw2VertexDeclaration.mk [] 0) 16 7 r Examples.device0
    = Returned true
        (mkDevice [KeepAlive; gl_bindBuffer gl_ELEMENT_ARRAY_BUFFER (Some 1%nat);
                   ApplyPass "Main" 0] 0)
  ∧ @RenderAreas Examples.unbound 0 0 2 (Examples.effect 1) None r Examples.device0
    = Returned false
        (mkDevice [KeepAlive; gl_bindBuffer gl_ARRAY_BUFFER (Some 0%nat);
                   gl_bindBuffer gl_ELEMENT_ARRAY_BUFFER (Some 1%nat);
                   ApplyPass "Main" 0;
                   SetDeclaration {| pi_elements := 1; pi_id := 0 |} 32;
                   OnError (ErrGeometryMeshEffectBinding "res:/model.gr2" 0
                              {| pi_elements := 1; pi_id := 0 |} 32)] 0).
Proof. vm_compute. repeat split; (discriminate || done). Qed.

(** C10, amended.  On a good resource with a nonzero pass count and a mesh
    at [meshIx], a request whose [start] is an area of the mesh and whose
    [start + count] exceeds the number of areas returns false, and the last
    thing it does is to report [ErrGeometryMeshAreaMissing] for the first
    index past the last area: for [RenderAreas] and [RenderLines] when the
    declaration binds to the first pass, for [RenderAreasInstanced] when some
    pass takes an input element. *)
Theorem missing_area_reported `{DeclarationMethods}
    (meshIx start count : Z) (effect : Tw2Effect) (technique : option string)
    (instanceVB : option nat) (instanceDecl : Tw2VertexDeclaration.t)
    (instanceStride instanceCount : Z) (r : t) (mesh : Tw2GeometryMesh.t)
    (d : Device) :
  let tech := default (defaultTechnique effect) technique in
  let len := Z.of_nat (length (Tw2GeometryMesh.areas mesh)) in
  let reported (o : outcome Device bool) :=
    ∃ evs, o = Returned false
                 (mkDevice
                    (log d ++ evs ++ [OnError (ErrGeometryMeshAreaMissing (path r) len)])
                    (created d)) in
  IsGood r = true -> GetPassCount effect tech ≠ 0%nat ->
  get (meshes r) meshIx = Some mesh ->
  0 <= start < len -> len < start + count ->
  (decl_SetDeclaration (Tw2GeometryMesh.declaration mesh) (GetPassInput effect tech 0)
     (Tw2VertexDeclaration.stride (Tw2GeometryMesh.declaration mesh)) = true ->
   reported (RenderAreas meshIx start count effect technique r d)
   ∧ reported (RenderLines meshIx start count effect technique r d))
  ∧ ((∃ pass, (pass < GetPassCount effect tech)%nat
              ∧ pi_elements (GetPassInput effect tech pass) ≠ 0%nat) ->
     reported (RenderAreasInstanced meshIx start count effect technique
                 instanceVB instanceDecl instanceStride instanceCount r d)).
Proof.
  intros tech len reported Hgood Hpass Hmesh Hs Hc.
  pose proof (get_lt _ _ _ Hmesh) as Hix.
  assert (G : bool_decide (GetPassCount effect tech = 0%nat) || negb (IsGood r)
              || (Z.of_nat (length (meshes r)) <=? meshIx) = false).
  { rewrite Hgood, bool_decide_eq_false_2 by done. simpl.
    destruct (Z.leb_spec (Z.of_nat (length (meshes r))) meshIx); [lia | done]. }
  assert (∃ n, GetPassCount effect tech = S n) as [n Hn].
  { destruct (GetPassCount effect tech) as [|n]; [done | by exists n]. }
  split.
  - intros Hb. split.
    + unfold reported, RenderAreas. fold tech. rewrite bind_emit, G, Hmesh, Hn.
      cbn [from_option]. rewrite !bind_emit.
      edestruct (direct_passes_past_end gl_TRIANGLES r mesh effect tech start count n)
        as [evs ->]; [exact Hs | exact Hc | exact Hb |].
      cbn [log created]. eexists (_ :: _ :: _ :: evs). by rewrite <- !app_assoc.
    + unfold reported, RenderLines. fold tech. rewrite bind_emit, G, Hmesh, Hn.
      rewrite !bind_emit.
      edestruct (direct_passes_past_end gl_LINES r mesh effect tech start count n)
        as [evs ->]; [exact Hs | exact Hc | exact Hb |].
      cbn [log created]. eexists (_ :: _ :: _ :: evs). by rewrite <- !app_assoc.
  - intros (pass & Hlt & Hne).
    unfold reported, RenderAreasInstanced. fold tech.
    rewrite bind_emit, G, Hmesh, Hn. rewrite !bind_emit. rewrite Hn in Hlt.
    edestruct (instanced_passes_past_end r mesh effect tech start count
                 instanceVB instanceDecl instanceStride instanceCount (S n) 0 pass)
      as [evs ->]; [exact Hs | exact Hc | exact Hlt | exact Hne |].
    cbn [log created]. eexists (_ :: _ :: evs). by rewrite <- !app_assoc.
Qed.

Lemma missing_area_reported_witness :
  let r := Examples.ready [Examples.mesh4 gl_UNSIGNED_SHORT] in
  let reported (o : outcome Device bool) :=
    ∃ evs, o = Returned false
                 (mkDevice
                    ([] ++ evs ++ [OnError (ErrGeometryMeshAreaMissing "res:/model.gr2" 4)])
                    0) in
  (reported (RenderAreas 0 1 5 (Examples.effect 2) None r Examples.device0)
   ∧ reported (RenderLines 0 1 5 (Examples.effect 2) None r Examples.device0))
  ∧ reported (RenderAreasInstanced 0 1 5 (Examples.effect 2) None None
                (Tw2VertexDeclaration.mk [] 0) 16 7 r Examples.device0).
Proof.
  intros r reported.
  destruct (missing_area_reported 0 1 5 (Examples.effect 2) None None
              (Tw2VertexDeclaration.mk [] 0) 16 7 r
              (Examples.mesh4 gl_UNSIGNED_SHORT) Examples.device0)
    as [Hdirect Hinstanced];
    [reflexivity | simpl; lia | reflexivity | simpl; lia | simpl; lia |].
  split; [apply Hdirect; reflexivity|].
  apply Hinstanced. exists 0%nat. split; [simpl; lia | simpl; lia].
Defined.

(** ** Decoding a vertex buffer *)

Import Layout.

Section ReaderFacts.

Lemma remaining_advance r bs rest :
  remaining r = bs ++ rest ->
  remaining (Tw2BinaryReader.mk (Tw2BinaryReader.data r)
               (Tw2BinaryReader.cursor r + length bs)) = rest.
Proof.
  unfold remaining. simpl. intros E.
  by rewrite <- drop_drop, E, drop_app_length.
Qed.

Lemma next_cons r b rest :
  remaining r = b :: rest ->
  Tw2BinaryReader.next r
  = Some (Tw2BinaryReader.u8 b,
          Tw2BinaryReader.mk (Tw2BinaryReader.data r) (S (Tw2BinaryReader.cursor r))).
Proof.
  unfold remaining, Tw2BinaryReader.next. intros E.
  assert (Hb : Tw2BinaryReader.data r !! Tw2BinaryReader.cursor r = Some b).
  { rewrite <- (Nat.add_0_r (Tw2BinaryReader.cursor r)), <- lookup_drop. by rewrite E. }
  by rewrite Hb.
Qed.

Lemma unsigned_app k r bs rest :
  length bs = k -> remaining r = bs ++ rest ->
  Tw2BinaryReader.unsigned k r
  = Some (le bs, Tw2BinaryReader.mk (Tw2BinaryReader.data r)
                   (Tw2BinaryReader.cursor r + k)).
Proof.
  revert r bs. induction k as [|k IH]; intros r bs Hk E.
  - destruct bs; [|done]. simpl. rewrite Nat.add_0_r. by destruct r.
  - destruct bs as [|b bs]; [done|]. simpl in *.
    rewrite (next_cons r b (bs ++ rest) E).
    rewrite (IH _ bs); [| lia | exact (remaining_advance r [b] _ E)
                              || (rewrite <- (remaining_advance r [b] _ E); simpl;
                                  by rewrite Nat.add_1_r)].
    simpl. do 3 f_equal. lia.
Qed.

Lemma u8_range b : 0 <= Tw2BinaryReader.u8 b <= 255.
Proof.
  unfold Tw2BinaryReader.u8. pose proof (Byte.to_N_bounded b). lia.
Qed.

Lemma le_range bs : 0 <= le bs < 256 ^ Z.of_nat (length bs).
Proof.
  induction bs as [|b bs IH]; simpl le; [simpl; lia|].
  pose proof (u8_range b).
  replace (Z.of_nat (length (b :: bs))) with (Z.succ (Z.of_nat (length bs)))
    by (simpl; lia).
  rewrite Z.pow_succ_r by lia. lia.
Qed.

End ReaderFacts.

Section ReadsFacts.

Lemma reads_as_unsigned k : reads_as k (Tw2BinaryReader.unsigned k) le.
Proof. intros r bs rest Hk E. by apply (unsigned_app k r bs rest). Qed.

Lemma reads_as_signed k : reads_as k (Tw2BinaryReader.signed k) sle.
Proof.
  intros r bs rest Hk E. unfold Tw2BinaryReader.signed, sle.
  by rewrite (unsigned_app k r bs rest Hk E), Hk.
Qed.

End ReadsFacts.

Section FillFacts.

Lemma advance_0 st : advance 0 st = st.
Proof. destruct st as [[data cursor] decl]. unfold advance. simpl. by rewrite Nat.add_0_r. Qed.

Lemma advance_advance a b st : advance b (advance a st) = advance (a + b) st.
Proof. unfold advance. simpl. by rewrite Nat.add_assoc. Qed.

Lemma remaining_advance_state st bs rest :
  remaining (VertexBuffer.reader st) = bs ++ rest ->
  remaining (VertexBuffer.reader (advance (length bs) st)) = rest.
Proof. apply remaining_advance. Qed.

Lemma read_as w f val st bs rest :
  reads_as w f val -> length bs = w ->
  remaining (VertexBuffer.reader st) = bs ++ rest ->
  VertexBuffer.read f st = Returned (val bs) (advance w st).
Proof.
  intros Hf Hw E. unfold VertexBuffer.read. by rewrite (Hf _ bs rest Hw E).
Qed.

Lemma put_next v (done todo : list number) (t : number) :
  VertexBuffer.put v (done ++ t :: todo, length done)
  = ((done ++ [v]) ++ todo, length (done ++ [v])).
Proof.
  unfold VertexBuffer.put. simpl.
  rewrite insert_app_r_alt, Nat.sub_diag by lia. simpl.
  rewrite <- app_assoc, length_app. simpl. f_equal. lia.
Qed.

(** The loop of one element: [n] scalars of [w] bytes each are read and
    written, converted, to the next [n] cells. *)
Lemma fill_values w f val conv i n :
  reads_as w f val ->
  ∀ (done todo : list number) bs rest st,
    length bs = (n * w)%nat ->
    remaining (VertexBuffer.reader st) = bs ++ rest ->
    (n <= length todo)%nat ->
    for_from i n
      (fun _ c => let* v := VertexBuffer.read f in ret (VertexBuffer.put (conv v) c))
      (done ++ todo, length done) st
    = Returned ((done ++ (conv ∘ val <$> pieces w n bs)) ++ drop n todo,
                length (done ++ (conv ∘ val <$> pieces w n bs)))
        (advance (n * w) st).
Proof.
  intros Hf. revert i.
  induction n as [|n IH]; intros i done todo bs rest st Hbs E Hn.
  - simpl. rewrite app_nil_r, advance_0. done.
  - destruct todo as [|t todo]; [simpl in Hn; lia|].
    assert (Hr : VertexBuffer.read f st = Returned (val (take w bs)) (advance w st)).
    { apply (read_as w f val st (take w bs) (drop w bs ++ rest) Hf).
      - rewrite length_take. simpl in Hbs. lia.
      - by rewrite app_assoc, take_drop. }
    cbn [for_from].
    erewrite bind_Returned; [|by erewrite bind_Returned; [|exact Hr]].
    rewrite put_next.
    rewrite (IH (S i) (done ++ [conv (val (take w bs))]) todo (drop w bs) rest
               (advance w st)).
    + rewrite advance_advance. cbn [pieces fmap list_fmap compose drop].
      by rewrite <- !app_assoc.
    + rewrite length_drop. simpl in Hbs. lia.
    + replace w with (length (take w bs)) at 1
        by (rewrite length_take; simpl in Hbs; lia).
      apply remaining_advance_state. by rewrite app_assoc, take_drop.
    + simpl in Hn. lia.
Qed.

Lemma length_pieces w n bs : length (pieces w n bs) = n.
Proof. revert bs. induction n as [|n IH]; intros bs; simpl; [done|]. by rewrite IH. Qed.

Lemma pieces_width w n bs :
  length bs = (n * w)%nat -> Forall (fun piece => length piece = w) (pieces w n bs).
Proof.
  revert bs. induction n as [|n IH]; intros bs Hbs; simpl; constructor.
  - rewrite length_take. simpl in Hbs. lia.
  - apply IH. rewrite length_drop. simpl in Hbs. lia.
Qed.

End FillFacts.

Section ElementFacts.

Lemma supported_cases ft :
  supported ft ->
  kind ft = 0 ∨ kind ft = 1 ∨ kind ft = 2 ∨ kind ft = 3 ∨ kind ft = 4
  ∨ kind ft = 8 ∨ kind ft = 9 ∨ kind ft = 10.
Proof.
  unfold supported. rewrite !elem_of_cons, elem_of_nil. tauto.
Qed.

(** The scalars of a normalized element lie in [range]: each is read from
    one byte, whatever the byte. *)
Lemma scalar_range ft bs :
  supported ft -> length bs = width ft -> range ft (scalar ft bs).
Proof.
  intros Hs. unfold range, scalar, width.
  destruct (supported_cases ft Hs) as [K|[K|[K|[K|[K|[K|[K|K]]]]]]];
    rewrite K; destruct (flagged ft); try done; intros Hbs;
    destruct bs as [|b [|? ?]]; try done; clear;
    destruct b; vm_compute; (split; intros Hc; discriminate Hc).
Qed.

Lemma length_element_of ft bs : length (element_of ft bs) = components ft.
Proof. unfold element_of. by rewrite length_fmap, length_pieces. Qed.

Lemma element_of_range ft bs :
  supported ft -> length bs = (components ft * width ft)%nat ->
  Forall (range ft) (element_of ft bs).
Proof.
  intros Hs Hbs. unfold element_of. apply Forall_fmap.
  eapply Forall_impl; [by apply pieces_width|].
  intros piece Hp. by apply scalar_range.
Qed.

(** One supported element of one vertex: [components] scalars are read,
    [width] bytes each, and the cells that [element_of] gives for these bytes
    are written to the next places. *)
Lemma decode_element_supported path el (done todo : list number) bs rest st :
  let ft := Tw2VertexElement.fileType el in
  supported ft ->
  Tw2VertexElement.elements el = Z.of_nat (components ft) ->
  length bs = (components ft * width ft)%nat ->
  remaining (VertexBuffer.reader st) = bs ++ rest ->
  (components ft <= length todo)%nat ->
  VertexBuffer.decode_element path el (done ++ todo, length done) st
  = Returned ((done ++ element_of ft bs) ++ drop (components ft) todo,
              length (done ++ element_of ft bs))
      (advance (components ft * width ft) st).
Proof.
  intros ft Hs Hel Hbs E Hn.
  unfold VertexBuffer.decode_element, VertexBuffer.fill, for_upto.
  rewrite Hel, Nat2Z.id. fold ft.
  change (negb (Z.land ft 16 =? 0)) with (flagged ft).
  change (Z.land ft 15) with (kind ft).
  unfold element_of, scalar. revert Hbs. unfold width.
  unfold Tw2BinaryReader.ReadInt8, Tw2BinaryReader.ReadInt16, Tw2BinaryReader.ReadInt32,
    Tw2BinaryReader.ReadUInt8, Tw2BinaryReader.ReadUInt16, Tw2BinaryReader.ReadUInt32,
    Tw2BinaryReader.ReadFloat16, Tw2BinaryReader.ReadFloat32.
  destruct (supported_cases ft Hs) as [K|[K|[K|[K|[K|[K|[K|K]]]]]]];
    rewrite K; destruct (flagged ft); intros Hbs;
    first
      [ exact (fill_values _ _ sle VertexBuffer.raw 0 _ (reads_as_signed _)
                 done todo bs rest st Hbs E Hn)
      | exact (fill_values _ _ sle (VertexBuffer.over 127) 0 _ (reads_as_signed _)
                 done todo bs rest st Hbs E Hn)
      | exact (fill_values _ _ sle (VertexBuffer.over 32767) 0 _ (reads_as_signed _)
                 done todo bs rest st Hbs E Hn)
      | exact (fill_values _ _ le VertexBuffer.raw 0 _ (reads_as_unsigned _)
                 done todo bs rest st Hbs E Hn)
      | exact (fill_values _ _ le (VertexBuffer.over 255) 0 _ (reads_as_unsigned _)
                 done todo bs rest st Hbs E Hn)
      | exact (fill_values _ _ le (VertexBuffer.over 65535) 0 _ (reads_as_unsigned _)
                 done todo bs rest st Hbs E Hn)
      | exact (fill_values _ _ le Half 0 _ (reads_as_unsigned _)
                 done todo bs rest st Hbs E Hn)
      | exact (fill_values _ _ le Single 0 _ (reads_as_unsigned _)
                 done todo bs rest st Hbs E Hn) ].
Qed.

(** An element of any other kind: the error carries the path and the low
    nibble of the encoding, and nothing is read. *)
Lemma decode_element_unsupported path el c st :
  ¬ supported (Tw2VertexElement.fileType el) ->
  VertexBuffer.decode_element path el c st
  = Thrown (ErrGeometryFileType path "fileType" (kind (Tw2VertexElement.fileType el))) st.
Proof.
  intros Hs. unfold VertexBuffer.decode_element.
  change (Z.land (Tw2VertexElement.fileType el) 15)
    with (kind (Tw2VertexElement.fileType el)).
  unfold supported in Hs. rewrite !elem_of_cons, elem_of_nil in Hs.
  destruct (kind (Tw2VertexElement.fileType el)) as [|p|p]; [tauto| |done].
  do 4 (destruct p as [p|p|]; try tauto; try done).
Qed.

End ElementFacts.

Section RowFacts.

Lemma row_bytes_cons ft fts :
  row_bytes (ft :: fts) = (components ft * width ft + row_bytes fts)%nat.
Proof. done. Qed.

Lemma row_size_cons ft fts : row_size (ft :: fts) = (components ft + row_size fts)%nat.
Proof. done. Qed.

Lemma get_element_Some j el st :
  Tw2VertexDeclaration.elements (VertexBuffer.declaration st) !! j = Some el ->
  VertexBuffer.get_element j st = Returned el st.
Proof. unfold VertexBuffer.get_element. by intros ->. Qed.

(** One vertex whose elements are all supported. *)
Lemma decode_row path (es : list Tw2VertexElement.t) :
  ∀ j (done todo : list number) bs rest st,
    let fts := Tw2VertexElement.fileType <$> es in
    (∀ k el, es !! k = Some el ->
       Tw2VertexDeclaration.elements (VertexBuffer.declaration st) !! (j + k)%nat
       = Some el) ->
    Forall (fun el => supported (Tw2VertexElement.fileType el) ∧ built el) es ->
    length bs = row_bytes fts ->
    remaining (VertexBuffer.reader st) = bs ++ rest ->
    (row_size fts <= length todo)%nat ->
    for_from j (length es)
      (fun declIx c =>
         let* el := VertexBuffer.get_element declIx in
         VertexBuffer.decode_element path el c)
      (done ++ todo, length done) st
    = Returned ((done ++ row_of fts bs) ++ drop (row_size fts) todo,
                length (done ++ row_of fts bs))
        (advance (row_bytes fts) st).
Proof.
  induction es as [|el es IH]; intros j done todo bs rest st fts Hdecl Hok Hbs E Hn.
  - simpl. by rewrite app_nil_r, advance_0.
  - apply Forall_cons in Hok as [[Hs Hb] Hok].
    subst fts. rewrite fmap_cons, row_bytes_cons, row_size_cons in *.
    remember (Tw2VertexElement.fileType el) as ft eqn:Hft.
    remember (Tw2VertexElement.fileType <$> es) as fts eqn:Hfts.
    cbn [length for_from app row_of].
    pose proof (decode_element_supported path el done todo
                  (take (components ft * width ft) bs)
                  (drop (components ft * width ft) bs ++ rest) st) as Ev.
    cbv zeta in Ev. rewrite <- Hft in Ev.
    unfold built in Hb. rewrite <- Hft in Hb.
    specialize (Ev Hs Hb). rewrite length_take, app_assoc, take_drop in Ev.
    specialize (Ev ltac:(lia) E ltac:(lia)).
    erewrite bind_Returned;
      [|erewrite bind_Returned;
          [exact Ev | apply get_element_Some; rewrite <- (Nat.add_0_r j); by apply Hdecl]].
    rewrite (IH (S j) (done ++ element_of ft (take (components ft * width ft) bs))
               (drop (components ft) todo)
               (drop (components ft * width ft) bs) rest
               (advance (components ft * width ft) st)); [| | done | | |].
    { rewrite advance_advance, drop_drop. by rewrite <- !app_assoc. }
    { intros k e Hk. simpl. rewrite <- Nat.add_succ_r. by apply Hdecl. }
    { rewrite length_drop. lia. }
    { replace (components ft * width ft)%nat
        with (length (take (components ft * width ft) bs)) at 1
        by (rewrite length_take; lia).
      apply remaining_advance_state. by rewrite app_assoc, take_drop. }
    { rewrite length_drop. lia. }
Qed.

Lemma row_of_vertex fts : ∀ bs,
  Forall supported fts -> length bs = row_bytes fts ->
  vertex_of range fts (row_of fts bs).
Proof.
  induction fts as [|ft fts IH]; intros bs Hs Hbs.
  - exists []. split; [done | constructor].
  - apply Forall_cons in Hs as [Hft Hs]. rewrite row_bytes_cons in Hbs.
    destruct (IH (drop (components ft * width ft) bs) Hs) as (chunks & Hc & HF).
    { rewrite length_drop. lia. }
    exists (element_of ft (take (components ft * width ft) bs) :: chunks).
    split; [cbn [row_of concat]; by rewrite Hc|].
    constructor; [|done]. split; [apply length_element_of|].
    apply element_of_range; [done|]. rewrite length_take. lia.
Qed.

(** One vertex with an unsupported element: the elements before it are
    decoded, then the error is thrown. *)
Lemma decode_row_throw path (good : list Tw2VertexElement.t) bad more :
  ∀ j (done todo : list number) bs rest st,
    let fts := Tw2VertexElement.fileType <$> good in
    (∀ k el, (good ++ bad :: more) !! k = Some el ->
       Tw2VertexDeclaration.elements (VertexBuffer.declaration st) !! (j + k)%nat
       = Some el) ->
    Forall (fun el => supported (Tw2VertexElement.fileType el) ∧ built el) good ->
    ¬ supported (Tw2VertexElement.fileType bad) ->
    length bs = row_bytes fts ->
    remaining (VertexBuffer.reader st) = bs ++ rest ->
    (row_size fts <= length todo)%nat ->
    for_from j (length (good ++ bad :: more))
      (fun declIx c =>
         let* el := VertexBuffer.get_element declIx in
         VertexBuffer.decode_element path el c)
      (done ++ todo, length done) st
    = Thrown (ErrGeometryFileType path "fileType"
                (kind (Tw2VertexElement.fileType bad)))
        (advance (row_bytes fts) st).
Proof.
  induction good as [|el es IH]; intros j done todo bs rest st fts Hdecl Hok Hbad Hbs E Hn.
  - simpl. rewrite advance_0.
    erewrite bind_Thrown; [done|].
    erewrite bind_Returned;
      [by apply decode_element_unsupported
      | apply get_element_Some; rewrite <- (Nat.add_0_r j); by apply Hdecl].
  - apply Forall_cons in Hok as [[Hs Hb] Hok].
    subst fts. rewrite fmap_cons, row_bytes_cons, row_size_cons in *.
    remember (Tw2VertexElement.fileType el) as ft eqn:Hft.
    remember (Tw2VertexElement.fileType <$> es) as fts eqn:Hfts.
    cbn [length for_from app].
    pose proof (decode_element_supported path el done todo
                  (take (components ft * width ft) bs)
                  (drop (components ft * width ft) bs ++ rest) st) as Ev.
    cbv zeta in Ev. rewrite <- Hft in Ev.
    unfold built in Hb. rewrite <- Hft in Hb.
    specialize (Ev Hs Hb). rewrite length_take, app_assoc, take_drop in Ev.
    specialize (Ev ltac:(lia) E ltac:(lia)).
    erewrite bind_Returned;
      [|erewrite bind_Returned;
          [exact Ev | apply get_element_Some; rewrite <- (Nat.add_0_r j);
                      by apply (Hdecl 0%nat)]].
    rewrite (IH (S j) (done ++ element_of ft (take (components ft * width ft) bs))
               (drop (components ft) todo)
               (drop (components ft * width ft) bs) rest
               (advance (components ft * width ft) st)); [| | done | done | | |].
    { by rewrite advance_advance. }
    { intros k e Hk. simpl. rewrite <- Nat.add_succ_r. by apply (Hdecl (S k)). }
    { rewrite length_drop. lia. }
    { replace (components ft * width ft)%nat
        with (length (take (components ft * width ft) bs)) at 1
        by (rewrite length_take; lia).
      apply remaining_advance_state. by rewrite app_assoc, take_drop. }
    { rewrite length_drop. lia. }
Qed.

End RowFacts.

Section BufferFacts.

(** The loop over the vertices, every element supported. *)
Lemma decode_rows path (es : list Tw2VertexElement.t) n :
  ∀ i (done todo : list number) bs rest st,
    let fts := Tw2VertexElement.fileType <$> es in
    (∀ k el, es !! k = Some el ->
       Tw2VertexDeclaration.elements (VertexBuffer.declaration st) !! k = Some el) ->
    Forall (fun el => supported (Tw2VertexElement.fileType el) ∧ built el) es ->
    length bs = (n * row_bytes fts)%nat ->
    remaining (VertexBuffer.reader st) = bs ++ rest ->
    (n * row_size fts <= length todo)%nat ->
    for_from i n (fun _ c => VertexBuffer.decode_vertex path (length es) c)
      (done ++ todo, length done) st
    = Returned ((done ++ rows_of fts n bs) ++ drop (n * row_size fts) todo,
                length (done ++ rows_of fts n bs))
        (advance (n * row_bytes fts) st).
Proof.
  induction n as [|n IH]; intros i done todo bs rest st fts Hdecl Hok Hbs E Hn.
  - simpl. by rewrite app_nil_r, advance_0.
  - cbn [for_from rows_of]. unfold VertexBuffer.decode_vertex at 1, for_upto.
    pose proof (decode_row path es 0 done todo (take (row_bytes fts) bs)
                  (drop (row_bytes fts) bs ++ rest) st) as Er.
    cbv zeta in Er. fold fts in Er. specialize (Er Hdecl Hok).
    rewrite length_take, app_assoc, take_drop in Er.
    specialize (Er ltac:(lia) E ltac:(lia)).
    erewrite bind_Returned; [|exact Er].
    rewrite (IH (S i) (done ++ row_of fts (take (row_bytes fts) bs))
               (drop (row_size fts) todo)
               (drop (row_bytes fts) bs) rest (advance (row_bytes fts) st));
      [| done | done | | |].
    { fold fts. rewrite advance_advance, drop_drop. by rewrite <- !app_assoc. }
    { rewrite length_drop. fold fts. lia. }
    { replace (row_bytes fts) with (length (take (row_bytes fts) bs)) at 1
        by (rewrite length_take; lia).
      apply remaining_advance_state. by rewrite app_assoc, take_drop. }
    { rewrite length_drop. fold fts. lia. }
Qed.

Lemma rows_of_buffer fts n : ∀ bs,
  Forall supported fts -> length bs = (n * row_bytes fts)%nat ->
  buffer_of range fts n (rows_of fts n bs).
Proof.
  induction n as [|n IH]; intros bs Hs Hbs.
  - exists []. split; [done|]. split; [done | constructor].
  - destruct (IH (drop (row_bytes fts) bs) Hs) as (rows & Hr & Hlen & HF).
    { rewrite length_drop. lia. }
    exists (row_of fts (take (row_bytes fts) bs) :: rows).
    split; [cbn [rows_of concat]; by rewrite Hr|].
    split; [simpl; lia|]. constructor; [|done].
    apply row_of_vertex; [done|]. rewrite length_take. lia.
Qed.

Lemma vertex_of_length ok fts row : vertex_of ok fts row -> length row = row_size fts.
Proof.
  intros (chunks & -> & HF). unfold row_size.
  induction HF as [|ft chunk fts chunks [Hlen _] _ IH]; [done|].
  change (length (chunk ++ concat chunks)
          = (components ft + sum_list (components <$> fts))%nat).
  rewrite length_app. lia.
Qed.

Lemma buffer_of_length ok fts n buffer :
  buffer_of ok fts n buffer -> length buffer = (n * row_size fts)%nat.
Proof.
  intros (rows & -> & <- & HF).
  induction HF as [|row rows Hrow _ IH]; [done|].
  change (length (row ++ concat rows) = (row_size fts + length rows * row_size fts)%nat).
  rewrite length_app, (vertex_of_length _ _ _ Hrow). lia.
Qed.

Lemma read_u8 st b rest :
  remaining (VertexBuffer.reader st) = b :: rest ->
  VertexBuffer.read Tw2BinaryReader.ReadUInt8 st
  = Returned (Tw2BinaryReader.u8 b) (advance 1 st).
Proof.
  intros E. unfold VertexBuffer.read, Tw2BinaryReader.ReadUInt8.
  rewrite (unsigned_app 1 _ [b] rest eq_refl E). simpl. by rewrite Z.add_0_r.
Qed.

Lemma take_array_set {A} (l : list A) j x :
  (j <= length l)%nat -> take (S j) (array_set l j x) = take j l ++ [x].
Proof.
  intros Hj. unfold array_set. case_bool_decide as Hlt.
  - rewrite (take_S_r _ _ x) by (by apply list_lookup_insert_eq).
    by rewrite take_insert_ge.
  - assert (j = length l) as -> by lia.
    rewrite firstn_all, take_ge by (rewrite length_app; simpl; lia). done.
Qed.

Lemma encoding_nonneg e : 0 <= Z.shiftr (encoding e) 5.
Proof. apply Z.shiftr_nonneg. unfold encoding. pose proof (u8_range e.2). lia. Qed.

Lemma parsed_fileTypes vs entries :
  Tw2VertexElement.fileType <$> parsed vs entries = encoding <$> entries.
Proof.
  revert vs. induction entries as [|e entries IH]; intros vs; simpl; [done|].
  by rewrite IH.
Qed.

Lemma parsed_built vs entries : Forall built (parsed vs entries).
Proof.
  revert vs. induction entries as [|e entries IH]; intros vs; simpl; constructor; [|done].
  unfold built, components. simpl. pose proof (encoding_nonneg e). lia.
Qed.

Lemma length_header entries : length (header entries) = (3 * length entries)%nat.
Proof.
  induction entries as [|e entries IH]; [done|].
  change (S (S (S (length (header entries)))) = (3 * S (length entries))%nat). lia.
Qed.

(** The first loop: three bytes per entry are read and the elements are
    stored in the declaration from position [j] on. *)
Lemma read_entries entries :
  ∀ j vs st rest,
    (j <= length (Tw2VertexDeclaration.elements (VertexBuffer.declaration st)))%nat ->
    remaining (VertexBuffer.reader st) = header entries ++ rest ->
    ∃ st',
      for_from j (length entries) VertexBuffer.read_element vs st
      = Returned (vs + Z.of_nat (row_size (encoding <$> entries))) st'
      ∧ VertexBuffer.reader st'
        = VertexBuffer.reader (advance (3 * length entries) st)
      ∧ take (j + length entries)
          (Tw2VertexDeclaration.elements (VertexBuffer.declaration st'))
        = take j (Tw2VertexDeclaration.elements (VertexBuffer.declaration st))
            ++ parsed vs entries
      ∧ Tw2VertexDeclaration.stride (VertexBuffer.declaration st')
        = Tw2VertexDeclaration.stride (VertexBuffer.declaration st).
Proof.
  induction entries as [|[[u ui] ft] entries IH]; intros j vs st rest Hj E.
  - exists st. cbn [length for_from]. change (3 * 0)%nat with 0%nat.
    rewrite advance_0, Nat.add_0_r, app_nil_r.
    change (row_size (encoding <$> [])) with 0%nat. by rewrite Z.add_0_r.
  - cbn [length for_from]. unfold VertexBuffer.read_element at 1.
    change (header ((u, ui, ft) :: entries) ++ rest)
      with (u :: ui :: ft :: header entries ++ rest) in E.
    erewrite bind_Returned; cycle 1.
    { erewrite bind_Returned; [|eapply read_u8; exact E].
      erewrite bind_Returned;
        [|eapply read_u8; exact (remaining_advance_state st [u] _ E)].
      erewrite bind_Returned;
        [|eapply read_u8;
          exact (remaining_advance_state (advance 1 st) [ui] _
                   (remaining_advance_state st [u] _ E))].
      reflexivity. }
    set (el := Tw2VertexElement.mk _ _ _ _ _ _).
    set (st1 := VertexBuffer.mk _ _).
    destruct (IH (S j) (vs + Tw2VertexElement.elements el) st1 rest)
      as (st' & E' & Hr & Ht & Hs).
    { subst st1. simpl. unfold array_set. case_bool_decide.
      - rewrite length_insert. lia.
      - rewrite length_app. simpl. lia. }
    { subst st1. simpl.
      exact (remaining_advance_state (advance 1 (advance 1 st)) [ft] _
               (remaining_advance_state (advance 1 st) [ui] _
                  (remaining_advance_state st [u] _ E))). }
    exists st'. rewrite E'. split.
    { f_equal. rewrite fmap_cons, row_size_cons. unfold components.
      pose proof (encoding_nonneg (u, ui, ft)).
      change (Tw2VertexElement.elements el) with (Z.shiftr (encoding (u, ui, ft)) 5 + 1).
      lia. }
    split.
    { rewrite Hr. subst st1. unfold advance. cbn [VertexBuffer.reader
        Tw2BinaryReader.data Tw2BinaryReader.cursor]. f_equal. lia. }
    split; [|by rewrite Hs].
    rewrite <- Nat.add_succ_comm, Ht. subst st1. simpl.
    rewrite take_array_set by done. by rewrite <- app_assoc.
Qed.

End BufferFacts.

Section VertexBufferFacts.

Lemma length_parsed vs entries : length (parsed vs entries) = length entries.
Proof. revert vs. induction entries as [|e entries IH]; intros vs; simpl; [done|]. by rewrite IH. Qed.

Lemma parsed_supported vs entries :
  Forall supported (encoding <$> entries) ->
  Forall (fun el => supported (Tw2VertexElement.fileType el) ∧ built el)
    (parsed vs entries).
Proof.
  intros Hs. rewrite <- (parsed_fileTypes vs) in Hs.
  pose proof (parsed_built vs entries) as Hb.
  rewrite Forall_forall in Hs. rewrite Forall_forall in Hb.
  apply Forall_forall. intros el Hel.
  split; [apply Hs; by apply list_elem_of_fmap_2 | by apply Hb].
Qed.

Lemma read_u32 st n0 n1 n2 n3 rest :
  remaining (VertexBuffer.reader st) = n0 :: n1 :: n2 :: n3 :: rest ->
  VertexBuffer.read Tw2BinaryReader.ReadUInt32 st
  = Returned (le [n0; n1; n2; n3]) (advance 4 st).
Proof.
  intros E. unfold VertexBuffer.read, Tw2BinaryReader.ReadUInt32.
  by rewrite (unsigned_app 4 _ [n0; n1; n2; n3] rest eq_refl E).
Qed.

(** Up to the vertex count: the declaration holds the elements of the
    entries, the stride is four bytes per scalar, and the cursor is behind
    the count. *)
Lemma ReadVertexBuffer_declaration path st cnt entries n0 n1 n2 n3 rest :
  Tw2BinaryReader.u8 cnt = Z.of_nat (length entries) ->
  remaining (VertexBuffer.reader st)
  = cnt :: header entries ++ [n0; n1; n2; n3] ++ rest ->
  ∃ st1,
    VertexBuffer.ReadVertexBuffer path st
    = vertices path (Z.of_nat (length entries))
        (Z.of_nat (row_size (encoding <$> entries))) (le [n0; n1; n2; n3]) st1
    ∧ VertexBuffer.reader st1
      = VertexBuffer.reader (advance (1 + 3 * length entries + 4) st)
    ∧ remaining (VertexBuffer.reader st1) = rest
    ∧ take (length entries)
        (Tw2VertexDeclaration.elements (VertexBuffer.declaration st1))
      = parsed 0 entries
    ∧ Tw2VertexDeclaration.stride (VertexBuffer.declaration st1)
      = Z.of_nat (row_size (encoding <$> entries)) * 4.
Proof.
  intros Hcnt E. unfold VertexBuffer.ReadVertexBuffer.
  erewrite bind_Returned; [|eapply read_u8; exact E].
  rewrite Hcnt, Nat2Z.id. unfold for_upto.
  pose proof (remaining_advance_state st [cnt] _ E) as E1.
  destruct (read_entries entries 0 0 (advance 1 st) _ (Nat.le_0_l _) E1)
    as (st2 & E2 & Hr2 & Ht2 & Hs2).
  erewrite bind_Returned; [|exact E2]. rewrite Z.add_0_l.
  unfold VertexBuffer.set_stride at 1. unfold bind at 1.
  set (st3 := VertexBuffer.mk _ _).
  assert (E3 : remaining (VertexBuffer.reader st3) = [n0; n1; n2; n3] ++ rest).
  { subst st3. cbn [VertexBuffer.reader]. rewrite Hr2.
    rewrite <- length_header.
    exact (remaining_advance_state (advance 1 st) (header entries) _ E1). }
  erewrite bind_Returned; [|eapply read_u32; exact E3].
  exists (advance 4 st3). split; [unfold vertices, for_upto; by rewrite Nat2Z.id|].
  split.
  { subst st3. unfold advance. cbn [VertexBuffer.reader Tw2BinaryReader.data
      Tw2BinaryReader.cursor]. rewrite Hr2. unfold advance.
    cbn [VertexBuffer.reader Tw2BinaryReader.data Tw2BinaryReader.cursor].
    f_equal. lia. }
  split; [exact (remaining_advance_state st3 [n0; n1; n2; n3] _ E3)|].
  subst st3. cbn [advance VertexBuffer.declaration Tw2VertexDeclaration.elements
    Tw2VertexDeclaration.stride]. split; [|done].
  exact Ht2.
Qed.

End VertexBufferFacts.

(** C1, as stated, fails for the normalized signed 8-bit encoding: the byte
    0x80 is read as -128, and the cell keeps the binary32 nearest to
    -128/127, which is -2113665/2097152 (-1.0078740119934082), below -1. *)
Lemma normalized_int8_below_minus_one :
  let st := VertexBuffer.mk
              (Tw2BinaryReader.mk [x01; x00; x00; x10; x01; x00; x00; x00; x80] 0)
              (Tw2VertexDeclaration.mk [] 0) in
  supported 0x10 ∧ flagged 0x10 = true ∧ kind 0x10 = 0 ∧ components 0x10 = 1%nat
  ∧ (∃ st', VertexBuffer.ReadVertexBuffer "res:/model.gr2" st
            = Returned (Some [Num (-2113665 # 2097152)]) st')
  ∧ ¬ stated_range 0x10 (Num (-2113665 # 2097152)).
Proof.
  split; [unfold supported; change (kind 16) with 0; left|].
  split; [done|]. split; [done|]. split; [done|].
  split; [eexists; vm_compute; reflexivity|].
  vm_compute. intros [Hlo _]. by apply Hlo.
Qed.

(** C1, amended.  A vertex block whose entries are all of a supported kind
    and that holds [n > 0] vertices decodes to a buffer of [n] times the
    components of one vertex: vertex after vertex and, within a vertex,
    element after element, [components] cells per element, read from
    [components] scalars of [width] bytes each, so that the whole payload and
    nothing more is consumed.  The buffer is [rows_of] the payload: each cell
    holds what [scalar] gives for the bytes of its scalar, so a normalized
    element of kind 1 is read as 8-bit signed values over 32767 and one of
    kind 9 as 8-bit unsigned values over 65535, rounded to binary32.  The
    cells of a normalized element lie in [[-1, 1]] for kind 1, in [[0, 1]]
    for kinds 8 and 9, and in [[-128/127, 1]] for kind 0. *)
Theorem ReadVertexBuffer_decodes
    (path : string) (st : VertexBuffer.state) (cnt : byte) (entries : list entry)
    (n0 n1 n2 n3 : byte) (payload rest : list byte) :
  let fts := encoding <$> entries in
  let n := Z.to_nat (le [n0; n1; n2; n3]) in
  Tw2BinaryReader.u8 cnt = Z.of_nat (length entries) ->
  n ≠ 0%nat ->
  Forall supported fts ->
  length payload = (n * row_bytes fts)%nat ->
  remaining (VertexBuffer.reader st)
  = cnt :: header entries ++ [n0; n1; n2; n3] ++ payload ++ rest ->
  ∃ buffer st',
    VertexBuffer.ReadVertexBuffer path st = Returned (Some buffer) st'
    ∧ buffer = rows_of fts n payload
    ∧ length buffer = (n * row_size fts)%nat
    ∧ buffer_of range fts n buffer
    ∧ VertexBuffer.reader st'
      = VertexBuffer.reader
          (advance (1 + 3 * length entries + 4 + n * row_bytes fts) st)
    ∧ remaining (VertexBuffer.reader st') = rest.
Proof.
  intros fts n Hcnt Hn Hs Hp E.
  destruct (ReadVertexBuffer_declaration path st cnt entries n0 n1 n2 n3
              (payload ++ rest) Hcnt E) as (st1 & -> & Hr & Hrem & Ht & _).
  pose proof (le_range [n0; n1; n2; n3]) as Hle.
  unfold vertices, for_upto. fold n.
  destruct (Z.eqb_spec (le [n0; n1; n2; n3]) 0) as [Hz|_]; [subst n; lia|].
  rewrite Nat2Z.id, <- (length_parsed 0 entries).
  pose proof (decode_rows path (parsed 0 entries) n 0 []
                (replicate (Z.to_nat (Z.of_nat (row_size fts) * le [n0; n1; n2; n3]))
                   (Num 0))
                payload rest st1) as Eb.
  cbv zeta in Eb. rewrite parsed_fileTypes in Eb. fold fts in Eb.
  pose proof (rows_of_buffer fts n payload Hs Hp) as Hb.
  pose proof (buffer_of_length _ _ _ _ Hb) as Hlen.
  erewrite bind_Returned; cycle 1.
  { apply Eb.
    - intros k el Hk. rewrite <- Ht in Hk. by apply lookup_take_Some in Hk as [? _].
    - by apply parsed_supported.
    - done.
    - done.
    - rewrite length_replicate. subst n. nia. }
  exists (rows_of fts n payload). eexists. split.
  { unfold ret. cbn [fst]. rewrite drop_ge, app_nil_r; [done|].
    rewrite length_replicate. subst n. nia. }
  split; [done|]. split; [done|]. split; [done|]. split.
  { unfold advance. cbn [VertexBuffer.reader Tw2BinaryReader.data
      Tw2BinaryReader.cursor]. rewrite Hr. unfold advance.
    cbn [VertexBuffer.reader Tw2BinaryReader.data Tw2BinaryReader.cursor].
    rewrite ?length_parsed. f_equal. lia. }
  rewrite <- Hp. by apply remaining_advance_state.
Qed.

Lemma ReadVertexBuffer_decodes_witness :
  let st := VertexBuffer.mk
              (Tw2BinaryReader.mk
                 [x02; x00; x00; x30; x01; x00; x31; x01; x00; x00; x00;
                  x80; x7f; x80; x7f; xff] 0)
              (Tw2VertexDeclaration.mk [] 0) in
  ∃ buffer st',
    VertexBuffer.ReadVertexBuffer "res:/model.gr2" st = Returned (Some buffer) st'
    ∧ buffer = [Num (-2113665 # 2097152); Num 1;
                Num (-32769 # 8388608); Num (4161663 # 1073741824)]
    ∧ length buffer = 4%nat
    ∧ buffer_of range [48; 49] 1 buffer
    ∧ VertexBuffer.reader st' = VertexBuffer.reader (advance 15 st)
    ∧ remaining (VertexBuffer.reader st') = [xff].
Proof.
  intros st.
  exact (ReadVertexBuffer_decodes "res:/model.gr2" st x02
           [(x00, x00, x30); (x01, x00, x31)] x01 x00 x00 x00
           [x80; x7f; x80; x7f] [xff] eq_refl ltac:(vm_compute; discriminate)
           ltac:(repeat constructor) eq_refl eq_refl).
Defined.

Section UnsupportedFacts.

Lemma parsed_app vs good more :
  parsed vs (good ++ more)
  = parsed vs good ++ parsed (vs + Z.of_nat (row_size (encoding <$> good))) more.
Proof.
  revert vs. induction good as [|e good IH]; intros vs.
  - simpl. change (row_size (encoding <$> [])) with 0%nat. by rewrite Z.add_0_r.
  - cbn [app parsed]. rewrite IH, fmap_cons, row_size_cons. do 3 f_equal.
    unfold components. pose proof (encoding_nonneg e). lia.
Qed.

Lemma row_size_app fts fts' : row_size (fts ++ fts') = (row_size fts + row_size fts')%nat.
Proof.
  induction fts as [|ft fts IH]; [done|].
  cbn [app]. rewrite !row_size_cons, IH. lia.
Qed.

End UnsupportedFacts.

(** C5, as stated, fails twice over: with no vertex in the block, an
    unsupported encoding stays unnoticed and [null] is returned; and the error
    thrown for the encoding byte 0x25 carries its low nibble, 5. *)
Lemma unsupported_encoding_not_named :
  let block (count : byte) :=
    VertexBuffer.mk
      (Tw2BinaryReader.mk [x01; x00; x00; x25; count; x00; x00; x00; x80] 0)
      (Tw2VertexDeclaration.mk [] 0) in
  ¬ supported 0x25
  ∧ (∃ st', VertexBuffer.ReadVertexBuffer "res:/model.gr2" (block x00)
            = Returned None st')
  ∧ (∃ st', VertexBuffer.ReadVertexBuffer "res:/model.gr2" (block x01)
            = Thrown (ErrGeometryFileType "res:/model.gr2" "fileType" 5) st')
  ∧ 5 ≠ 0x25.
Proof.
  split.
  { unfold supported. change (kind 37) with 5.
    rewrite !elem_of_cons, elem_of_nil. lia. }
  split; [eexists; vm_compute; reflexivity|].
  split; [eexists; vm_compute; reflexivity | discriminate].
Qed.

(** C5, amended.  When the block holds at least one vertex and some entry
    is of an unsupported kind, [ReadVertexBuffer] throws
    [ErrGeometryFileType] with the path and the low nibble of the encoding of
    the first such entry; it does so in the first vertex, with the cursor
    right behind the scalars of the entries before it.  When the block holds
    no vertex, it returns [null]. *)
Theorem ReadVertexBuffer_unsupported
    (path : string) (st : VertexBuffer.state) (cnt : byte)
    (good : list entry) (bad : entry) (more : list entry)
    (n0 n1 n2 n3 : byte) (payload rest : list byte) :
  let entries := good ++ bad :: more in
  Tw2BinaryReader.u8 cnt = Z.of_nat (length entries) ->
  Forall supported (encoding <$> good) ->
  ¬ supported (encoding bad) ->
  remaining (VertexBuffer.reader st)
  = cnt :: header entries ++ [n0; n1; n2; n3] ++ payload ++ rest ->
  (le [n0; n1; n2; n3] ≠ 0 ->
   length payload = row_bytes (encoding <$> good) ->
   ∃ st',
     VertexBuffer.ReadVertexBuffer path st
     = Thrown (ErrGeometryFileType path "fileType" (kind (encoding bad))) st'
     ∧ VertexBuffer.reader st'
       = VertexBuffer.reader
           (advance (1 + 3 * length entries + 4 + row_bytes (encoding <$> good)) st)
     ∧ remaining (VertexBuffer.reader st') = rest)
  ∧ (le [n0; n1; n2; n3] = 0 ->
     ∃ st', VertexBuffer.ReadVertexBuffer path st = Returned None st').
Proof.
  intros entries Hcnt Hs Hbad E.
  destruct (ReadVertexBuffer_declaration path st cnt entries n0 n1 n2 n3
              (payload ++ rest) Hcnt E) as (st1 & -> & Hr & Hrem & Ht & _).
  unfold vertices, for_upto. split.
  - intros Hn Hp.
    destruct (Z.eqb_spec (le [n0; n1; n2; n3]) 0) as [Hz|_]; [done|].
    pose proof (le_range [n0; n1; n2; n3]) as Hle.
    destruct (Z.to_nat (le [n0; n1; n2; n3])) as [|n] eqn:Hcount; [lia|].
    cbn [for_from]. unfold VertexBuffer.decode_vertex at 1, for_upto.
    rewrite Nat2Z.id, <- (length_parsed 0 entries).
    subst entries. rewrite parsed_app in Ht |- *. cbn [parsed] in Ht |- *.
    set (bad_el := Tw2VertexElement.mk _ _ (encoding bad) _ _ _) in *.
    set (more_els := parsed _ more) in *.
    assert (Hthrow :
      for_from 0 (length (parsed 0 good ++ bad_el :: more_els))
        (fun declIx c =>
           let* el := VertexBuffer.get_element declIx in
           VertexBuffer.decode_element path el c)
        ([] ++ replicate
                 (Z.to_nat (Z.of_nat (row_size (encoding <$> good ++ bad :: more))
                            * le [n0; n1; n2; n3])) (Num 0),
         length (@nil number))
        st1
      = Thrown (ErrGeometryFileType path "fileType" (kind (encoding bad)))
          (advance (row_bytes (Tw2VertexElement.fileType <$> parsed 0 good)) st1)).
    { apply (decode_row_throw path (parsed 0 good) bad_el more_els 0 [] _ payload rest st1).
      - intros k el Hk. rewrite <- Ht in Hk.
        by apply lookup_take_Some in Hk as [? _].
      - by apply parsed_supported.
      - done.
      - by rewrite parsed_fileTypes.
      - done.
      - rewrite parsed_fileTypes, length_replicate, fmap_app, row_size_app. nia. }
    eexists. split.
    { erewrite bind_Thrown; [reflexivity|].
      erewrite bind_Thrown; [reflexivity|]. exact Hthrow. }
    rewrite parsed_fileTypes. split.
    + unfold advance. cbn [VertexBuffer.reader Tw2BinaryReader.data
        Tw2BinaryReader.cursor]. rewrite Hr. unfold advance.
      cbn [VertexBuffer.reader Tw2BinaryReader.data Tw2BinaryReader.cursor].
      rewrite ?length_app, ?length_parsed. cbn [length].
      subst more_els. rewrite ?length_parsed. f_equal. lia.
    + rewrite <- Hp. by apply remaining_advance_state.
  - intros ->. by eexists.
Qed.

Lemma ReadVertexBuffer_unsupported_witness :
  let block (count : byte) :=
    VertexBuffer.mk
      (Tw2BinaryReader.mk
         [x02; x00; x00; x28; x01; x00; x25; count; x00; x00; x00; x10; x20; xff] 0)
      (Tw2VertexDeclaration.mk [] 0) in
  (∃ st',
     VertexBuffer.ReadVertexBuffer "res:/model.gr2" (block x03)
     = Thrown (ErrGeometryFileType "res:/model.gr2" "fileType" (kind 0x25)) st'
     ∧ VertexBuffer.reader st' = VertexBuffer.reader (advance 13 (block x03))
     ∧ remaining (VertexBuffer.reader st') = [xff])
  ∧ (∃ st', VertexBuffer.ReadVertexBuffer "res:/model.gr2" (block x00)
            = Returned None st').
Proof.
  intros block. split.
  - apply (ReadVertexBuffer_unsupported "res:/model.gr2" (block x03) x02
             [(x00, x00, x28)] (x01, x00, x25) [] x03 x00 x00 x00 [x10; x20] [xff]).
    + reflexivity.
    + repeat constructor.
    + unfold supported. change (kind (encoding (x01, x00, x25))) with 5.
      rewrite !elem_of_cons, elem_of_nil. lia.
    + reflexivity.
    + vm_compute. discriminate.
    + reflexivity.
  - apply (ReadVertexBuffer_unsupported "res:/model.gr2" (block x00) x02
             [(x00, x00, x28)] (x01, x00, x25) [] x00 x00 x00 x00 [x10; x20] [xff]).
    + reflexivity.
    + repeat constructor.
    + unfold supported. change (kind (encoding (x01, x00, x25))) with 5.
      rewrite !elem_of_cons, elem_of_nil. lia.
    + reflexivity.
    + reflexivity.
Defined.

(** * Further properties *)

Import Expected.

(** ** What a request draws *)

Section RunsFacts.

Lemma after_nil d : after d [] = d.
Proof. destruct d. unfold after. simpl. by rewrite app_nil_r. Qed.

Lemma after_after d evs evs' : after (after d evs) evs' = after d (evs ++ evs').
Proof. unfold after. simpl. by rewrite app_assoc. Qed.

Lemma emit_after {A} (e : event) (k : unit -> M Device A) (d : Device) :
  bind (emit e) k d = k tt (after d [e]).
Proof. done. Qed.

Lemma length_requested areas start count :
  0 <= start -> 0 <= count -> start + count <= Z.of_nat (length areas) ->
  length (requested areas start count) = Z.to_nat count.
Proof.
  intros Hs Hc Hl. unfold requested. rewrite length_take, length_drop. lia.
Qed.

Lemma get_requested areas start count (k : nat) :
  0 <= start -> (k < Z.to_nat count)%nat ->
  get areas (Z.of_nat k + start) = requested areas start count !! k.
Proof.
  intros Hs Hk. unfold get, requested.
  destruct (Z.ltb_spec (Z.of_nat k + start) 0); [lia|].
  rewrite lookup_take_lt, lookup_drop by done. f_equal. lia.
Qed.

(** The inner loop, from area [k] of the request: it stops at the last area
    of the run. *)
Lemma merge_runs areas start count n (k : nat) areaStart areaCount :
  let l := requested areas start count in
  0 <= start -> 0 <= count -> start + count <= Z.of_nat (length areas) ->
  (k < length l)%nat -> (length l - S k <= n)%nat ->
  ∃ (k' : nat) s' c',
    merge areas start count n (Z.of_nat k) areaStart areaCount
    = Run (Z.of_nat k') s' c'
    ∧ (k <= k' < length l)%nat
    ∧ runs_from areaStart areaCount (drop (S k) l) = (c', s') :: runs (drop (S k') l).
Proof.
  intros l Hs Hc Hl. revert k areaStart areaCount.
  pose proof (length_requested areas start count Hs Hc Hl) as Hlen. fold l in Hlen.
  induction n as [|n IH]; intros k areaStart areaCount Hk Hn.
  - exists k, areaStart, areaCount.
    assert (drop (S k) l = []) as -> by (apply drop_ge; lia).
    simpl. split; [done|]. split; [lia|done].
  - simpl. destruct (Z.ltb_spec (Z.of_nat k + 1) count) as [Hlt|Hge].
    + replace (Z.of_nat k + 1 + start) with (Z.of_nat (S k) + start) by lia.
      rewrite (get_requested areas start count (S k)) by lia. fold l.
      destruct (l !! S k) as [area|] eqn:Ha;
        [|apply lookup_ge_None in Ha; lia].
      rewrite (drop_S _ _ _ Ha). simpl.
      destruct (Z.eqb_spec (Tw2GeometryMeshArea.start area)
                  (areaStart + areaCount * 2)) as [He|Hne]; simpl.
      * destruct (IH (S k) areaStart (areaCount + Tw2GeometryMeshArea.count area))
          as (k' & s' & c' & E & Hk' & Ht); [lia | lia |].
        exists k', s', c'. replace (Z.of_nat k + 1) with (Z.of_nat (S k)) by lia.
        rewrite E. split; [done|]. split; [lia|done].
      * exists k, areaStart, areaCount. split; [done|]. split; [lia|].
        by rewrite (drop_S _ _ _ Ha).
    + exists k, areaStart, areaCount.
      assert (drop (S k) l = []) as -> by (apply drop_ge; lia).
      simpl. split; [done|]. split; [lia|done].
Qed.

(** The loop over the areas of a request that lies within the mesh: one
    draw call for each run. *)
Lemma walk_runs draw res_path areas start count n (k : nat) d :
  let l := requested areas start count in
  0 <= start -> 0 <= count -> start + count <= Z.of_nat (length areas) ->
  (k <= length l)%nat -> (length l - k <= n)%nat ->
  walk draw res_path areas start count n (Z.of_nat k) d
  = Returned true (after d ((fun run => draw run.1 run.2) <$> runs (drop k l))).
Proof.
  intros l Hs Hc Hl. revert k d.
  pose proof (length_requested areas start count Hs Hc Hl) as Hlen. fold l in Hlen.
  induction n as [|n IH]; intros k d Hk Hn.
  - assert (drop k l = []) as -> by (apply drop_ge; lia). simpl.
    by rewrite after_nil.
  - simpl. destruct (Z.ltb_spec (Z.of_nat k) count) as [Hlt|Hge].
    + destruct (Z.ltb_spec (Z.of_nat k + start) (Z.of_nat (length areas))); [|lia].
      rewrite (get_requested areas start count k) by lia. fold l.
      destruct (l !! k) as [area|] eqn:Ha; [|apply lookup_ge_None in Ha; lia].
      destruct (merge_runs areas start count (Z.to_nat (count - (Z.of_nat k + 1))) k
                  (Tw2GeometryMeshArea.start area) (Tw2GeometryMeshArea.count area)
                  Hs Hc Hl) as (k' & s' & c' & -> & Hk' & Ht);
        [fold l; lia | fold l; lia |].
      fold l in Hk', Ht. rewrite emit_after.
      replace (Z.of_nat k' + 1) with (Z.of_nat (S k')) by lia.
      rewrite IH by lia. rewrite after_after. do 2 f_equal.
      rewrite (drop_S _ _ _ Ha). cbn [runs]. by rewrite Ht.
    + assert (drop k l = []) as -> by (apply drop_ge; lia). simpl.
      by rewrite after_nil.
Qed.

(** A request that starts past the last area, or asks for no area. *)
Lemma walk_nothing draw res_path areas start count n i d :
  0 <= i -> Z.of_nat (length areas) <= start ∨ count <= 0 ->
  walk draw res_path areas start count n i d = Returned true d.
Proof.
  intros Hi Hout. revert i Hi d. induction n as [|n IH]; intros i Hi d; [done|].
  simpl. destruct (Z.ltb_spec i count); [|done].
  destruct (Z.ltb_spec (i + start) (Z.of_nat (length areas))); [lia|].
  apply IH. lia.
Qed.

Lemma requested_nothing areas start count :
  0 <= start -> Z.of_nat (length areas) <= start ∨ count <= 0 ->
  requested areas start count = [].
Proof.
  intros Hs [Hout|Hout]; unfold requested.
  - rewrite drop_ge by lia. by rewrite take_nil.
  - replace (Z.to_nat count) with 0%nat by lia. done.
Qed.

Lemma walk_areas_fit draw res_path areas start count d :
  fit areas start count ->
  walk_areas draw res_path areas start count d
  = Returned true
      (after d ((fun run => draw run.1 run.2) <$> runs (requested areas start count))).
Proof.
  intros [Hs [[Hc Hl]|Hout]]; unfold walk_areas.
  - rewrite (walk_runs draw res_path areas start count _ 0 d Hs Hc Hl);
      [done | lia |].
    rewrite length_requested by done. lia.
  - rewrite walk_nothing by (done || lia).
    rewrite requested_nothing by done. simpl. by rewrite after_nil.
Qed.

End RunsFacts.

Section PassFacts.
Context `{DeclarationMethods}.

Lemma direct_passes_fit mode r mesh effect technique start count n pass d :
  fit (Tw2GeometryMesh.areas mesh) start count ->
  (∀ q, (pass <= q < pass + n)%nat -> binds mesh effect technique q) ->
  direct_passes mode r mesh effect technique start count n pass d
  = Returned true
      (after d (concat (direct_pass mode mesh effect technique
                          (requested (Tw2GeometryMesh.areas mesh) start count)
                        <$> seq pass n))).
Proof.
  intros Hfit. revert pass d. induction n as [|n IH]; intros pass d Hb.
  - simpl. by rewrite after_nil.
  - cbn [direct_passes]. rewrite !emit_after.
    rewrite (Hb pass) by lia. cbn [negb]. rewrite emit_after.
    erewrite bind_Returned; [|by apply walk_areas_fit]. lazy beta iota.
    rewrite IH by (intros q Hq; apply Hb; lia).
    rewrite !after_after. done.
Qed.

Lemma direct_passes_unbound mode r mesh effect technique start count n pass p d :
  fit (Tw2GeometryMesh.areas mesh) start count ->
  (pass <= p < pass + n)%nat ->
  (∀ q, (pass <= q < p)%nat -> binds mesh effect technique q) ->
  ¬ binds mesh effect technique p ->
  direct_passes mode r mesh effect technique start count n pass d
  = Returned false
      (after d (concat (direct_pass mode mesh effect technique
                          (requested (Tw2GeometryMesh.areas mesh) start count)
                        <$> seq pass (p - pass))
                ++ unbound_pass (path r) mesh effect technique p)).
Proof.
  intros Hfit. revert pass d. induction n as [|n IH]; intros pass d Hp Hb Hu; [lia|].
  cbn [direct_passes]. rewrite !emit_after.
  destruct (decide (pass = p)) as [->|Hne].
  - unfold binds in Hu. apply not_true_is_false in Hu. rewrite Hu. cbn [negb].
    rewrite emit_after. rewrite !after_after. rewrite Nat.sub_diag. done.
  - rewrite (Hb pass) by lia. cbn [negb]. rewrite emit_after.
    erewrite bind_Returned; [|by apply walk_areas_fit]. lazy beta iota.
    rewrite IH by (done || lia || (intros q Hq; apply Hb; lia)).
    rewrite !after_after.
    replace (p - pass)%nat with (S (p - S pass)) by lia.
    cbn [seq fmap list_fmap concat]. unfold direct_pass at 2.
    by rewrite <- !app_assoc.
Qed.


(** The test at the head of the three render methods lets the request
    through. *)
Lemma guard_passed effect tech (r : t) (meshIx : Z) mesh :
  IsGood r = true -> GetPassCount effect tech ≠ 0%nat ->
  get (meshes r) meshIx = Some mesh ->
  bool_decide (GetPassCount effect tech = 0%nat) || negb (IsGood r)
  || (Z.of_nat (length (meshes r)) <=? meshIx) = false.
Proof.
  intros Hgood Hpass Hmesh. pose proof (get_lt _ _ _ Hmesh).
  rewrite Hgood, bool_decide_eq_false_2 by done. simpl.
  destruct (Z.leb_spec (Z.of_nat (length (meshes r))) meshIx); [lia | done].
Qed.

End PassFacts.

Section DirectFacts.
Context `{DeclarationMethods}.

(** The two direct render methods on a fit request with every pass
    binding. *)
Lemma direct_render_fit (meshIx start count : Z) (effect : Tw2Effect)
    (technique : option string) (r : t) (mesh : Tw2GeometryMesh.t) (d : Device) :
  let tech := default (defaultTechnique effect) technique in
  let l := requested (Tw2GeometryMesh.areas mesh) start count in
  let expected mode :=
    [KeepAlive; gl_bindBuffer gl_ARRAY_BUFFER (Tw2GeometryMesh.buffer mesh);
     gl_bindBuffer gl_ELEMENT_ARRAY_BUFFER (Tw2GeometryMesh.indexes mesh)]
    ++ concat (direct_pass mode mesh effect tech l
               <$> seq 0 (GetPassCount effect tech)) in
  IsGood r = true -> GetPassCount effect tech ≠ 0%nat ->
  get (meshes r) meshIx = Some mesh ->
  fit (Tw2GeometryMesh.areas mesh) start count ->
  (∀ pass, (pass < GetPassCount effect tech)%nat -> binds mesh effect tech pass) ->
  RenderAreas meshIx start count effect technique r d
  = Returned true (after d (expected gl_TRIANGLES))
  ∧ RenderLines meshIx start count effect technique r d
    = Returned true (after d (expected gl_LINES)).
Proof.
  intros tech l expected Hgood Hpass Hmesh Hfit Hb.
  pose proof (guard_passed effect tech r meshIx mesh Hgood Hpass Hmesh) as G.
  split.
  - unfold RenderAreas. fold tech. rewrite emit_after, G, Hmesh.
    cbn [from_option]. rewrite !emit_after.
    rewrite direct_passes_fit by (done || (intros q Hq; apply Hb; lia)).
    by rewrite !after_after.
  - unfold RenderLines. fold tech. rewrite emit_after, G, Hmesh.
    rewrite !emit_after.
    rewrite direct_passes_fit by (done || (intros q Hq; apply Hb; lia)).
    by rewrite !after_after.
Qed.

(** With nothing to count, the start of a request plays no part. *)
Lemma direct_passes_no_count mode r mesh effect technique start count n :
  ∀ pass d, count <= 0 ->
    direct_passes mode r mesh effect technique start count n pass d
    = direct_passes mode r mesh effect technique 0 count n pass d.
Proof.
  induction n as [|n IH]; intros pass d Hc; [done|].
  cbn [direct_passes]. rewrite !emit_after.
  destruct (negb _); [done|]. rewrite !emit_after.
  unfold walk_areas. rewrite Z2Nat.nonpos by done. cbn [walk].
  unfold bind, ret. by apply IH.
Qed.

End DirectFacts.



Section RunsSum.




End RunsSum.



(** X3.  On a good resource, for an effect with at least one pass, a mesh
    that exists and a declaration that binds to every pass: a request that
    starts at or past the number of areas, or whose count is 0 or less
    whatever its start, is accepted in silence: [RenderAreas] sets up every
    pass, draws nothing, reports nothing and returns true. *)
Theorem request_past_the_end_is_silent `{DeclarationMethods}
    (meshIx start count : Z) (effect : Tw2Effect) (technique : option string)
    (r : t) (mesh : Tw2GeometryMesh.t) (d : Device) :
  let tech := default (defaultTechnique effect) technique in
  IsGood r = true -> GetPassCount effect tech ≠ 0%nat ->
  get (meshes r) meshIx = Some mesh ->
  Z.of_nat (length (Tw2GeometryMesh.areas mesh)) <= start ∨ count <= 0 ->
  (∀ pass, (pass < GetPassCount effect tech)%nat -> binds mesh effect tech pass) ->
  RenderAreas meshIx start count effect technique r d
  = Returned true
      (after d
         ([KeepAlive; gl_bindBuffer gl_ARRAY_BUFFER (Tw2GeometryMesh.buffer mesh);
           gl_bindBuffer gl_ELEMENT_ARRAY_BUFFER (Tw2GeometryMesh.indexes mesh)]
          ++ concat ((fun pass =>
                        [ApplyPass tech pass;
                         SetDeclaration (GetPassInput effect tech pass)
                           (Tw2VertexDeclaration.stride
                              (Tw2GeometryMesh.declaration mesh));
                         ApplyShadowState]) <$> seq 0 (GetPassCount effect tech)))).
Proof.
  intros tech Hgood Hpass Hmesh Hout Hb.
  assert (∃ start', 0 <= start'
            ∧ (Z.of_nat (length (Tw2GeometryMesh.areas mesh)) <= start' ∨ count <= 0)
            ∧ RenderAreas meshIx start count effect technique r d
              = RenderAreas meshIx start' count effect technique r d)
    as (start' & Hs & Hout' & ->).
  { destruct (Z.le_gt_cases 0 start) as [Hs|Hs]; [by exists start|].
    exists 0. split; [done|]. assert (count <= 0) as Hc by lia.
    split; [by right|].
    pose proof (guard_passed effect tech r meshIx mesh Hgood Hpass Hmesh) as G.
    unfold RenderAreas. fold tech. rewrite !emit_after, G, Hmesh.
    cbn [from_option]. rewrite !emit_after. by apply direct_passes_no_count. }
  destruct (direct_render_fit meshIx start' count effect technique r mesh d)
    as [-> _]; try done.
  { split; [done|]. by right. }
  fold tech. by rewrite requested_nothing.
Qed.

Lemma request_past_the_end_is_silent_witness :
  RenderAreas 0 4 2 (Examples.effect 1) None
    (Examples.ready [Examples.mesh4 gl_UNSIGNED_SHORT]) Examples.device0
  = Returned true
      (mkDevice
         [KeepAlive; gl_bindBuffer gl_ARRAY_BUFFER (Some 0%nat);
          gl_bindBuffer gl_ELEMENT_ARRAY_BUFFER (Some 1%nat);
          ApplyPass "Main" 0; SetDeclaration {| pi_elements := 1; pi_id := 0 |} 32;
          ApplyShadowState] 0).
Proof.
  refine (request_past_the_end_is_silent 0 4 2 (Examples.effect 1) None
            (Examples.ready [Examples.mesh4 gl_UNSIGNED_SHORT])
            (Examples.mesh4 gl_UNSIGNED_SHORT) Examples.device0 _ _ _ _ _).
  - reflexivity.
  - simpl. lia.
  - reflexivity.
  - left. simpl. lia.
  - intros pass _. reflexivity.
Defined.

(** X4.  On a good resource with a mesh at the index asked, for a request
    whose areas all exist (or that asks for none): when the declaration of
    the mesh binds to the passes before [p] and fails to bind at pass [p],
    [RenderAreas] has by then drawn the passes before [p] in full; it reports
    [ErrGeometryMeshEffectBinding] with the path, the pass [p], its input and
    the stride of the mesh, draws nothing more and returns false. *)
Theorem binding_failure_stops_rendering `{DeclarationMethods}
    (meshIx start count : Z) (effect : Tw2Effect) (technique : option string)
    (r : t) (mesh : Tw2GeometryMesh.t) (p : nat) (d : Device) :
  let tech := default (defaultTechnique effect) technique in
  let l := requested (Tw2GeometryMesh.areas mesh) start count in
  IsGood r = true -> get (meshes r) meshIx = Some mesh ->
  fit (Tw2GeometryMesh.areas mesh) start count ->
  (p < GetPassCount effect tech)%nat ->
  (∀ pass, (pass < p)%nat -> binds mesh effect tech pass) ->
  ¬ binds mesh effect tech p ->
  RenderAreas meshIx start count effect technique r d
  = Returned false
      (after d
         ([KeepAlive; gl_bindBuffer gl_ARRAY_BUFFER (Tw2GeometryMesh.buffer mesh);
           gl_bindBuffer gl_ELEMENT_ARRAY_BUFFER (Tw2GeometryMesh.indexes mesh)]
          ++ concat (direct_pass gl_TRIANGLES mesh effect tech l <$> seq 0 p)
          ++ [ApplyPass tech p;
              SetDeclaration (GetPassInput effect tech p)
                (Tw2VertexDeclaration.stride (Tw2GeometryMesh.declaration mesh));
              OnError (ErrGeometryMeshEffectBinding (path r) p
                         (GetPassInput effect tech p)
                         (Tw2VertexDeclaration.stride
                            (Tw2GeometryMesh.declaration mesh)))])).
Proof.
  intros tech l Hgood Hmesh Hfit Hp Hb Hu.
  assert (Hpass : GetPassCount effect tech ≠ 0%nat) by lia.
  pose proof (guard_passed effect tech r meshIx mesh Hgood Hpass Hmesh) as G.
  unfold RenderAreas. fold tech. rewrite emit_after, G, Hmesh.
  cbn [from_option]. rewrite !emit_after.
  rewrite (direct_passes_unbound gl_TRIANGLES r mesh effect tech start count _ 0 p)
    by (done || lia || (intros q Hq; apply Hb; lia)).
  rewrite !after_after, Nat.sub_0_r. done.
Qed.

Lemma binding_failure_stops_rendering_witness :
  @RenderAreas MoreExamples.first_pass_only 0 0 3 (Examples.effect 3) None
    (Examples.ready [Examples.mesh4 gl_UNSIGNED_SHORT]) Examples.device0
  = Returned false
      (mkDevice
         [KeepAlive; gl_bindBuffer gl_ARRAY_BUFFER (Some 0%nat);
          gl_bindBuffer gl_ELEMENT_ARRAY_BUFFER (Some 1%nat);
          ApplyPass "Main" 0; SetDeclaration {| pi_elements := 1; pi_id := 0 |} 32;
          ApplyShadowState; gl_drawElements gl_TRIANGLES 23 gl_UNSIGNED_SHORT 0;
          ApplyPass "Main" 1; SetDeclaration {| pi_elements := 1; pi_id := 1 |} 32;
          OnError (ErrGeometryMeshEffectBinding "res:/model.gr2" 1
                     {| pi_elements := 1; pi_id := 1 |} 32)] 0).
Proof.
  refine (@binding_failure_stops_rendering MoreExamples.first_pass_only
            0 0 3 (Examples.effect 3) None
            (Examples.ready [Examples.mesh4 gl_UNSIGNED_SHORT])
            (Examples.mesh4 gl_UNSIGNED_SHORT) 1 Examples.device0 _ _ _ _ _ _).
  - reflexivity.
  - reflexivity.
  - unfold fit. simpl. lia.
  - simpl. lia.
  - intros pass Hp. assert (pass = 0%nat) as -> by lia. reflexivity.
  - unfold binds. simpl. discriminate.
Defined.

(** X5.  The fallback to the first mesh in [RenderAreas] is what a mesh
    index below 0 meets: on a resource that holds a mesh, such a request is
    the request for mesh 0.  [RenderLines] and [RenderAreasInstanced] have no
    fallback: on a good resource with a nonzero pass count they end in a
    [TypeError], after the keep-alive. *)
Theorem negative_mesh_index `{DeclarationMethods}
    (meshIx start count : Z) (effect : Tw2Effect) (technique : option string)
    (instanceVB : option nat) (instanceDecl : Tw2VertexDeclaration.t)
    (instanceStride instanceCount : Z) (r : t) (d : Device) :
  meshIx < 0 ->
  (meshes r ≠ [] ->
   RenderAreas meshIx start count effect technique r d
   = RenderAreas 0 start count effect technique r d)
  ∧ (IsGood r = true ->
     GetPassCount effect (default (defaultTechnique effect) technique) ≠ 0%nat ->
     RenderLines meshIx start count effect technique r d
     = Thrown TypeError (after d [KeepAlive])
     ∧ RenderAreasInstanced meshIx start count effect technique
         instanceVB instanceDecl instanceStride instanceCount r d
       = Thrown TypeError (after d [KeepAlive])).
Proof.
  intros Hneg.
  assert (Hget : get (meshes r) meshIx = None).
  { unfold get. by destruct (Z.ltb_spec meshIx 0); [|lia]. }
  assert (Hle : (Z.of_nat (length (meshes r)) <=? meshIx) = false).
  { destruct (Z.leb_spec (Z.of_nat (length (meshes r))) meshIx); [lia|done]. }
  split.
  - intros Hne. unfold RenderAreas. rewrite !emit_after, Hget, Hle.
    destruct (meshes r) as [|m ms] eqn:Hms; [done|]. done.
  - intros Hgood Hpass. unfold RenderLines, RenderAreasInstanced.
    rewrite !emit_after, Hget, Hle, Hgood.
    rewrite bool_decide_eq_false_2 by done. done.
Qed.

Lemma negative_mesh_index_witness :
  let r := Examples.ready [Examples.mesh4 gl_UNSIGNED_SHORT] in
  RenderAreas (-1) 0 3 (Examples.effect 1) None r Examples.device0
  = RenderAreas 0 0 3 (Examples.effect 1) None r Examples.device0
  ∧ RenderLines (-1) 0 3 (Examples.effect 1) None r Examples.device0
    = Thrown TypeError (after Examples.device0 [KeepAlive])
  ∧ RenderAreasInstanced (-1) 0 3 (Examples.effect 1) None None
      (Tw2VertexDeclaration.mk [] 0) 16 7 r Examples.device0
    = Thrown TypeError (after Examples.device0 [KeepAlive]).
Proof.
  intros r.
  destruct (negative_mesh_index (-1) 0 3 (Examples.effect 1) None None
              (Tw2VertexDeclaration.mk [] 0) 16 7 r Examples.device0)
    as [Hareas Hothers]; [lia|].
  split; [apply Hareas; discriminate|].
  apply Hothers; [reflexivity | simpl; lia].
Defined.



(** ** The boxes of the bones *)

Section BoneBoxes.
Context {Ray Mat4 Cache : Type} `{!MeshMethods Ray Mat4 Cache}.

Lemma find_from_Some b bones name i :
  Tw2GeometryModel.find_from b bones name = Some i ->
  ∃ bone, bones !! (i - b)%nat = Some bone ∧ Tw2GeometryBone.name bone = name
          ∧ (b <= i)%nat.
Proof.
  revert b. induction bones as [|bone bones IH]; intros b Hf; [done|].
  simpl in Hf. case_bool_decide as Hn.
  - injection Hf as <-. exists bone. by rewrite Nat.sub_diag.
  - destruct (IH _ Hf) as (bone' & Hl & Hname & Hle).
    exists bone'. replace (i - b)%nat with (S (i - S b)) by lia. split; [done|].
    split; [done|lia].
Qed.

Lemma bound_bone_name mesh bound bones i bone :
  Tw2GeometryBone.name (bound_bone mesh bound bones i bone) = Tw2GeometryBone.name bone.
Proof. unfold bound_bone. by case_bool_decide. Qed.

Lemma bound_bone_nil mesh bones : imap (bound_bone mesh [] bones) bones = bones.
Proof.
  apply list_eq. intros i. rewrite list_lookup_imap.
  destruct (bones !! i) as [bone|]; [|done]. simpl. unfold bound_bone.
  rewrite bool_decide_eq_false_2; [done|]. intros [Hin _]. by apply elem_of_nil in Hin.
Qed.

(** Giving the first bone called [name] its box adds [name] to the names
    bound. *)
Lemma bound_bone_step mesh bound bones name b :
  Tw2GeometryModel.find_from 0 bones name = Some b ->
  alter (fun bone => Tw2GeometryBone.mk (Tw2GeometryBone.name bone)
                       (mesh_FindBoneBoundsByName name mesh)) b
    (imap (bound_bone mesh bound bones) bones)
  = imap (bound_bone mesh (bound ++ [name]) bones) bones.
Proof.
  intros Hf. destruct (find_from_Some 0 bones name b Hf) as (bone_b & Hb & Hname & _).
  rewrite Nat.sub_0_r in Hb.
  apply list_eq. intros i. rewrite list_lookup_imap.
  destruct (decide (i = b)) as [->|Hne].
  - rewrite list_lookup_alter_eq, list_lookup_imap, Hb. simpl.
    rewrite bound_bone_name. unfold bound_bone.
    rewrite bool_decide_eq_true_2; [by rewrite Hname|].
    rewrite Hname. split; [|done]. apply elem_of_app. right. by left.
  - rewrite list_lookup_alter_ne, list_lookup_imap by done.
    destruct (bones !! i) as [bone|]; [|done]. simpl. f_equal.
    unfold bound_bone. apply (f_equal (fun c : bool => if c then _ else _)).
    apply bool_decide_ext. rewrite elem_of_app, list_elem_of_singleton.
    split; [tauto|]. intros [[Hin|Hn] Hfi]; [tauto|].
    rewrite Hn, Hf in Hfi. congruence.
Qed.

(** The loop of [BindMeshToModel] leaves, thrown or not, the skeleton with
    the boxes of the names it got through. *)
Lemma bind_bones_boxes res_path mesh names bones0 (bound : list string) found model0 model :
  Tw2GeometryModel.skeleton model
  = imap (bound_bone mesh bound bones0) <$> Some bones0 ->
  Tw2GeometryModel.skeleton model0 = Some bones0 ->
  (∀ name, Tw2GeometryModel.FindBoneByName name model
           = Tw2GeometryModel.FindBoneByName name model0) ->
  Tw2GeometryModel.name model = Tw2GeometryModel.name model0 ->
  ∀ model',
    (∃ bs, bind_bones res_path mesh names found model = Returned bs model')
    ∨ (∃ e, bind_bones res_path mesh names found model = Thrown e model') ->
    Tw2GeometryModel.skeleton model'
    = Some (imap (bound_bone mesh (bound ++ resolved_prefix model0 names) bones0) bones0)
    ∧ Tw2GeometryModel.name model' = Tw2GeometryModel.name model0.
Proof.
  revert bound found model.
  induction names as [|name names IH]; intros bound found model Hsk Hsk0 Hfind Hname model' Hout.
  - simpl in *. rewrite app_nil_r.
    destruct Hout as [[bs Hout]|[e Hout]]; [|done]. injection Hout as _ <-. done.
  - simpl in Hout |- *. rewrite <- Hfind.
    destruct (Tw2GeometryModel.FindBoneByName name model) as [b|] eqn:Hb.
    + apply (IH (bound ++ [name]) (found ++ [b])
               (Tw2GeometryModel.set_boundingBox b
                  (mesh_FindBoneBoundsByName name mesh) model)) in Hout.
      * by rewrite <- app_assoc in Hout.
      * unfold Tw2GeometryModel.set_boundingBox. simpl. rewrite Hsk. simpl.
        f_equal. apply bound_bone_step.
        rewrite Hfind in Hb. unfold Tw2GeometryModel.FindBoneByName in Hb.
        by rewrite Hsk0 in Hb.
      * done.
      * intros n. by rewrite FindBoneByName_set_boundingBox.
      * done.
    + rewrite app_nil_r. destruct Hout as [[bs Hout]|[e Hout]]; [done|].
      injection Hout as _ <-. done.
Qed.

Lemma bind_bones_ends res_path mesh names :
  ∀ found model, bind_bones res_path mesh names found model ≠ OutOfData.
Proof.
  induction names as [|name names IH]; intros found model; simpl; [done|].
  destruct (Tw2GeometryModel.FindBoneByName name model); [apply IH | done].
Qed.

End BoneBoxes.

(** X7.  Binding gives boxes to bones as it goes, whether it ends well or
    not.  On a model with a skeleton, [BindMeshToModel] returns or throws;
    with [bound] the names of [mesh.boneBindings] up to the first that the
    model has no bone for (all of them when the binding succeeds), it leaves
    the model with its name and the names of its bones as they were; the
    first bone called by a name of [bound] has for [boundingBox] what
    [mesh.FindBoneBoundsByName] gives for that name, and every other bone is
    as before, also when the call throws. *)
Theorem BindMeshToModel_bone_boxes
    {Ray Mat4 Cache : Type} `{!MeshMethods Ray Mat4 Cache}
    (mesh : Tw2GeometryMesh.t) (model : Tw2GeometryModel.t) (r : t)
    (bones : list Tw2GeometryBone.t) :
  let bound := resolved_prefix model (Tw2GeometryMesh.boneBindings mesh) in
  Tw2GeometryModel.skeleton model = Some bones ->
  ∃ model',
    (BindMeshToModel mesh r model = Returned tt model'
     ∨ ∃ e, BindMeshToModel mesh r model = Thrown e model')
    ∧ Tw2GeometryModel.name model' = Tw2GeometryModel.name model
    ∧ Tw2GeometryModel.skeleton model'
      = Some (imap (bound_bone mesh bound bones) bones).
Proof.
  intros bound Hsk. unfold BindMeshToModel, bind.
  pose proof (bind_bones_ends (path r) mesh (Tw2GeometryMesh.boneBindings mesh) []
                model) as Hends.
  destruct (bind_bones (path r) mesh (Tw2GeometryMesh.boneBindings mesh) [] model)
    as [bs m|e m|] eqn:E; [| |done].
  - destruct (bind_bones_boxes (path r) mesh (Tw2GeometryMesh.boneBindings mesh)
                bones [] [] model model) with (model' := m) as [Hs Hn].
    { rewrite Hsk. simpl. by rewrite bound_bone_nil. }
    { done. } { done. } { done. } { left. by exists bs. }
    eexists. split; [by left|]. done.
  - destruct (bind_bones_boxes (path r) mesh (Tw2GeometryMesh.boneBindings mesh)
                bones [] [] model model) with (model' := m) as [Hs Hn].
    { rewrite Hsk. simpl. by rewrite bound_bone_nil. }
    { done. } { done. } { done. } { right. by exists e. }
    exists m. split; [right; by exists e|]. done.
Qed.

Lemma BindMeshToModel_bone_boxes_witness :
  ∃ model',
    (BindMeshToModel (Examples.skinned ["arm"; "tail"; "root"])
       (Examples.ready []) Examples.biped = Returned tt model'
     ∨ ∃ e, BindMeshToModel (Examples.skinned ["arm"; "tail"; "root"])
              (Examples.ready []) Examples.biped = Thrown e model')
    ∧ Tw2GeometryModel.name model' = "biped"
    ∧ Tw2GeometryModel.skeleton model'
      = Some [Tw2GeometryBone.mk "root" None;
              Tw2GeometryBone.mk "arm"
                (mesh_FindBoneBoundsByName "arm"
                   (Examples.skinned ["arm"; "tail"; "root"]))].
Proof.
  exact (BindMeshToModel_bone_boxes (Examples.skinned ["arm"; "tail"; "root"])
           Examples.biped (Examples.ready [])
           [Tw2GeometryBone.mk "root" None; Tw2GeometryBone.mk "arm" None] eq_refl).
Defined.

(** ** The hits of an intersection *)

Section SortFacts.

Lemma sort_insert_Permutation {A} (compare : A -> A -> Z) x (l : list A) :
  sort_insert compare x l ≡ₚ x :: l.
Proof.
  induction l as [|y l IH]; simpl; [done|].
  destruct (0 <? compare y x); [done|]. rewrite IH. apply Permutation_swap.
Qed.

Lemma sort_Permutation {A} (compare : A -> A -> Z) (l : list A) :
  sort compare l ≡ₚ l.
Proof.
  induction l as [|x l IH]; simpl; [done|].
  by rewrite sort_insert_Permutation, IH.
Qed.

End SortFacts.

(** X8.  When the ray meets the bounds and the mesh exists, [Intersect]
    returns the hits of that mesh, in some order, each of them tagged with the
    path of the resource, the mesh index and the name of the mesh; none is
    lost or added.  The mesh is the one at [meshIndex] after the bounds were
    rebuilt. *)
Theorem Intersect_returns_tagged_hits
    `{Box3} {Ray Mat4 Cache : Type} `{!MeshMethods Ray Mat4 Cache}
    `{!RayMethods Ray Mat4}
    (ray : Ray) (intersects : list Intersection.t) (worldTransform : Mat4)
    (cache : Cache) (meshIndex : Z) (r : t) (mesh : Tw2GeometryMesh.t) :
  let r' := RebuildBounds false r in
  let hits := (mesh_Intersect ray intersects worldTransform cache mesh).2 in
  let result := (Intersect ray intersects worldTransform cache (Some meshIndex) r).2 in
  ray_IntersectBounds ray (minBounds r') (maxBounds r') worldTransform = true ->
  get (meshes r') meshIndex = Some mesh ->
  result ≡ₚ tag r' meshIndex mesh <$> hits
  ∧ length result = length hits
  ∧ ∀ hit, hit ∈ result ->
      Intersection.geometryResource hit = Some (path r)
      ∧ Intersection.meshIndex hit = Some meshIndex
      ∧ Intersection.mesh hit = Some (Tw2GeometryMesh.name mesh).
Proof.
  intros r' hits result Hray Hmesh.
  assert (Hp : result ≡ₚ tag r' meshIndex mesh <$> hits).
  { subst result hits. unfold Intersect. cbn [default from_option id]. fold r'.
    rewrite Hray, Hmesh. cbn [negb].
    destruct (mesh_Intersect ray intersects worldTransform cache mesh)
      as [[acc cache'] hs]. cbn [snd]. apply sort_Permutation. }
  split; [done|]. split.
  - by rewrite Hp, length_fmap.
  - intros hit Hin. rewrite Hp in Hin.
    apply list_elem_of_fmap in Hin as (h & -> & _). simpl.
    split; [|done]. f_equal. subst r'.
    destruct (RebuildBounds_cases false r) as [-> | [-> | ->]];
      [done | by rewrite recompute_eq | by rewrite recompute_eq].
Qed.

Lemma Intersect_returns_tagged_hits_witness :
  let result :=
    (@Intersect _ unit unit unit MoreExamples.hit_twice _ tt [] tt tt (Some 0)
       (Examples.ready [Examples.mesh4 gl_UNSIGNED_SHORT])).2 in
  length result = 2%nat
  ∧ ∀ hit, hit ∈ result ->
      Intersection.geometryResource hit = Some "res:/model.gr2"
      ∧ Intersection.meshIndex hit = Some 0
      ∧ Intersection.mesh hit = Some "hull".
Proof.
  intros result.
  destruct (@Intersect_returns_tagged_hits _ unit unit unit MoreExamples.hit_twice _ tt [] tt tt 0
              (Examples.ready [Examples.mesh4 gl_UNSIGNED_SHORT])
              (Examples.with_dirty false (Examples.mesh4 gl_UNSIGNED_SHORT)))
    as (_ & Hlen & Htag); [reflexivity | reflexivity |].
  split; [exact Hlen | exact Htag].
Defined.

(** ** Unloading and instance data *)

Section UnloadFacts.

Lemma unload_meshes_spec ms :
  unload_meshes ms = ((fun m => (unload_mesh m).1) <$> ms, ms ≫= handles).
Proof.
  induction ms as [|m ms IH]; [done|].
  cbn [unload_meshes]. rewrite IH. done.
Qed.

Lemma Unload_spec r :
  Unload r = (OnUnloaded (with_meshes ((fun m => (unload_mesh m).1) <$> meshes r) r),
              meshes r ≫= handles, true).
Proof. unfold Unload. by rewrite unload_meshes_spec. Qed.

End UnloadFacts.

(** X9.  [Unload] deletes each buffer that a mesh still holds, the vertex
    buffer before the index buffer and mesh after mesh, and nothing else;
    afterwards no mesh holds a buffer and the meshes are otherwise as they
    were; it returns true.  An [Unload] right after deletes nothing. *)
Theorem Unload_deletes_each_buffer_once (r : t) :
  let r1 := (Unload r).1.1 in
  (Unload r).2 = true
  ∧ (Unload r).1.2 = meshes r ≫= handles
  ∧ Forall2 (fun m m' =>
       Tw2GeometryMesh.buffer m' = None ∧ Tw2GeometryMesh.indexes m' = None
       ∧ Tw2GeometryMesh.name m' = Tw2GeometryMesh.name m
       ∧ Tw2GeometryMesh.declaration m' = Tw2GeometryMesh.declaration m
       ∧ Tw2GeometryMesh.areas m' = Tw2GeometryMesh.areas m
       ∧ Tw2GeometryMesh.bufferLength m' = Tw2GeometryMesh.bufferLength m
       ∧ Tw2GeometryMesh.indexType m' = Tw2GeometryMesh.indexType m
       ∧ Tw2GeometryMesh.bufferData m' = Tw2GeometryMesh.bufferData m
       ∧ Tw2GeometryMesh.indexData m' = Tw2GeometryMesh.indexData m)
      (meshes r) (meshes r1)
  ∧ (Unload r1).1.2 = [] ∧ meshes (Unload r1).1.1 = meshes r1.
Proof.
  intros r1. subst r1. rewrite !Unload_spec.
  cbn [fst snd meshes with_meshes OnUnloaded with_state].
  split; [done|]. split; [done|]. split; [|split].
  - apply Forall2_fmap_r, Forall_Forall2_diag, Forall_forall. by intros m _.
  - induction (meshes r) as [|m ms IH]; [done|]. by rewrite fmap_cons.
  - rewrite <- list_fmap_compose. apply list_fmap_ext. by intros _ m _.
Qed.

(** X10.  Of the four instance accessors only [GetInstanceBuffer] tests the
    index, and only from above: at or past the number of meshes it returns
    [undefined]; the other three throw a [TypeError] there.  Below 0 all four
    throw; on a mesh that exists they return its buffer, its declaration, the
    stride of its declaration, and the quotient of its buffer length times 4
    by that stride. *)
Theorem instance_accessors (meshIndex : Z) (r : t) :
  (Z.of_nat (length (meshes r)) <= meshIndex ->
   GetInstanceBuffer meshIndex r = Returned None r
   ∧ GetInstanceDeclaration meshIndex r = Thrown TypeError r
   ∧ GetInstanceStride meshIndex r = Thrown TypeError r
   ∧ GetInstanceCount meshIndex r = Thrown TypeError r)
  ∧ (meshIndex < 0 ->
     GetInstanceBuffer meshIndex r = Thrown TypeError r
     ∧ GetInstanceDeclaration meshIndex r = Thrown TypeError r
     ∧ GetInstanceStride meshIndex r = Thrown TypeError r
     ∧ GetInstanceCount meshIndex r = Thrown TypeError r)
  ∧ (∀ mesh, get (meshes r) meshIndex = Some mesh ->
     let declaration := Tw2GeometryMesh.declaration mesh in
     GetInstanceBuffer meshIndex r = Returned (Some (Tw2GeometryMesh.buffer mesh)) r
     ∧ GetInstanceDeclaration meshIndex r = Returned declaration r
     ∧ GetInstanceStride meshIndex r
       = Returned (Tw2VertexDeclaration.stride declaration) r
     ∧ GetInstanceCount meshIndex r
       = Returned (Float.divide (Tw2GeometryMesh.bufferLength mesh * 4)
                     (Tw2VertexDeclaration.stride declaration)) r).
Proof.
  unfold GetInstanceBuffer, GetInstanceDeclaration, GetInstanceStride, GetInstanceCount.
  split; [|split].
  - intros Hge. rewrite get_ge by done.
    by destruct (Z.ltb_spec meshIndex (Z.of_nat (length (meshes r)))); [lia|].
  - intros Hneg.
    assert (get (meshes r) meshIndex = None) as ->.
    { unfold get. by destruct (Z.ltb_spec meshIndex 0); [|lia]. }
    by destruct (Z.ltb_spec meshIndex (Z.of_nat (length (meshes r)))); [|lia].
  - intros mesh Hmesh. pose proof (get_lt _ _ _ Hmesh). rewrite Hmesh.
    by destruct (Z.ltb_spec meshIndex (Z.of_nat (length (meshes r)))); [|lia].
Qed.

Lemma instance_accessors_witness :
  let r := Examples.ready [Examples.mesh4 gl_UNSIGNED_SHORT] in
  (GetInstanceBuffer 1 r = Returned None r
   ∧ GetInstanceStride 1 r = Thrown TypeError r)
  ∧ GetInstanceBuffer (-1) r = Thrown TypeError r
  ∧ GetInstanceBuffer 0 r = Returned (Some (Some 0%nat)) r
  ∧ GetInstanceStride 0 r = Returned 32 r.
Proof.
  intros r. destruct (instance_accessors 1 r) as (Hge & _ & _).
  destruct (instance_accessors (-1) r) as (_ & Hneg & _).
  destruct (instance_accessors 0 r) as (_ & _ & Hin).
  destruct Hge as (? & _ & ? & _); [simpl; lia|].
  destruct Hneg as (? & _); [lia|].
  destruct (Hin (Examples.mesh4 gl_UNSIGNED_SHORT) eq_refl) as (? & _ & ? & _).
  done.
Defined.

(** ** Loading *)

Section LoadingFacts.
Context `{Box3} {Ray Mat4 Cache : Type} `{!MeshMethods Ray Mat4 Cache}.
Context {Data Options : Type} `{!Environment Data Options}.







End LoadingFacts.





(** X13.  [DoCustomLoad] looks the reader up under the lower-cased extension
    but stores the extension as it was given, and [Prepare] looks it up under
    the stored one.  So after a [DoCustomLoad] that succeeded, [Prepare] finds
    the same reader when lower-casing leaves the extension as it is; when the
    table has no entry for the extension as given, [Prepare] throws
    [ErrResourceFormatUnsupported] for the very extension that was accepted.
    A [DoCustomLoad] that fails leaves the stored extension null, whatever it
    was before. *)
Theorem DoCustomLoad_then_Prepare `{Box3} {Ray Mat4 Cache : Type} `{!MeshMethods Ray Mat4 Cache}
    {Data Options : Type} `{!Environment Data Options} `{!Language Data}
    (url extension : string) (r : t) :
  match readers (toLowerCase extension) with
  | Some reader =>
      ∃ r', DoCustomLoad url extension r = Returned tt r'
        ∧ _extension r' = Some extension
        ∧ (toLowerCase extension = extension -> reader_for r' = Some reader)
        ∧ (readers extension = None ->
           ∀ (data : Data) (options : Options) d,
             ∃ r'', Prepare data options (mkWorld r' d)
                    = Thrown (ErrResourceFormatUnsupported (Some extension)) (mkWorld r'' d))
  | None =>
      ∃ r', DoCustomLoad url extension r
            = Thrown (ErrResourceFormatUnsupported (Some extension)) r'
        ∧ _extension r' = None
  end.
Proof.
  unfold DoCustomLoad. destruct (readers (toLowerCase extension)) as [reader|] eqn:E.
  - eexists. split; [reflexivity|]. split; [done|]. split.
    + intros Hlow. unfold reader_for. cbn. by rewrite <- Hlow.
    + intros Hnone data options d. eexists.
      unfold Prepare, bind, do_Clear, on_res, get_res. cbn [res device].
      unfold reader_for. cbn. rewrite Hnone. reflexivity.
  - eexists. split; [reflexivity|done].
Qed.

Lemma DoCustomLoad_then_Prepare_witness :
  let r := Tw2GeometryRes.new "res:/model.OBJ" in
  ∃ r', DoCustomLoad "res:/model.OBJ" "OBJ" r = Returned tt r'
    ∧ ∃ r'', Prepare tt tt (mkWorld r' Examples.device0)
             = Thrown (ErrResourceFormatUnsupported (Some "OBJ")) (mkWorld r'' Examples.device0).
Proof.
  intros r.
  destruct (@DoCustomLoad_then_Prepare _ unit unit unit _ unit unit _ _
              "res:/model.OBJ" "OBJ" r) as (r' & E & _ & _ & HP).
  exists r'. split; [exact E|]. exact (HP eq_refl tt tt Examples.device0).
Defined.

(** ** Index buffers and curves *)

Section BlockFacts.
Import Blocks.

Lemma skip_skip a b r : skip b (skip a r) = skip (a + b) r.
Proof. unfold skip. simpl. by rewrite Nat.add_assoc. Qed.

Lemma skip_0 r : skip 0 r = r.
Proof. destruct r. unfold skip. simpl. by rewrite Nat.add_0_r. Qed.

Lemma remaining_skip r bs rest :
  remaining r = bs ++ rest -> remaining (skip (length bs) r) = rest.
Proof. apply remaining_advance. Qed.

Lemma read_unsigned k r bs rest :
  length bs = k -> remaining r = bs ++ rest ->
  read (Tw2BinaryReader.unsigned k) r = Returned (le bs) (skip k r).
Proof.
  intros Hk E. unfold read. by rewrite (unsigned_app k r bs rest Hk E).
Qed.

(** The loop that fills a typed array: word after word is read and stored
    at the next index. *)
Lemma read_loop {A} (zero : A) (conv : Z -> A) w chunks : ∀ done rest r,
  words w chunks ->
  remaining r = concat chunks ++ rest ->
  for_from (length done) (length chunks)
    (fun i array => let* v := read (Tw2BinaryReader.unsigned w) in ret (<[i := conv v]> array))
    (done ++ replicate (length chunks) zero) r
  = Returned (done ++ (conv ∘ le <$> chunks)) (skip (w * length chunks) r).
Proof.
  induction chunks as [|c chunks IH]; intros done rest r Hw E.
  - cbn. by rewrite Nat.mul_0_r, skip_0.
  - apply Forall_cons in Hw as [Hc Hw]. cbn [concat] in E. rewrite <- app_assoc in E.
    cbn [length for_from]. unfold bind at 1. unfold bind at 1.
    rewrite (read_unsigned w r c _ Hc E). unfold ret at 1.
    cbn [replicate]. rewrite insert_app_r_alt, Nat.sub_diag by lia. cbn [insert list_insert].
    replace (done ++ conv (le c) :: replicate (length chunks) zero)
      with ((done ++ [conv (le c)]) ++ replicate (length chunks) zero)
      by (by rewrite <- app_assoc).
    replace (S (length done)) with (length (done ++ [conv (le c)]))
      by (rewrite length_app; simpl; lia).
    rewrite (IH _ rest); [|done|].
    + rewrite skip_skip, <- app_assoc. cbn. do 2 f_equal. lia.
    + rewrite <- Hc. by apply remaining_skip.
Qed.

Lemma read_array_words {A} (zero : A) (conv : Z -> A) w chunks rest r :
  words w chunks ->
  remaining r = concat chunks ++ rest ->
  read_array zero (Z.of_nat (length chunks)) (Tw2BinaryReader.unsigned w) conv r
  = Returned (conv ∘ le <$> chunks) (skip (w * length chunks) r).
Proof.
  intros Hw E. unfold read_array, for_upto. rewrite Nat2Z.id.
  exact (read_loop zero conv w chunks [] rest r Hw E).
Qed.

Lemma le_words_mod w m chunks :
  words w chunks -> 256 ^ Z.of_nat w <= m ->
  (fun v => v mod m) ∘ le <$> chunks = le <$> chunks.
Proof.
  intros Hw Hm. apply list_fmap_ext. intros i c Hc. cbn.
  pose proof (le_range c) as Hr.
  rewrite (proj1 (Forall_lookup _ _) Hw i c Hc) in Hr.
  apply Z.mod_small. lia.
Qed.

End BlockFacts.

(** X14.  [ReadIndexBuffer] on a well-formed block (a type byte, a count of
    four bytes, and as many words as it announces, of two bytes when the type
    byte is 0 and of four otherwise) returns exactly the little-endian values
    of the words, in order, as a [Uint16Array] resp. a [Uint32Array], and
    leaves the cursor right behind the block.  Every type byte other than 0
    selects the 32-bit form. *)
Theorem ReadIndexBuffer_decodes (r : Tw2BinaryReader.t) (ibType : byte) (count : list byte)
    (chunks : list (list byte)) (rest : list byte) :
  let wide := negb (Tw2BinaryReader.u8 ibType =? 0) in
  let w := if wide then 4%nat else 2%nat in
  Blocks.announces count (length chunks) ->
  Blocks.words w chunks ->
  remaining r = Blocks.index_block ibType count chunks ++ rest ->
  ReadIndexBuffer r
  = Returned ((if wide then Uint32Array else Uint16Array) (le <$> chunks))
      (Blocks.skip (5 + w * length chunks) r)
  ∧ remaining (Blocks.skip (5 + w * length chunks) r) = rest.
Proof.
  intros wide w [Hcount Hn] Hw E. unfold Blocks.index_block in E.
  cbn [app] in E. rewrite <- app_assoc in E.
  assert (remaining (Blocks.skip 1 r) = count ++ concat chunks ++ rest) as E1
    by exact (remaining_skip r [ibType] _ E).
  assert (remaining (Blocks.skip 4 (Blocks.skip 1 r)) = concat chunks ++ rest) as E2.
  { rewrite <- Hcount. by apply remaining_skip. }
  split.
  - unfold ReadIndexBuffer, Tw2BinaryReader.ReadUInt8, Tw2BinaryReader.ReadUInt16,
      Tw2BinaryReader.ReadUInt32.
    unfold bind at 1. rewrite (read_unsigned 1 r [ibType] _ eq_refl E).
    unfold bind at 1. rewrite (read_unsigned 4 _ count _ Hcount E1).
    rewrite Hn. cbn [le]. rewrite Z.mul_0_r, Z.add_0_r.
    subst wide w. destruct (Tw2BinaryReader.u8 ibType =? 0); cbn [negb] in *;
      unfold bind, ret; rewrite (read_array_words _ _ _ chunks rest _ Hw E2).
    + rewrite (le_words_mod 2 _ chunks Hw), !skip_skip by done. done.
    + rewrite (le_words_mod 4 _ chunks Hw), !skip_skip by done. done.
  - replace (5 + w * length chunks)%nat
      with (length (ibType :: count ++ concat chunks)).
    + apply remaining_skip. cbn [app]. by rewrite <- app_assoc.
    + cbn. rewrite length_app, Hcount. f_equal.
      assert (length (concat chunks) = (w * length chunks)%nat) as ->; [|lia].
      clear -Hw. induction Hw as [|c cs Hc _ IH]; cbn; [lia|].
      rewrite length_app, IH, Hc. lia.
Qed.

Lemma ReadIndexBuffer_decodes_witness :
  ReadIndexBuffer Blocks.two_indexes
  = Returned (Uint16Array [1; 256]) (Blocks.skip 9 Blocks.two_indexes)
  ∧ remaining (Blocks.skip 9 Blocks.two_indexes) = [xff].
Proof.
  apply (ReadIndexBuffer_decodes Blocks.two_indexes x00 [x02; x00; x00; x00]
           [[x01; x00]; [x00; x01]] [xff]).
  - split; reflexivity.
  - repeat constructor.
  - reflexivity.
Defined.

Section CurveFacts.
Import Blocks.

Lemma length_concat_words w chunks :
  words w chunks -> length (concat chunks) = (w * length chunks)%nat.
Proof.
  induction 1 as [|c cs Hc _ IH]; cbn; [lia|]. rewrite length_app, IH, Hc. lia.
Qed.

End CurveFacts.

(** X15.  [ReadCurve] reads one byte and returns null when it is 0.  On any
    other type byte, whose value plays no further part, and a well-formed
    block after it (dimension, degree, a count of knots and that many 32-bit
    floats, a count of controls and that many 32-bit floats) it returns a
    curve with that dimension and degree, whose knots and controls are the
    floats of the block in order, and leaves the cursor right behind the
    block. *)
Theorem ReadCurve_decodes (r : Tw2BinaryReader.t) (type dimension degree : byte)
    (knotCount controlCount : list byte) (knots controls : list (list byte))
    (rest : list byte) :
  (remaining r = type :: rest -> Tw2BinaryReader.u8 type = 0 ->
   ReadCurve r = Returned None (Blocks.skip 1 r))
  ∧ (remaining r
     = type :: Blocks.curve_block dimension degree knotCount knots controlCount controls
       ++ rest ->
     Tw2BinaryReader.u8 type ≠ 0 ->
     Blocks.announces knotCount (length knots) -> Blocks.words 4 knots ->
     Blocks.announces controlCount (length controls) -> Blocks.words 4 controls ->
     let size := (11 + 4 * (length knots + length controls))%nat in
     ReadCurve r
     = Returned
         (Some (Tw2GeometryCurve.mk (Tw2BinaryReader.u8 dimension)
                  (Tw2BinaryReader.u8 degree)
                  (Single ∘ le <$> knots) (Single ∘ le <$> controls)))
         (Blocks.skip size r)
     ∧ remaining (Blocks.skip size r) = rest).
Proof.
  assert (Hu8 : ∀ b, le [b] = Tw2BinaryReader.u8 b) by (intros b; cbn; lia).
  split.
  - intros E H0. unfold ReadCurve, Tw2BinaryReader.ReadUInt8. unfold bind at 1.
    rewrite (read_unsigned 1 r [type] rest eq_refl E), Hu8, H0. done.
  - intros E Hne [Hkc Hkn] Hk [Hcc Hcn] Hc size. unfold Blocks.curve_block in E.
    cbn [app] in E. rewrite <- !app_assoc in E.
    pose proof (remaining_skip r [type] _ E) as E1.
    pose proof (remaining_skip _ [dimension] _ E1) as E2.
    pose proof (remaining_skip _ [degree] _ E2) as E3.
    pose proof (remaining_skip _ knotCount _ E3) as E4.
    pose proof (remaining_skip _ (concat knots) _ E4) as E5.
    pose proof (remaining_skip _ controlCount _ E5) as E6.
    pose proof (remaining_skip _ (concat controls) _ E6) as E7.
    rewrite (length_concat_words 4 _ Hk) in E5, E6, E7.
    rewrite (length_concat_words 4 _ Hc) in E7.
    rewrite Hkc in E4, E5, E6, E7. rewrite Hcc in E6, E7. cbn [length] in *.
    assert (Blocks.skip (4 * length controls)
              (Blocks.skip 4 (Blocks.skip (4 * length knots)
                 (Blocks.skip 4 (Blocks.skip 1 (Blocks.skip 1 (Blocks.skip 1 r))))))
            = Blocks.skip size r) as Hsize.
    { rewrite !skip_skip. subst size. f_equal. lia. }
    rewrite Hsize in E7. split; [|exact E7].
    unfold ReadCurve, Tw2BinaryReader.ReadUInt8, Tw2BinaryReader.ReadUInt32,
      Tw2BinaryReader.ReadFloat32.
    unfold bind at 1. rewrite (read_unsigned 1 r [type] _ eq_refl E), Hu8.
    destruct (Z.eqb_spec (Tw2BinaryReader.u8 type) 0) as [|_]; [done|].
    unfold bind at 1. rewrite (read_unsigned 1 _ [dimension] _ eq_refl E1), Hu8.
    unfold bind at 1. rewrite (read_unsigned 1 _ [degree] _ eq_refl E2), Hu8.
    unfold bind at 1. rewrite (read_unsigned 4 _ knotCount _ Hkc E3), Hkn.
    unfold bind at 1. rewrite (read_array_words _ _ 4 knots _ _ Hk E4).
    unfold bind at 1. rewrite (read_unsigned 4 _ controlCount _ Hcc E5), Hcn.
    unfold bind at 1. rewrite (read_array_words _ _ 4 controls _ _ Hc E6).
    unfold ret. by rewrite Hsize.
Qed.

Lemma ReadCurve_decodes_witness :
  ReadCurve Blocks.one_knot
  = Returned (Some (Tw2GeometryCurve.mk 3 2 [Single 0x3f800000] []))
      (Blocks.skip 15 Blocks.one_knot)
  ∧ remaining (Blocks.skip 15 Blocks.one_knot) = [].
Proof.
  destruct (ReadCurve_decodes Blocks.one_knot x07 x03 x02 [x01; x00; x00; x00]
              [x00; x00; x00; x00] [[x00; x00; x80; x3f]] [] []) as [_ Hcurve].
  apply Hcurve.
  - reflexivity.
  - done.
  - split; reflexivity.
  - repeat constructor.
  - split; reflexivity.
  - constructor.
Defined.

(** ** The declaration of a block without vertices *)

(** X16.  A vertex block that announces no vertex makes [ReadVertexBuffer]
    return null with the cursor behind the count, whatever the encodings of
    its entries, supported or not; the declaration passed in has been written
    all the same: its first elements are those of the entries, of type FLOAT,
    with one component more than the top three bits of the encoding say and
    at offsets of four bytes per component before them, and its stride is
    four bytes per component of a vertex. *)
Theorem ReadVertexBuffer_without_vertices
    (path : string) (st : VertexBuffer.state) (cnt : byte) (entries : list entry)
    (rest : list byte) :
  Tw2BinaryReader.u8 cnt = Z.of_nat (length entries) ->
  remaining (VertexBuffer.reader st)
  = cnt :: header entries ++ [x00; x00; x00; x00] ++ rest ->
  ∃ st',
    VertexBuffer.ReadVertexBuffer path st = Returned None st'
    ∧ remaining (VertexBuffer.reader st') = rest
    ∧ take (length entries)
        (Tw2VertexDeclaration.elements (VertexBuffer.declaration st'))
      = parsed 0 entries
    ∧ Tw2VertexDeclaration.stride (VertexBuffer.declaration st')
      = Z.of_nat (row_size (encoding <$> entries)) * 4.
Proof.
  intros Hcnt E.
  destruct (ReadVertexBuffer_declaration path st cnt entries x00 x00 x00 x00 rest Hcnt E)
    as (st1 & -> & _ & Hrem & Ht & Hs).
  exists st1. split; [done|]. done.
Qed.

Lemma ReadVertexBuffer_without_vertices_witness :
  let st := VertexBuffer.mk
              (Tw2BinaryReader.mk
                 [x02; x00; x00; x42; x05; x01; x25; x00; x00; x00; x00; xff] 0)
              (Tw2VertexDeclaration.mk [] 0) in
  ∃ st',
    VertexBuffer.ReadVertexBuffer "res:/model.gr2" st = Returned None st'
    ∧ remaining (VertexBuffer.reader st') = [xff]
    ∧ take 2 (Tw2VertexDeclaration.elements (VertexBuffer.declaration st'))
      = [Tw2VertexElement.mk 0 0 0x42 gl_FLOAT 3 0;
         Tw2VertexElement.mk 5 1 0x25 gl_FLOAT 2 12]
    ∧ Tw2VertexDeclaration.stride (VertexBuffer.declaration st') = 20.
Proof.
  intros st.
  exact (ReadVertexBuffer_without_vertices "res:/model.gr2" st x02
           [(x00, x00, x42); (x05, x01, x25)] [xff] eq_refl eq_refl).
Defined.
